(** * vastai_dfl_cli: the resilience layer around the Vast.ai command line tool

    A shallow embedding of [config/provisioning/vastai_dfl_cli.py]:
    the process runner ([VastAIClient.run]), the lenient JSON extraction
    it performs on captured output, the ownership resolver and its cache
    ([VastAIDeepFaceLabCLI]), and the log stream generator
    ([VastAIClient.stream]).

    Conventions.
    - A Python [str] is a list of code points ([pystr]); [py "..."] is the
      literal with the given ASCII text.
    - A Python value that can come out of [json] decoding is a [value];
      [Any]-typed results of the source are [value]s (raw text is [VStr]).
    - A [float] is kept as the JSON literal it was read from; the few
      operations the program applies to floats are fields of [PyRuntime].
    - The [json] module is the CPython decoder (accelerated scanner). The
      two limits of the interpreter it can hit, the recursion depth and the
      number of digits of an integer literal, are fields of [PyRuntime]. *)

From Stdlib Require Import ZArith NArith Ascii String List Bool Lia.
From stdpp Require Import base option list gmap pretty.

Local Open Scope N_scope.

(** ** Python strings *)

Abbreviation pystr := (list N) (only parsing).

Definition ch (a : ascii) : N := N_of_ascii a.
Arguments ch a%_char : simpl never.

Fixpoint py (s : string) : pystr :=
  match s with
  | EmptyString => []
  | String a r => ch a :: py r
  end.
Arguments py s%_string : simpl never.

Definition dquote : N := 34.

(** The literal in which every apostrophe stands for a double quote. *)
Definition pyq (s : string) : pystr :=
  map (fun c => if c =? ch "'" then dquote else c) (py s).
Arguments pyq s%_string : simpl never.

Module PyStr.

(** [str.isspace] on one code point (CPython's [_PyUnicode_IsWhitespace]). *)
Definition isspace (c : N) : bool :=
  ((9 <=? c) && (c <=? 13)) || ((28 <=? c) && (c <=? 32))
  || (c =? 133) || (c =? 160) || (c =? 5760)
  || ((8192 <=? c) && (c <=? 8202))
  || (c =? 8232) || (c =? 8233) || (c =? 8239) || (c =? 8287) || (c =? 12288).

Fixpoint drop_while (p : N -> bool) (s : pystr) : pystr :=
  match s with
  | [] => []
  | c :: r => if p c then drop_while p r else s
  end.

Definition lstrip (s : pystr) : pystr := drop_while isspace s.
Definition rstrip (s : pystr) : pystr := rev (drop_while isspace (rev s)).
(** [s.strip()] *)
Definition strip (s : pystr) : pystr := rstrip (lstrip s).

(** [s.rstrip(chars)] for a one-character [chars] *)
Definition rstrip_char (c : N) (s : pystr) : pystr :=
  rev (drop_while (N.eqb c) (rev s)).

(** [s.find(ch)] for a one-character [ch]: the first index, if any. *)
Fixpoint find (c : N) (s : pystr) : option nat :=
  match s with
  | [] => None
  | x :: r => if x =? c then Some O else option_map S (find c r)
  end.

(** [c in chars] for a character [c] *)
Definition char_in (c : N) (chars : pystr) : bool := existsb (N.eqb c) chars.

Fixpoint eqb (a b : pystr) : bool :=
  match a, b with
  | [], [] => true
  | x :: a', y :: b' => (x =? y) && eqb a' b'
  | _, _ => false
  end.

(** [s.startswith(p)] *)
Fixpoint startswith (p s : pystr) : bool :=
  match p, s with
  | [], _ => true
  | x :: p', y :: s' => (x =? y) && startswith p' s'
  | _ :: _, [] => false
  end.

(** [needle in s] *)
Fixpoint contains (needle s : pystr) : bool :=
  startswith needle s ||
  match s with
  | [] => false
  | _ :: r => contains needle r
  end.

(** [sep.join(parts)] *)
Fixpoint join (sep : pystr) (parts : list pystr) : pystr :=
  match parts with
  | [] => []
  | [p] => p
  | p :: rest => p ++ sep ++ join sep rest
  end.

Definition is_ascii (s : pystr) : bool := forallb (fun c => c <? 128) s.

Definition ascii_lower (c : N) : N :=
  if (65 <=? c) && (c <=? 90) then c + 32 else c.

End PyStr.

(** ** Python values *)

#[local] Unset Elimination Schemes.
Inductive value : Type :=
| VNone
| VBool (b : bool)
| VInt (z : Z)
| VFloat (literal : pystr)
| VStr (s : pystr)
| VList (items : list value)
| VDict (pairs : list (pystr * value)).
#[local] Set Elimination Schemes.

(** A [dict] keeps its keys in insertion order; a key occurs once. *)
Abbreviation record := (list (list N * value)) (only parsing).

Fixpoint dict_get (k : pystr) (d : record) : option value :=
  match d with
  | [] => None
  | (k', v) :: r => if PyStr.eqb k' k then Some v else dict_get k r
  end.

(** [d[k] = v] *)
Fixpoint dict_set (k : pystr) (v : value) (d : record) : record :=
  match d with
  | [] => [(k, v)]
  | (k', v') :: r => if PyStr.eqb k' k then (k', v) :: r else (k', v') :: dict_set k v r
  end.

(** [dict(pairs)] *)
Definition dict_of_pairs (pairs : list (pystr * value)) : record :=
  fold_left (fun d kv => dict_set (fst kv) (snd kv) d) pairs [].

(** ** Exceptions *)

(** The exception [VastAICommandError(command, exit_code, stderr)] *)
Record VastAICommandError : Type := CommandError {
  command : list pystr;
  exit_code : Z;
  stderr : pystr
}.

(** What [subprocess.run] raises when it cannot run the command or cannot
    decode what the command wrote, [FileNotFoundError] apart: the binary is
    not executable, the system refuses the call for another reason, the
    output is no text in the encoding of the locale. *)
Inductive subprocess_exception : Type :=
| PermissionError
| OSError
| UnicodeDecodeError.

(** The exceptions that the modelled code raises, catches or lets through.
    [VastAICommandError] and [RecursionError] are [RuntimeError]s;
    [JSONDecodeError] is a [ValueError], and a handler for it does not catch
    the plain [ValueError] of an integer literal with too many digits. *)
Inductive exception : Type :=
| CommandFailed (e : VastAICommandError)
| FromSubprocess (e : subprocess_exception)
| JSONDecodeError
| ValueError
| RecursionError
| KeyboardInterrupt
| TimeoutExpired
| PopenFileNotFound
| EOFError
| TypeError.

(** ** What the program uses of the Python runtime

    Operations on floats and on non-ASCII text, the [repr] of a string, the
    JSON encoder and the limits of the interpreter are outside this
    development: every definition and theorem below holds for whatever the
    interpreter computes there. *)
Class PyRuntime : Type := {
  (** [bool(float(literal))] *)
  float_bool : pystr -> bool;
  (** [str(float(literal))] *)
  float_str : pystr -> pystr;
  (** [repr(s)] for a string *)
  str_repr : pystr -> pystr;
  (** [s.lower()] for a string with non-ASCII characters *)
  unicode_lower : pystr -> pystr;
  (** [json.dumps(d, sort_keys=True)] *)
  json_dumps_sorted : list (pystr * value) -> pystr;
  (** How many objects and arrays, one inside the other, the decoder can
      enter before the interpreter raises [RecursionError]; taken to be the
      same at every call of the decoder. *)
  recursion_limit : nat;
  (** [sys.get_int_max_str_digits()]: the number of digits [int] accepts
      in a decimal literal, 0 for no limit *)
  int_max_str_digits : nat
}.

(** ** The [json] decoder *)

Module json.

Definition is_ws (c : N) : bool :=
  (c =? ch " ") || (c =? ch "009") || (c =? ch "010") || (c =? ch "013").

(** [WHITESPACE.match(s, end).end()] *)
Definition skip_ws (s : pystr) : pystr := PyStr.drop_while is_ws s.

Definition is_digit (c : N) : bool := (ch "0" <=? c) && (c <=? ch "9").

Definition hex_digit (c : N) : option N :=
  if is_digit c then Some (c - ch "0")
  else if (ch "a" <=? c) && (c <=? ch "f") then Some (c - ch "a" + 10)
  else if (ch "A" <=? c) && (c <=? ch "F") then Some (c - ch "A" + 10)
  else None.

Definition hex4 (a b c d : N) : option N :=
  match hex_digit a, hex_digit b, hex_digit c, hex_digit d with
  | Some x, Some y, Some z, Some w => Some (((x * 16 + y) * 16 + z) * 16 + w)
  | _, _, _, _ => None
  end.

Definition BACKSLASH (esc : N) : option N :=
  if esc =? dquote then Some (dquote)
  else if esc =? ch "\" then Some (ch "\")
  else if esc =? ch "/" then Some (ch "/")
  else if esc =? ch "b" then Some 8
  else if esc =? ch "f" then Some 12
  else if esc =? ch "n" then Some 10
  else if esc =? ch "r" then Some 13
  else if esc =? ch "t" then Some 9
  else None.

Definition prepend (c : N) (res : option (pystr * pystr)) : option (pystr * pystr) :=
  match res with
  | Some (content, rest) => Some (c :: content, rest)
  | None => None
  end.

Definition is_high_surrogate (u : N) : bool := (55296 <=? u) && (u <=? 56319).
Definition is_low_surrogate (u : N) : bool := (56320 <=? u) && (u <=? 57343).
Definition join_surrogates (u u2 : N) : N :=
  65536 + (N.lor (N.shiftl (u - 55296) 10) (u2 - 56320)).

(** [scanstring(s, end, strict=True)] with [s] the text after the opening
    quote: the decoded content and the text after the closing quote. A
    [\u] escape takes four hexadecimal digits; a high surrogate followed by
    another [\u] escape is joined with it when that one is a low surrogate. *)
Fixpoint scanstring (s : pystr) : option (pystr * pystr) :=
  match s with
  | [] => None
  | c :: r =>
    if c =? dquote then Some ([], r)
    else if c =? ch "\" then
      match r with
      | [] => None
      | esc :: r1 =>
        if esc =? ch "u" then
          match r1 with
          | h1 :: h2 :: h3 :: h4 :: r2 =>
            match hex4 h1 h2 h3 h4 with
            | None => None
            | Some uni =>
              match r2 with
              | b :: u :: r2' =>
                if is_high_surrogate uni && (b =? ch "\") && (u =? ch "u") then
                  match r2' with
                  | g1 :: g2 :: g3 :: g4 :: r3 =>
                    match hex4 g1 g2 g3 g4 with
                    | None => None
                    | Some uni2 =>
                      if is_low_surrogate uni2
                      then prepend (join_surrogates uni uni2) (scanstring r3)
                      else prepend uni (scanstring r2)
                    end
                  | _ => None
                  end
                else prepend uni (scanstring r2)
              | _ => prepend uni (scanstring r2)
              end
            end
          | _ => None
          end
        else
          match BACKSLASH esc with
          | Some c' => prepend c' (scanstring r1)
          | None => None
          end
      end
    else if c <? 32 then None
    else prepend c (scanstring r)
  end.

Fixpoint take_digits (s : pystr) : pystr * pystr :=
  match s with
  | c :: r => if is_digit c then let '(ds, rest) := take_digits r in (c :: ds, rest) else ([], s)
  | [] => ([], [])
  end.

(** [int(digits)] for a run of decimal digits *)
Definition int_of_digits (ds : pystr) : Z :=
  fold_left (fun acc c => (acc * 10 + Z.of_N (c - ch "0"))%Z) ds 0%Z.

(** The integer part of [NUMBER_RE]: an optional minus sign, then a single
    zero or a nonzero digit followed by digits. *)
Definition match_integer (s : pystr) : option (bool * pystr * pystr) :=
  let '(neg, s1) :=
    match s with
    | c :: r => if c =? ch "-" then (true, r) else (false, s)
    | [] => (false, s)
    end in
  match s1 with
  | c :: r =>
    if c =? ch "0" then Some (neg, [c], r)
    else if is_digit c then let '(ds, rest) := take_digits r in Some (neg, c :: ds, rest)
    else None
  | [] => None
  end.

(** The optional fraction: a dot followed by at least one digit. *)
Definition match_frac (s : pystr) : pystr * pystr :=
  match s with
  | d :: e :: r =>
    if (d =? ch ".") && is_digit e
    then let '(ds, rest) := take_digits r in (d :: e :: ds, rest)
    else ([], s)
  | _ => ([], s)
  end.

(** The optional exponent: e or E, an optional sign, at least one digit. *)
Definition match_exp (s : pystr) : pystr * pystr :=
  match s with
  | e :: r =>
    if (e =? ch "e") || (e =? ch "E") then
      let '(sign, r1) :=
        match r with
        | sg :: r' => if (sg =? ch "-") || (sg =? ch "+") then ([sg], r') else ([], r)
        | [] => ([], r)
        end in
      match take_digits r1 with
      | ([], _) => ([], s)
      | (ds, rest) => (e :: sign ++ ds, rest)
      end
    else ([], s)
  | [] => ([], s)
  end.

Section Decoder.
Context `{PyRuntime}.

(** [int(integer)] refuses a literal with more digits than the limit. *)
Definition too_many_digits (digits : pystr) : bool :=
  (0 <? int_max_str_digits)%nat && (int_max_str_digits <? length digits)%nat.

(** [NUMBER_RE.match] followed by [int(...)] or [float(...)]: no match, the
    [ValueError] of [int], or the number and the text after it. *)
Definition match_number (s : pystr) : option (exception + value * pystr) :=
  match match_integer s with
  | None => None
  | Some (neg, digits, s1) =>
    let '(frac, s2) := match_frac s1 in
    let '(exp, s3) := match_exp s2 in
    let integer := (if neg then [ch "-"] else []) ++ digits in
    match frac, exp with
    | [], [] =>
      if too_many_digits digits then Some (inl ValueError)
      else Some (inr (VInt (if neg then - int_of_digits digits
                            else int_of_digits digits)%Z, s3))
    | _, _ => Some (inr (VFloat (integer ++ frac ++ exp), s3))
    end
  end.

Definition strip_prefix (p s : pystr) : option pystr :=
  if PyStr.startswith p s then Some (drop (length p) s) else None.

(** A literal or a number: the cases of [scan_once] that do not recurse. *)
Definition scan_atom (s : pystr) : exception + value * pystr :=
  match strip_prefix (py "null") s with
  | Some r => inr (VNone, r)
  | None =>
  match strip_prefix (py "true") s with
  | Some r => inr (VBool true, r)
  | None =>
  match strip_prefix (py "false") s with
  | Some r => inr (VBool false, r)
  | None =>
  match match_number s with
  | Some res => res
  | None =>
  match strip_prefix (py "NaN") s with
  | Some r => inr (VFloat (py "NaN"), r)
  | None =>
  match strip_prefix (py "Infinity") s with
  | Some r => inr (VFloat (py "Infinity"), r)
  | None =>
  match strip_prefix (py "-Infinity") s with
  | Some r => inr (VFloat (py "-Infinity"), r)
  | None => inl JSONDecodeError
  end end end end end end end.

(** [scan_once(s, idx)], [JSONObject] and [JSONArray]; the two loops are
    entered after the first key's opening quote, respectively at the first
    item. [depth] is the number of objects and arrays the scanner can still
    enter: at an opening bracket with none left it raises [RecursionError].
    [fuel] bounds the number of calls. *)
Fixpoint scan_once (fuel depth : nat) (s : pystr) : exception + value * pystr :=
  match fuel with
  | O => inl JSONDecodeError
  | S fuel' =>
    match s with
    | [] => inl JSONDecodeError
    | c :: r =>
      if c =? dquote then
        match scanstring r with
        | Some (content, rest) => inr (VStr content, rest)
        | None => inl JSONDecodeError
        end
      else if c =? ch "{" then
        match depth with
        | O => inl RecursionError
        | S depth' =>
          match skip_ws r with
          | c1 :: r1 =>
            if c1 =? ch "}" then inr (VDict [], r1)
            else if c1 =? dquote then object_loop fuel' depth' r1 []
            else inl JSONDecodeError
          | [] => inl JSONDecodeError
          end
        end
      else if c =? ch "[" then
        match depth with
        | O => inl RecursionError
        | S depth' =>
          match skip_ws r with
          | c1 :: r1 =>
            if c1 =? ch "]" then inr (VList [], r1)
            else array_loop fuel' depth' (c1 :: r1) []
          | [] => inl JSONDecodeError
          end
        end
      else scan_atom s
    end
  end
with object_loop (fuel depth : nat) (s : pystr) (pairs : list (pystr * value))
  : exception + value * pystr :=
  match fuel with
  | O => inl JSONDecodeError
  | S fuel' =>
    match scanstring s with
    | None => inl JSONDecodeError
    | Some (key, s1) =>
      match skip_ws s1 with
      | colon :: s2 =>
        if colon =? ch ":" then
          match scan_once fuel' depth (skip_ws s2) with
          | inl e => inl e
          | inr (v, s3) =>
            let pairs' := pairs ++ [(key, v)] in
            match skip_ws s3 with
            | nextchar :: s4 =>
              if nextchar =? ch "}" then inr (VDict (dict_of_pairs pairs'), s4)
              else if nextchar =? ch "," then
                match skip_ws s4 with
                | q :: s5 =>
                  if q =? dquote then object_loop fuel' depth s5 pairs'
                  else inl JSONDecodeError
                | [] => inl JSONDecodeError
                end
              else inl JSONDecodeError
            | [] => inl JSONDecodeError
            end
          end
        else inl JSONDecodeError
      | [] => inl JSONDecodeError
      end
    end
  end
with array_loop (fuel depth : nat) (s : pystr) (values : list value)
  : exception + value * pystr :=
  match fuel with
  | O => inl JSONDecodeError
  | S fuel' =>
    match scan_once fuel' depth s with
    | inl e => inl e
    | inr (v, s1) =>
      let values' := values ++ [v] in
      match skip_ws s1 with
      | nextchar :: s2 =>
        if nextchar =? ch "]" then inr (VList values', s2)
        else if nextchar =? ch "," then array_loop fuel' depth (skip_ws s2) values'
        else inl JSONDecodeError
      | [] => inl JSONDecodeError
      end
    end
  end.

(** [JSONDecoder().raw_decode(s)]: the exception raised, or the value and
    the text after it. *)
Definition raw_decode (s : pystr) : exception + value * pystr :=
  scan_once (2 * length s + 1) recursion_limit s.

(** [json.loads(s)] for a [str] argument *)
Definition loads (s : pystr) : exception + value :=
  match s with
  | 65279 :: _ => inl JSONDecodeError
  | _ =>
    match raw_decode (skip_ws s) with
    | inr (obj, rest) =>
      match skip_ws rest with
      | [] => inr obj
      | _ => inl JSONDecodeError
      end
    | inl e => inl e
    end
  end.

End Decoder.

End json.

(** ** [VastAIClient]: the process runner *)

(** What [subprocess.run(command, check=False, stdout=PIPE, stderr=PIPE,
    text=True)] does: it raises [FileNotFoundError], the one exception the
    source has a handler for, or another exception, or returns a completed
    process. *)
Inductive subprocess_result : Type :=
| FileNotFoundError
| Raises (e : subprocess_exception)
| CompletedProcess (returncode : Z) (stdout stderr : pystr).

Module VastAIClient.

Record t : Type := Client {
  binary : pystr;
  api_key : option pystr
}.

Definition _compose_command (self : t) (args : list pystr) (raw : bool) : list pystr :=
  [binary self] ++ args
  ++ (if raw then [py "--raw"] else [])
  ++ match api_key self with
     | Some (c :: key) => [py "--api-key"; c :: key]
     | _ => []
     end.

Fixpoint _find_json_start_from (idx : nat) (output : pystr) : nat :=
  match output with
  | [] => O
  | char :: rest =>
    if PyStr.char_in char (py "{[") then idx
    else if negb (PyStr.isspace char) then O
    else _find_json_start_from (S idx) rest
  end.

Definition _find_json_start (output : pystr) : nat := _find_json_start_from O output.

(** The loop of [_extract_json_payload] from index [idx] on, [chars] being
    [output[idx:]]: the index of the bracket that empties the stack. The
    stack of expected closers has its top at the head. *)
Fixpoint scan_balanced (chars : pystr) (idx : nat) (stack : list N) : option nat :=
  match chars with
  | [] => None
  | char :: rest =>
    if PyStr.char_in char (py "{[") then
      scan_balanced rest (S idx) ((if char =? ch "{" then ch "}" else ch "]") :: stack)
    else if PyStr.char_in char (py "}]") then
      match stack with
      | [] => None
      | top :: stack' =>
        if negb (top =? char) then None
        else match stack' with
             | [] => Some idx
             | _ => scan_balanced rest (S idx) stack'
             end
      end
    else scan_balanced rest (S idx) stack
  end.

Definition _extract_json_payload (output : pystr) : option pystr :=
  let start_indices := omap (fun c => PyStr.find c output) [ch "["; ch "{"] in
  match start_indices with
  | [] => None
  | i :: others =>
    let start := fold_right Nat.min i others in
    match scan_balanced (drop start output) start [] with
    | Some idx => Some (take (idx + 1 - start) (drop start output))
    | None => None
    end
  end.

Section Run.
Context `{PyRuntime}.

(** The [capture_json] branch of [run], applied to the captured stdout: the
    two handlers catch [JSONDecodeError] and nothing else. *)
Definition decode_output (stdout : pystr) : exception + value :=
  let data := PyStr.strip stdout in
  match data with
  | [] => inr (VDict [])
  | _ =>
    let start := _find_json_start data in
    let data := if (0 <? start)%nat then drop start data else data in
    match json.raw_decode data with
    | inr (obj, _) => inr obj
    | inl JSONDecodeError =>
      match _extract_json_payload data with
      | Some cleaned =>
        match json.raw_decode cleaned with
        | inr (obj, _) => inr obj
        | inl JSONDecodeError => inr (VStr data)
        | inl e => inl e
        end
      | None => inr (VStr data)
      end
    | inl e => inl e
    end
  end.

(** [run] with arguments [args], [raw] and [capture_json], given what
    [subprocess.run] does with the composed command: the exception raised,
    or the value returned. *)
Definition run_with (self : t) (args : list pystr) (raw capture_json : bool)
    (result : subprocess_result) : exception + value :=
  let command := _compose_command self args (raw || capture_json) in
  match result with
  | FileNotFoundError =>
    inl (CommandFailed (CommandError command 127 (py "vastai CLI not found in PATH")))
  | Raises e => inl (FromSubprocess e)
  | CompletedProcess returncode stdout stderr =>
    if negb (returncode =? 0)%Z then
      inl (CommandFailed (CommandError command returncode (PyStr.strip stderr)))
    else if capture_json then decode_output stdout
    else inr (VStr stdout)
  end.

End Run.

End VastAIClient.

(** ** [VastAIClient.stream]: the log stream generator *)

(** The child process as the supervisor can observe it. [reads] is what
    iterating [process.stdout] gives, in order, end of file after the last
    one; [exited n] is the status with which the child has exited on its own
    by the time [n] reads are done, if it has; [on_terminate] and [on_kill]
    are the status with which it exits within the bounded wait that follows
    the signal, if it does. *)
Inductive read_event : Type :=
| Line (text : pystr)
| Interrupt.

Record child : Type := Child {
  reads : list read_event;
  exited : nat -> option Z;
  on_terminate : option Z;
  on_kill : option Z;
  stderr_data : pystr
}.

(** The [subprocess.Popen] handle *)
Record Popen : Type := Handle {
  returncode : option Z;
  terminate_sent : bool;
  kill_sent : bool
}.

Module signal.
Definition SIGTERM : Z := 15.
End signal.

Module Stream.

Section Process.
Variable c : child.
Variable n : nat.

Definition os_status (p : Popen) : option Z :=
  match exited c n with
  | Some rc => Some rc
  | None =>
    if kill_sent p then on_kill c
    else if terminate_sent p then on_terminate c
    else None
  end.

(** [process.poll()] *)
Definition poll (p : Popen) : option Z * Popen :=
  match returncode p with
  | Some rc => (Some rc, p)
  | None =>
    match os_status p with
    | Some rc => (Some rc, Handle (Some rc) (terminate_sent p) (kill_sent p))
    | None => (None, p)
    end
  end.

(** [process.terminate()]: no signal goes to a child known to be dead. *)
Definition terminate (p : Popen) : Popen :=
  match poll p with
  | (Some _, p') => p'
  | (None, p') => Handle (returncode p') true (kill_sent p')
  end.

(** [process.kill()] *)
Definition kill (p : Popen) : Popen :=
  match poll p with
  | (Some _, p') => p'
  | (None, p') => Handle (returncode p') (terminate_sent p') true
  end.

(** [process.wait(timeout=5)]: [false] stands for [TimeoutExpired]. *)
Definition wait (p : Popen) : bool * Popen :=
  match poll p with
  | (Some _, p') => (true, p')
  | (None, p') => (false, p')
  end.

(** terminate, wait, and on a timeout kill and wait again *)
Definition terminate_then_kill (p : Popen) : option exception * Popen :=
  let p := terminate p in
  match wait p with
  | (true, p) => (None, p)
  | (false, p) =>
    let p := kill p in
    match wait p with
    | (true, p) => (None, p)
    | (false, p) => (Some TimeoutExpired, p)
    end
  end.

(** The [finally] clause; [pending] is the exception in flight, if any. *)
Definition finally_clause (command : list pystr) (terminated : bool)
    (pending : option exception) (p : Popen) : option exception * Popen :=
  let '(raised, terminated, p) :=
    match poll p with
    | (None, p) =>
      let '(raised, p) := terminate_then_kill p in (raised, true, p)
    | (Some _, p) => (None, terminated, p)
    end in
  match raised with
  | Some e => (Some e, p)
  | None =>
    let exit_code := match returncode p with Some rc => rc | None => 0%Z end in
    let exit_code :=
      if terminated && ((exit_code =? - signal.SIGTERM)%Z || (exit_code =? 0)%Z)
      then 0%Z else exit_code in
    if negb ((exit_code =? 0)%Z || (exit_code =? -15)%Z
             || (exit_code =? signal.SIGTERM)%Z)
    then (Some (CommandFailed
                  (CommandError command exit_code (PyStr.strip (stderr_data c)))), p)
    else (pending, p)
  end.

(** The [except KeyboardInterrupt] clause followed by [finally] *)
Definition interrupted (command : list pystr) (p : Popen) : option exception * Popen :=
  match terminate_then_kill p with
  | (Some e, p) => finally_clause command true (Some e) p
  | (None, p) => finally_clause command true (Some KeyboardInterrupt) p
  end.

End Process.

(** The generator object: not started, suspended at the [yield] after [n]
    reads of the child's output, or finished. A finished generator that had
    started a child is kept with that child, the number of reads done and
    the handle as it left them. *)
Inductive generator : Type :=
| Created
| Suspended (c : child) (n : nat) (p : Popen)
| Finished (final : option (child * nat * Popen)).

Inductive outcome : Type :=
| Yield (line : pystr)
| StopIteration
| Raise (e : exception).

Section Generator.
Variable self : VastAIClient.t.
Variable args : list pystr.
Variable raw : bool.
(** What [subprocess.Popen(command, ...)] starts; [None] when the binary is
    missing. *)
Variable spawn : list pystr -> option child.

Definition command : list pystr := VastAIClient._compose_command self args raw.

Definition finish (c : child) (n : nat) (r : option exception * Popen)
  : outcome * generator :=
  match r with
  | (Some e, p) => (Raise e, Finished (Some (c, n, p)))
  | (None, p) => (StopIteration, Finished (Some (c, n, p)))
  end.

(** The [for line in process.stdout] loop, entered with [n] reads done. *)
Definition resume (c : child) (n : nat) (p : Popen) : outcome * generator :=
  match nth_error (reads c) n with
  | Some (Line line) => (Yield (PyStr.rstrip_char 10 line), Suspended c (S n) p)
  | Some Interrupt => finish c (S n) (interrupted c (S n) command p)
  | None => finish c n (finally_clause c n command false None p)
  end.

(** [next(gen)] *)
Definition next (g : generator) : outcome * generator :=
  match g with
  | Created =>
    match spawn command with
    | None => (Raise PopenFileNotFound, Finished None)
    | Some c => resume c O (Handle None false false)
    end
  | Suspended c n p => resume c n p
  | Finished final => (StopIteration, Finished final)
  end.

(** [gen.close()]: [GeneratorExit] is raised at the [yield], so only the
    [finally] clause runs. The exception it lets through, if any. *)
Definition close (g : generator) : option exception * generator :=
  match g with
  | Created => (None, Finished None)
  | Suspended c n p =>
    let '(raised, p) := finally_clause c n command false None p in
    (raised, Finished (Some (c, n, p)))
  | Finished final => (None, Finished final)
  end.

(** What the consumer does with the generator, and the number of
    [subprocess.Popen] calls the generator has made. *)
Inductive action : Type := Next | Close.

Definition popen_calls_of (a : action) (g : generator) : nat :=
  match a, g with
  | Next, Created => 1
  | _, _ => 0
  end.

Definition act (a : action) (g : generator) : generator :=
  match a with
  | Next => snd (next g)
  | Close => snd (close g)
  end.

Fixpoint drive (actions : list action) (g : generator) (popen_calls : nat)
  : generator * nat :=
  match actions with
  | [] => (g, popen_calls)
  | a :: rest => drive rest (act a g) (popen_calls + popen_calls_of a g)
  end.

(** The child is running as far as the handle shows. *)
Definition running (g : generator) : bool :=
  match g with
  | Created => false
  | Suspended _ _ p => match returncode p with None => true | Some _ => false end
  | Finished None => false
  | Finished (Some (_, _, p)) => match returncode p with None => true | Some _ => false end
  end.

Definition finished (g : generator) : bool :=
  match g with
  | Finished _ => true
  | _ => false
  end.

End Generator.

(** The two consumers of the stream in [VastAIDeepFaceLabCLI]:
    [_poll_provisioning_logs] leaves its loop at the first line with the
    completion marker, [_monitor_instance_logs] keeps reading. What they
    print of the stream, what they detect, the generator as they leave it
    and the exception they let through. *)
Definition MARKER : pystr := py "=== Provisioning Complete ===".

Record monitored : Type := Monitored {
  printed : list pystr;
  provisioning_detected : bool;
  stream_iter : generator;
  propagated : option exception
}.

Section Monitors.
Variable self : VastAIClient.t.
Variable spawn : list pystr -> option child.
Variable instance_id : pystr.

Definition log_args : list pystr := [py "logs"; instance_id; py "--follow"].

(** The [for line in stream_iter] loop; [fuel] bounds the iterations. *)
Fixpoint iterate (break_at_marker : bool) (fuel : nat) (g : generator)
    (printed : list pystr) (detected : bool)
  : list pystr * bool * generator * option exception :=
  match fuel with
  | O => (printed, detected, g, None)
  | S fuel' =>
    match next self log_args false spawn g with
    | (Yield line, g') =>
      if PyStr.contains MARKER line then
        if break_at_marker then (printed ++ [line], true, g', None)
        else iterate break_at_marker fuel' g' (printed ++ [line]) true
      else iterate break_at_marker fuel' g' (printed ++ [line]) detected
    | (StopIteration, g') => (printed, detected, g', None)
    | (Raise e, g') => (printed, detected, g', Some e)
    end
  end.

(** The iterations that exhaust the stream *)
Definition enough : nat :=
  match spawn (command self log_args false) with
  | Some c => S (length (reads c))
  | None => 1%nat
  end.

(** The two [except] clauses: what is still in flight after them *)
Definition uncaught (raised : option exception) : option exception :=
  match raised with
  | Some (CommandFailed _) | Some KeyboardInterrupt => None
  | other => other
  end.

Definition _poll_provisioning_logs : monitored :=
  let '(printed, detected, g, raised) := iterate true enough Created [] false in
  match close self log_args false g with
  | (Some e, g') => Monitored printed detected g' (Some e)
  | (None, g') => Monitored printed detected g' (uncaught raised)
  end.

End Monitors.

End Stream.

(** ** Built-in operations on values *)

Section Builtins.
Context `{PyRuntime}.

Fixpoint repr (v : value) : pystr :=
  match v with
  | VNone => py "None"
  | VBool true => py "True"
  | VBool false => py "False"
  | VInt z => py (pretty z)
  | VFloat literal => float_str literal
  | VStr s => str_repr s
  | VList items => py "[" ++ PyStr.join (py ", ") (map repr items) ++ py "]"
  | VDict pairs =>
    py "{"
    ++ PyStr.join (py ", ")
         (map (fun kv => match kv with (k, v) => str_repr k ++ py ": " ++ repr v end) pairs)
    ++ py "}"
  end.

(** [str(v)] *)
Definition str (v : value) : pystr :=
  match v with
  | VStr s => s
  | _ => repr v
  end.

(** [bool(v)] *)
Definition truthy (v : value) : bool :=
  match v with
  | VNone => false
  | VBool b => b
  | VInt z => negb (z =? 0)%Z
  | VFloat literal => float_bool literal
  | VStr s => match s with [] => false | _ => true end
  | VList items => match items with [] => false | _ => true end
  | VDict pairs => match pairs with [] => false | _ => true end
  end.

(** [s.lower()] *)
Definition lower (s : pystr) : pystr :=
  if PyStr.is_ascii s then map PyStr.ascii_lower s else unicode_lower s.

(** [d.get(key)]: a missing key gives [None]. *)
Definition get (d : record) (key : pystr) : value :=
  match dict_get key d with
  | Some v => v
  | None => VNone
  end.

(** [a or b] *)
Definition or_else (a b : value) : value := if truthy a then a else b.

End Builtins.

(** [dict.fromkeys(keys)]: the keys in order of first occurrence *)
Fixpoint fromkeys (keys : list pystr) : list pystr :=
  match keys with
  | [] => []
  | k :: rest => k :: filter (fun k' => k' ≠ k) (fromkeys rest)
  end.

Fixpoint depth (v : value) : nat :=
  match v with
  | VList items => S (fold_right (fun x m => Nat.max (depth x) m) O items)
  | VDict pairs => S (fold_right (fun kv m => Nat.max (depth (snd kv)) m) O pairs)
  | _ => O
  end.

(** ** [VastAIDeepFaceLabCLI]: the ownership resolver and its cache *)

Module VastAIDeepFaceLabCLI.

Record t : Type := State {
  client : VastAIClient.t;
  (** the commands the process runner has executed so far *)
  calls : list (list pystr);
  last_templates : list record;
  _my_templates_cache : list record;
  _other_templates_cache : list record;
  _template_cache_valid : bool;
  _my_template_ids : gset pystr;
  _my_template_names : gset pystr;
  _attempted_my_template_query : bool;
  _user_id : option pystr;
  owner_id_override : option pystr
}.

(** [VastAIDeepFaceLabCLI(client, owner_id_override)] *)
Definition __init__ (client : VastAIClient.t) (owner_id_override : option pystr) : t :=
  State client [] [] [] [] false ∅ ∅ false None
    match owner_id_override with
    | Some (c :: s) => Some (PyStr.strip (c :: s))
    | _ => None
    end.

Definition set_calls (v : list (list pystr)) (s : t) : t :=
  State (client s) v (last_templates s) (_my_templates_cache s) (_other_templates_cache s)
    (_template_cache_valid s) (_my_template_ids s) (_my_template_names s)
    (_attempted_my_template_query s) (_user_id s) (owner_id_override s).

Definition set_my_template_ids (v : gset pystr) (s : t) : t :=
  State (client s) (calls s) (last_templates s) (_my_templates_cache s) (_other_templates_cache s)
    (_template_cache_valid s) v (_my_template_names s)
    (_attempted_my_template_query s) (_user_id s) (owner_id_override s).

Definition set_my_template_names (v : gset pystr) (s : t) : t :=
  State (client s) (calls s) (last_templates s) (_my_templates_cache s) (_other_templates_cache s)
    (_template_cache_valid s) (_my_template_ids s) v
    (_attempted_my_template_query s) (_user_id s) (owner_id_override s).

Definition set_attempted_my_template_query (v : bool) (s : t) : t :=
  State (client s) (calls s) (last_templates s) (_my_templates_cache s) (_other_templates_cache s)
    (_template_cache_valid s) (_my_template_ids s) (_my_template_names s)
    v (_user_id s) (owner_id_override s).

Definition set_user_id (v : option pystr) (s : t) : t :=
  State (client s) (calls s) (last_templates s) (_my_templates_cache s) (_other_templates_cache s)
    (_template_cache_valid s) (_my_template_ids s) (_my_template_names s)
    (_attempted_my_template_query s) v (owner_id_override s).

(** A method: from the state of [self] to what it raises or returns, and
    the state it leaves. *)
Definition M (A : Type) : Type := t -> (exception + A) * t.

Definition ret {A} (a : A) : M A := fun s => (inr a, s).
Definition raise {A} (e : exception) : M A := fun s => (inl e, s).
Definition bind {A B} (m : M A) (k : A -> M B) : M B :=
  fun s => match m s with
           | (inr a, s') => k a s'
           | (inl e, s') => (inl e, s')
           end.
(** [try: m except VastAICommandError: handler]; any other exception
    passes. *)
Definition try_except {A} (m : M A) (handler : M A) : M A :=
  fun s => match m s with
           | (inl (CommandFailed _), s') => handler s'
           | (r, s') => (r, s')
           end.
(** [try: m except VastAICommandError: handler except RuntimeError: other];
    of the exceptions here [RecursionError] is the other [RuntimeError]. *)
Definition try_except_runtime {A} (m : M A) (handler other : M A) : M A :=
  fun s => match m s with
           | (inl (CommandFailed _), s') => handler s'
           | (inl RecursionError, s') => other s'
           | (r, s') => (r, s')
           end.
Definition gets {A} (f : t -> A) : M A := fun s => (inr (f s), s).
Definition modify (f : t -> t) : M unit := fun s => (inr tt, f s).

Notation "'do' x <- m ; k" := (bind m (fun x => k))
  (at level 10, x pattern, m at level 100, k at level 200).

(** [for x in xs: acc = body(x, acc)] *)
Fixpoint for_each {A B} (xs : list A) (acc : B) (body : A -> B -> M B) : M B :=
  match xs with
  | [] => ret acc
  | x :: rest => do acc' <- body x acc; for_each rest acc' body
  end.

Section Methods.
Context `{PyRuntime}.
(** The machine the program runs on: what executing a command does, given
    the commands executed before it. *)
Variable system : list (list pystr) -> list pystr -> subprocess_result.

(** [self.client.run(args, raw=raw, capture_json=capture_json)] *)
Definition client_run (args : list pystr) (raw capture_json : bool) : M value :=
  fun s =>
    let command := VastAIClient._compose_command (client s) args (raw || capture_json) in
    (VastAIClient.run_with (client s) args raw capture_json (system (calls s) command),
     set_calls (calls s ++ [command]) s).

Definition dicts_of (items : list value) : list record :=
  omap (fun tpl => match tpl with VDict d => Some d | _ => None end) items.

Definition _coerce_template_list (result : value) : list record :=
  match result with
  | VDict d =>
    match dict_get (py "templates") d with
    | Some (VList items) => dicts_of items
    | _ => [d]
    end
  | VList items => dicts_of items
  | _ => []
  end.

Definition _fetch_all_templates : M (list record) :=
  do result <- client_run [py "search"; py "templates"; py "--raw"] false true;
  ret (_coerce_template_list result).

Fixpoint first_not_none (keys : list pystr) (template : record) : option value :=
  match keys with
  | [] => None
  | key :: rest =>
    match get template key with
    | VNone => first_not_none rest template
    | v => Some v
    end
  end.

Definition _template_identifier (template : record) : option pystr :=
  match first_not_none [py "id"; py "template_id"; py "hash"; py "uuid"] template with
  | Some v => Some (str v)
  | None =>
    let name := get template (py "name") in
    let image := or_else (get template (py "image")) (get template (py "docker_image")) in
    if truthy name || truthy image
    then Some (str name ++ py "|" ++ str image)
    else None
  end.

Definition hash_keys : list pystr :=
  [py "template_hash"; py "hash"; py "hash_id"; py "templateHash"; py "hashId"].

Fixpoint first_hash (keys : list pystr) (template : record) : option pystr :=
  match keys with
  | [] => None
  | key :: rest =>
    let v := get template key in
    if truthy v then
      match PyStr.strip (str v) with
      | [] => first_hash rest template
      | value_str => Some value_str
      end
    else first_hash rest template
  end.

(** [_extract_template_hash(template)]: the hash and the template as the
    call leaves it (the method stores the hash it finds in the template and
    in the nested dictionaries it went through). [fuel] bounds the nesting. *)
Fixpoint _extract_template_hash_rec (fuel : nat) (template : record)
  : option pystr * record :=
  match first_hash hash_keys template with
  | Some value_str => (Some value_str, dict_set (py "template_hash") (VStr value_str) template)
  | None =>
    match fuel with
    | O => (None, template)
    | S fuel' =>
      let key := if truthy (get template (py "template")) then py "template" else py "data" in
      match get template key with
      | VDict nested =>
        match _extract_template_hash_rec fuel' nested with
        | (Some nested_hash, nested') =>
          match nested_hash with
          | [] => (None, dict_set key (VDict nested') template)
          | _ =>
            (Some nested_hash,
             dict_set (py "template_hash") (VStr nested_hash)
               (dict_set key (VDict nested') template))
          end
        | (None, _) => (None, template)
        end
      | _ => (None, template)
      end
    end
  end.

Definition _extract_template_hash (template : record) : option pystr * record :=
  _extract_template_hash_rec (depth (VDict template)) template.

Definition add_if_truthy (x : pystr) (X : gset pystr) : gset pystr :=
  match x with
  | [] => X
  | _ => {[ x ]} ∪ X
  end.

(** [_remember_template(template)]: the template as the call leaves it. *)
Definition _remember_template (template : record) : M record :=
  do _ <- modify (fun s =>
            match _template_identifier template with
            | Some identifier => set_my_template_ids (add_if_truthy identifier (_my_template_ids s)) s
            | None => s
            end);
  do _ <- modify (fun s =>
            let name := get template (py "name") in
            if truthy name
            then set_my_template_names ({[ str name ]} ∪ _my_template_names s) s
            else s);
  match _extract_template_hash template with
  | (Some (c :: hash_value), template') =>
    ret (dict_set (py "template_hash") (VStr (c :: hash_value)) template')
  | (_, template') => ret template'
  end.

Fixpoint first_key_in (keys : list pystr) (result : record) : option value :=
  match keys with
  | [] => None
  | key :: rest =>
    match dict_get key result with
    | Some v => Some v
    | None => first_key_in rest result
    end
  end.

Definition _ensure_user_id : M (option pystr) :=
  do cached <- gets _user_id;
  match cached with
  | Some user_id => ret (Some user_id)
  | None =>
    do result <- try_except
                   (do result <- client_run [py "show"; py "user"; py "--raw"] false true;
                    ret (Some result))
                   (ret None);
    match result with
    | None =>
      do _ <- modify (set_user_id None);
      ret None
    | Some result =>
      match match result with
            | VDict d => first_key_in [py "id"; py "user_id"; py "userid"] d
            | _ => None
            end with
      | Some v =>
        do _ <- modify (set_user_id (Some (str v)));
        ret (Some (str v))
      | None =>
        do _ <- modify (set_user_id None);
        ret None
      end
    end
  end.

Definition flag_words : list pystr := [py "true"; py "1"; py "yes"; py "y"].

Definition flag_set (template : record) (key : pystr) : bool :=
  match get template key with
  | VStr s => bool_decide (lower (PyStr.strip s) ∈ flag_words)
  | v => truthy v
  end.

Definition _is_my_template (template : record) : M bool :=
  if existsb (flag_set template)
       [py "is_owner"; py "mine"; py "owned"; py "is_mine"; py "my_template"]
  then ret true
  else
    do ids <- gets _my_template_ids;
    if match _template_identifier template with
       | Some (c :: identifier) => bool_decide (c :: identifier ∈ ids)
       | _ => false
       end
    then ret true
    else
      do names <- gets _my_template_names;
      let name := get template (py "name") in
      if truthy name && bool_decide (str name ∈ names)
      then ret true
      else
        do user_id <- _ensure_user_id;
        if match user_id with
           | Some user_id =>
             existsb (fun key => bool_decide (str (get template key) = user_id))
               [py "user_id"; py "owner_id"; py "creator_id"; py "created_by"; py "userid"]
           | None => false
           end
        then ret true
        else
          do override <- gets owner_id_override;
          match override with
          | Some (c :: o) =>
            ret (existsb (fun key => bool_decide (str (get template key) = c :: o))
                   [py "creator_id"; py "owner_id"; py "created_by"; py "user_id"])
          | _ => ret false
          end.

Definition _attempt_template_query (query : pystr) : M (list record) :=
  do result <- try_except_runtime
                 (do result <- client_run [py "search"; py "templates"; query; py "--raw"]
                                 false true;
                  ret (Some result))
                 (ret None) (ret None);
  match result with
  | None => ret []
  | Some result =>
    for_each (_coerce_template_list result) []
      (fun template done => do template' <- _remember_template template;
                            ret (done ++ [template']))
  end.

Definition _collect_owner_templates (owner_id : pystr) : M (list record) :=
  match PyStr.strip owner_id with
  | [] => ret []
  | owner_id =>
    let queries :=
      [py "owner_id=" ++ owner_id; py "creator_id=" ++ owner_id;
       py "created_by=" ++ owner_id; py "user_id=" ++ owner_id;
       py "author_id=" ++ owner_id] in
    do r <- for_each queries ([], ∅)
              (fun query '(collected, seen) =>
                 do results <- _attempt_template_query query;
                 for_each results (collected, seen)
                   (fun template '(collected, seen) =>
                      let identifier :=
                        match _template_identifier template with
                        | Some (c :: identifier) => c :: identifier
                        | _ => json_dumps_sorted template
                        end in
                      if bool_decide (identifier ∈ (seen : gset pystr))
                      then ret (collected, seen)
                      else ret (collected ++ [template], {[ identifier ]} ∪ seen)));
    ret (fst r)
  end.

(** The seeding pass of [_ensure_template_cache] *)
Definition seed_my_templates : M (list record) :=
  do attempted <- gets _attempted_my_template_query;
  if attempted then ret []
  else
    do _ <- modify (set_attempted_my_template_query true);
    do mine <- _attempt_template_query (py "my=true");
    do override <- gets owner_id_override;
    let owner_ids_to_try :=
      match override with
      | Some (c :: o) => [c :: o]
      | _ => []
      end in
    do user_id <- _ensure_user_id;
    let owner_ids_to_try :=
      match user_id with
      | Some (c :: u) => owner_ids_to_try ++ [c :: u]
      | _ => owner_ids_to_try
      end in
    do initial <- for_each (fromkeys owner_ids_to_try) mine
                    (fun owner_id initial =>
                       do owned <- _collect_owner_templates owner_id;
                       ret (initial ++ owned));
    match initial with
    | [] =>
      do owned_result <- try_except
                           (do owned_result <- client_run [py "show"; py "templates"; py "--raw"]
                                                 false true;
                            ret (Some owned_result))
                           (ret None);
      match owned_result with
      | Some owned_result => ret (_coerce_template_list owned_result)
      | None => ret []
      end
    | _ => ret initial
    end.

(** The loop of [_ensure_template_cache] over the seeded templates *)
Definition place_seeded (initial_my_templates : list record)
  : M (list record * gset pystr) :=
  for_each initial_my_templates ([], ∅)
    (fun template '(my_templates, seen) =>
       let seen :=
         match _template_identifier template with
         | Some identifier => add_if_truthy identifier seen
         | None => seen
         end in
       do template' <- _remember_template template;
       ret (my_templates ++ [template'], seen)).

(** The loop of [_ensure_template_cache] over the full listing *)
Definition place_listed (all_templates : list record)
    (my_templates : list record) (seen : gset pystr)
  : M (list record * list record * gset pystr) :=
  for_each all_templates (my_templates, [], seen)
    (fun template '(my_templates, other_templates, seen) =>
       let classify seen :=
         do mine <- _is_my_template template;
         if (mine : bool) then
           do template' <- _remember_template template;
           ret (my_templates ++ [template'], other_templates, seen)
         else ret (my_templates, other_templates ++ [template], seen) in
       match _template_identifier template with
       | Some (c :: identifier) =>
         if bool_decide (c :: identifier ∈ seen)
         then ret (my_templates, other_templates, seen)
         else classify ({[ c :: identifier ]} ∪ seen)
       | _ => classify seen
       end).

Definition set_caches (my_templates other_templates : list record) (s : t) : t :=
  State (client s) (calls s) (my_templates ++ other_templates) my_templates other_templates
    true (_my_template_ids s) (_my_template_names s)
    (_attempted_my_template_query s) (_user_id s) (owner_id_override s).

Definition _ensure_template_cache : M (list record * list record) :=
  do valid <- gets _template_cache_valid;
  if valid then
    do my_templates <- gets _my_templates_cache;
    do other_templates <- gets _other_templates_cache;
    ret (my_templates, other_templates)
  else
    do initial_my_templates <- seed_my_templates;
    do all_templates <- _fetch_all_templates;
    do seeded <- place_seeded initial_my_templates;
    do placed <- place_listed all_templates (fst seeded) (snd seeded);
    let '(my_templates, other_templates, _) := placed in
    do _ <- modify (set_caches my_templates other_templates);
    ret (my_templates, other_templates).

Definition _invalidate_template_cache : M unit :=
  modify (fun s =>
    State (client s) (calls s) [] [] [] false ∅ ∅ false (_user_id s) (owner_id_override s)).

Definition _maybe_parse_json_payload (payload : value) : exception + value :=
  match payload with
  | VStr text =>
    match PyStr.strip text with
    | [] => inr payload
    | trimmed =>
      match json.loads trimmed with
      | inr v => inr v
      | inl JSONDecodeError =>
        match VastAIClient._extract_json_payload trimmed with
        | Some (c :: cleaned) =>
          match json.loads (c :: cleaned) with
          | inr v => inr v
          | inl JSONDecodeError => inr payload
          | inl e => inl e
          end
        | _ => inr payload
        end
      | inl e => inl e
      end
    end
  | _ => inr payload
  end.

(** What the user answers to the prompts of [_create_template];
    [extra_args] is [shlex.split(extra_flags)], empty for no extra flags. *)
Record template_answers : Type := Answers {
  name : pystr;
  image : pystr;
  env : pystr;
  disk_space : Z;
  extra_args : list pystr;
  confirm : bool
}.

Definition first_dict (entries : list value) : option record :=
  head (dicts_of entries).

Definition _create_template (a : template_answers) : M unit :=
  if negb (confirm a) then ret tt
  else
    let args :=
      [py "create"; py "template"; py "--name"; name a; py "--image"; image a;
       py "--env"; env a; py "--disk_space"; py (pretty (disk_space a))]
      ++ extra_args a in
    do result <- try_except
                   (do result <- client_run args false true; ret (Some result))
                   (ret None);
    match result with
    | None => ret tt
    | Some result =>
      do parsed_result <- (fun s => (_maybe_parse_json_payload result, s));
      let template_record :=
        match parsed_result with
        | VDict d => Some d
        | VList entries => first_dict entries
        | _ => None
        end in
      do _ <- match template_record with
              | Some (kv :: d) => _remember_template (kv :: d)
              | _ => _remember_template [(py "name", VStr (name a))]
              end;
      _invalidate_template_cache
    end.

End Methods.

End VastAIDeepFaceLabCLI.

(** A runtime for closed examples. Their data is ASCII text and integers,
    on which the fields below are either exact or never consulted. *)
#[export] Instance ascii_runtime : PyRuntime := {|
  float_bool := fun literal => true;
  float_str := fun literal => literal;
  str_repr := fun s => py "'" ++ s ++ py "'";
  unicode_lower := fun s => s;
  json_dumps_sorted := fun d => py "{}";
  recursion_limit := 1000;
  int_max_str_digits := 4300
|}.

Definition nl : pystr := [10].

(** ** [VastAIDeepFaceLabCLI]: the listings of instances and volumes *)

Module Listings.
Import VastAIDeepFaceLabCLI.

(** [list(v)]: the items of a list, the keys of a dict, the characters of
    a string; [None] stands for [TypeError]. *)
Definition py_list (v : value) : option (list value) :=
  match v with
  | VList items => Some items
  | VDict pairs => Some (map (fun kv => VStr (fst kv)) pairs)
  | VStr s => Some (map (fun c => VStr [c]) s)
  | VNone | VBool _ | VInt _ | VFloat _ => None
  end.

Section Methods.
Context `{PyRuntime}.
Variable system : list (list pystr) -> list pystr -> subprocess_result.

(** [list(result.get(key, []))] for a dict, [list(result or [])] for any
    other result *)
Definition entries_of (key : pystr) (result : value) : option (list value) :=
  match result with
  | VDict d =>
    py_list match dict_get key d with
            | Some v => v
            | None => VList []
            end
  | _ => py_list (if truthy result then result else VList [])
  end.

(** The body of the two methods; [list] raises [TypeError] for a value that
    is not iterable. *)
Definition fetch_entries (args : list pystr) (key : pystr) : M (list value) :=
  do result <- client_run system args false true;
  match entries_of key result with
  | Some entries => ret entries
  | None => raise TypeError
  end.

Definition _fetch_instances : M (list value) :=
  fetch_entries [py "show"; py "instances"; py "--raw"] (py "instances").

Definition _search_volumes (machine_id : pystr) : M (list value) :=
  fetch_entries [py "search"; py "volumes"; py "machine_id=" ++ machine_id; py "--raw"]
    (py "volumes").

End Methods.

End Listings.

(** ** The prompts *)

Module Prompts.

(** What [prompt_select_from_list] returns besides [None]: the index of an
    item, or the key of an extra option. *)
Inductive selection : Type :=
| Index (position : nat)
| Extra (key : pystr).

Section Prompts.
Context `{PyRuntime}.
(** [int(text)]; [None] stands for [ValueError]. *)
Variable int : pystr -> option Z.

(** The prompts read lines with [input()]: [inputs] holds the lines the
    user will type, and a prompt returns its result with the lines left;
    [None] stands for the [EOFError] of [input()] when no line is left.
    What the prompts print is not modelled. *)

Definition prompt_text (default : option pystr) (inputs : list pystr)
  : option (pystr * list pystr) :=
  match inputs with
  | [] => None
  | line :: rest =>
    match PyStr.strip line, default with
    | [], Some default => Some (default, rest)
    | response, _ => Some (response, rest)
    end
  end.

Fixpoint prompt_int (default minimum : option Z) (inputs : list pystr)
  : option (Z * list pystr) :=
  match inputs with
  | [] => None
  | line :: rest =>
    let raw := PyStr.strip line in
    let parsed :=
      match raw, default with
      | [], Some default => Some default
      | _, _ => int raw
      end in
    match parsed with
    | None => prompt_int default minimum rest
    | Some value =>
      match minimum with
      | Some minimum' =>
        if (value <? minimum')%Z then prompt_int default minimum rest
        else Some (value, rest)
      | None => Some (value, rest)
      end
    end
  end.

Fixpoint prompt_yes_no (default : bool) (inputs : list pystr)
  : option (bool * list pystr) :=
  match inputs with
  | [] => None
  | line :: rest =>
    let response := lower (PyStr.strip line) in
    match response with
    | [] => Some (default, rest)
    | _ =>
      if bool_decide (response ∈ [py "y"; py "yes"]) then Some (true, rest)
      else if bool_decide (response ∈ [py "n"; py "no"]) then Some (false, rest)
      else prompt_yes_no default rest
    end
  end.

(** [extra_options and choice in extra_options] *)
Definition is_extra_option (extra_options : option (list (pystr * pystr)))
    (choice : pystr) : bool :=
  match extra_options with
  | Some (option :: options) =>
    existsb (fun kv => PyStr.eqb (fst kv) choice) (option :: options)
  | _ => false
  end.

(** The [while True] loop of [prompt_select_from_list] *)
Fixpoint select_loop (len_items : nat) (extra_options : option (list (pystr * pystr)))
    (inputs : list pystr) : option (option selection * list pystr) :=
  match inputs with
  | [] => None
  | line :: rest =>
    let choice :=
      match PyStr.strip line with
      | [] => py "1"
      | choice => choice
      end in
    if bool_decide (lower choice ∈ [py "q"; py "quit"; py "exit"]) then Some (None, rest)
    else if is_extra_option extra_options choice then Some (Some (Extra choice), rest)
    else
      match int choice with
      | None => select_loop len_items extra_options rest
      | Some position =>
        if (1 <=? position)%Z && (position <=? Z.of_nat len_items)%Z
        then Some (Some (Index (Z.to_nat (position - 1))), rest)
        else select_loop len_items extra_options rest
      end
  end.

Definition prompt_select_from_list {A} (items : list A)
    (extra_options : option (list (pystr * pystr))) (inputs : list pystr)
  : option (option selection * list pystr) :=
  match items with
  | [] => Some (None, inputs)
  | _ => select_loop (length items) extra_options inputs
  end.

End Prompts.

End Prompts.

(** ** [VastAIDeepFaceLabCLI._monitor_instance_logs] *)

Module InstanceLogs.

(** How a call ends: [input()] raised [EOFError] at the prompt for the
    instance id; no id was given and the method returned; or the logs were
    streamed. [unread] holds the lines of input not read. *)
Inductive session : Type :=
| PromptEOF
| NoInstance (unread : list pystr)
| Streamed (m : Stream.monitored) (unread : list pystr).

Section Method.
Variable self : VastAIClient.t.
Variable spawn : list pystr -> option child.

(** [wait_for_enter()]: [input()] raises [EOFError] when no line is left. *)
Definition wait_for_enter (inputs : list pystr) : option exception * list pystr :=
  match inputs with
  | [] => (Some EOFError, [])
  | _ :: rest => (None, rest)
  end.

(** The [finally] clause closes the stream and then waits for Enter: an
    exception of [close] leaves the clause at once, and an [EOFError] of
    [wait_for_enter] takes the place of the exception in flight. *)
Definition _monitor_instance_logs (inputs : list pystr) : session :=
  match Prompts.prompt_text None inputs with
  | None => PromptEOF
  | Some ([], rest) => NoInstance rest
  | Some (instance_id, rest) =>
    let '(printed, detected, g, raised) :=
      Stream.iterate self spawn instance_id false (Stream.enough self spawn instance_id)
        Stream.Created [] false in
    match Stream.close self (Stream.log_args instance_id) false g with
    | (Some e, g') => Streamed (Stream.Monitored printed detected g' (Some e)) rest
    | (None, g') =>
      match wait_for_enter rest with
      | (Some e, rest') => Streamed (Stream.Monitored printed detected g' (Some e)) rest'
      | (None, rest') =>
        Streamed (Stream.Monitored printed detected g' (Stream.uncaught raised)) rest'
      end
    end
  end.

End Method.

End InstanceLogs.

(** ** [VastAIDeepFaceLabCLI._extract_instance_id] *)

(** What the method uses of Unicode: which characters [str.isdigit] takes
    for digits, and which the class [\d] of a regular expression has. *)
Class PyUnicode : Type := {
  char_isdigit : N -> bool;
  char_isdecimal : N -> bool
}.

Module InstanceId.

Inductive type_error : Type := TypeError.

(** What a call raises or returns *)
Abbreviation result := (type_error + option (list N))%type (only parsing).

(** A step of a loop: it returns from the method, or the loop goes on. *)
Inductive step : Type :=
| Return (r : result)
| Continue.

Section ExtractInstanceId.
Context `{PyRuntime} `{PyUnicode}.

(** [text.isdigit()] *)
Definition isdigit (text : pystr) : bool :=
  match text with
  | [] => false
  | _ => forallb char_isdigit text
  end.

(** [(\d+)] at the head of the text, greedy *)
Fixpoint take_decimals (s : pystr) : pystr :=
  match s with
  | c :: r => if char_isdecimal c then c :: take_decimals r else []
  | [] => []
  end.

(** [\D*(\d+)] at the head of the text: the star takes every character
    that is no decimal digit and gives back what it took when the rest
    fails; the result is the text of the group. *)
Fixpoint digits_after_nondigits (s : pystr) : option pystr :=
  match s with
  | [] => None
  | c :: r =>
    if char_isdecimal c then Some (take_decimals s)
    else
      match digits_after_nondigits r with
      | Some group => Some group
      | None => None
      end
  end.

Definition keywords : list pystr :=
  [py "instance_id"; py "instance"; py "contract_id"; py "id"].

(** The alternatives of the pattern at the head of the text, in order *)
Fixpoint match_at (alternatives : list pystr) (s : pystr) : option pystr :=
  match alternatives with
  | [] => None
  | keyword :: rest =>
    match json.strip_prefix keyword s with
    | Some tail =>
      match digits_after_nondigits tail with
      | Some group => Some group
      | None => match_at rest s
      end
    | None => match_at rest s
    end
  end.

(** [re.search(pattern, s)] for the pattern of the method, which is
    (?:instance_id|instance|contract_id|id) followed by \D*(\d+): the
    first position at which the pattern matches; the result is group 1. *)
Fixpoint re_search (s : pystr) : option pystr :=
  match match_at keywords s with
  | Some group => Some group
  | None =>
    match s with
    | [] => None
    | _ :: r => re_search r
    end
  end.

(** ["instance" in container]; [None] stands for the [TypeError] of a
    container that is not iterable. *)
Definition instance_in (container : value) : option bool :=
  match container with
  | VStr s => Some (PyStr.contains (py "instance") s)
  | VList items =>
    Some (existsb (fun item => match item with
                               | VStr s => PyStr.eqb s (py "instance")
                               | _ => false
                               end) items)
  | VDict d => Some (match dict_get (py "instance") d with Some _ => true | None => false end)
  | VNone | VBool _ | VInt _ | VFloat _ => None
  end.

Definition candidate_keys : list pystr :=
  [py "instance_id"; py "id"; py "contract_id"; py "new_instance_id"; py "new_contract_id"].

(** The body of the loop over the candidate keys *)
Definition try_candidate (payload : record) (key : pystr) : step :=
  let value := get payload key in
  match value with
  | VInt _ | VBool _ | VStr _ =>
    let value_str := PyStr.strip (str value) in
    if isdigit value_str then
      let accepted : option bool :=
        if negb (PyStr.eqb key (py "id")) then Some true
        else if match get payload (py "type") with
                | VStr type => PyStr.eqb type (py "instance")
                | _ => false
                end then Some true
        else instance_in match dict_get (py "status") payload with
                         | Some status => status
                         | None => VStr []
                         end in
      match accepted with
      | None => Return (inl TypeError)
      | Some true => Return (inr (Some value_str))
      | Some false =>
        let candidate := value_str in
        if PyStr.eqb key (py "id") && match candidate with [] => false | _ => true end
        then Return (inr (Some candidate))
        else Continue
      end
    else Continue
  | _ => Continue
  end.

Fixpoint candidates_loop (payload : record) (keys : list pystr) : step :=
  match keys with
  | [] => Continue
  | key :: rest =>
    match try_candidate payload key with
    | Return r => Return r
    | Continue => candidates_loop payload rest
    end
  end.

(** [extracted = ...; if extracted: return extracted], then [continue] *)
Definition return_if_found (extracted continue : result) : result :=
  match extracted with
  | inl e => inl e
  | inr (Some (c :: text)) => inr (Some (c :: text))
  | inr _ => continue
  end.

Section Loops.
(** The method itself, for the recursive calls *)
Variable _extract_instance_id : value -> result.

(** [nested = payload.get(nested_key)] and what follows it *)
Fixpoint nested_at (nested_key : pystr) (pairs : list (pystr * value)) (continue : result)
  : result :=
  match pairs with
  | [] => continue
  | (key, nested) :: rest =>
    if PyStr.eqb key nested_key then
      match nested with
      | VNone => continue
      | _ => return_if_found (_extract_instance_id nested) continue
      end
    else nested_at nested_key rest continue
  end.

(** [for value in payload.values()] *)
Fixpoint values_loop (pairs : list (pystr * value)) : result :=
  match pairs with
  | [] => inr None
  | (_, value) :: rest =>
    match value with
    | VDict _ | VList _ => return_if_found (_extract_instance_id value) (values_loop rest)
    | _ => values_loop rest
    end
  end.

(** [for item in payload] *)
Fixpoint items_loop (items : list value) : result :=
  match items with
  | [] => inr None
  | item :: rest => return_if_found (_extract_instance_id item) (items_loop rest)
  end.

End Loops.

Fixpoint _extract_instance_id (payload : value) : result :=
  match payload with
  | VNone => inr None
  | VDict d =>
    match candidates_loop d candidate_keys with
    | Return r => r
    | Continue =>
      nested_at _extract_instance_id (py "instance") d
        (nested_at _extract_instance_id (py "new_contract") d
           (nested_at _extract_instance_id (py "data") d
              (nested_at _extract_instance_id (py "result") d
                 (values_loop _extract_instance_id d))))
    end
  | VList items => items_loop _extract_instance_id items
  | VStr s => inr (re_search s)
  | VBool _ | VInt _ | VFloat _ => inr None
  end.

End ExtractInstanceId.

End InstanceId.

(** * Vocabulary of the properties *)

(** ** Shapes of JSON text *)

Module JsonText.
Import json.

(** The characters with which the text after a number could continue it. *)
Definition continues_number (c : N) : bool :=
  is_digit c || (c =? ch ".") || (c =? ch "e") || (c =? ch "E").

(** The text [t] that follows a number does not continue it. *)
Definition number_stop (t : pystr) : bool :=
  match t with
  | [] => true
  | c :: _ => negb (continues_number c)
  end.

(** The text [t] is empty or starts with a character outside [bad]. *)
Definition stops (bad : N -> bool) (t : pystr) : bool :=
  match t with
  | [] => true
  | c :: _ => negb (bad c)
  end.

(** What may not follow the integer part and the fraction of a number for
    the match to stay what it is. *)
Definition after_frac (c : N) : bool := is_digit c || (c =? ch ".").

Definition after_exp (c : N) : bool := is_digit c || (c =? ch "e") || (c =? ch "E").

(** What [scanstring] does after a [\u] escape that decoded to [uni]. *)
Definition after_u (uni : N) (r2 : pystr) : option (pystr * pystr) :=
  match r2 with
  | b :: u :: r2' =>
    if is_high_surrogate uni && (b =? ch "\") && (u =? ch "u") then
      match r2' with
      | g1 :: g2 :: g3 :: g4 :: r3 =>
        match hex4 g1 g2 g3 g4 with
        | None => None
        | Some uni2 =>
          if is_low_surrogate uni2
          then prepend (join_surrogates uni uni2) (scanstring r3)
          else prepend uni (scanstring r2)
        end
      | _ => None
      end
    else prepend uni (scanstring r2)
  | _ => prepend uni (scanstring r2)
  end.

(** The escape that follows is not joined to [uni] as a surrogate pair. *)
Definition no_join (uni : N) (x : pystr) : Prop :=
  match x with
  | b :: u :: x' =>
    is_high_surrogate uni && (b =? ch "\") && (u =? ch "u") = false \/
    exists g1 g2 g3 g4 r3 uni2,
      x' = g1 :: g2 :: g3 :: g4 :: r3 /\ hex4 g1 g2 g3 g4 = Some uni2 /\
      is_low_surrogate uni2 = false
  | _ => True
  end.

(** The first character makes the value a string, an object or an array. *)
Definition composite (s : pystr) : bool :=
  match s with
  | c :: _ => (c =? dquote) || (c =? ch "{") || (c =? ch "[")
  | [] => false
  end.

(** The first character makes the value an object or an array. *)
Definition bracketed (s : pystr) : bool :=
  match s with
  | c :: _ => (c =? ch "{") || (c =? ch "[")
  | [] => false
  end.

(** The text ends with a closing bracket. *)
Definition closed (p : pystr) : Prop :=
  exists p' c, p = p' ++ [c] /\ (c = ch "}" \/ c = ch "]").

(** The characters a JSON value can start with. *)
Definition value_start (c : N) : bool :=
  (c =? dquote) || (c =? ch "{") || (c =? ch "[") || (c =? ch "-") || is_digit c
  || (c =? ch "n") || (c =? ch "t") || (c =? ch "f") || (c =? ch "N") || (c =? ch "I").

Section Stability.
Context `{PyRuntime}.

(** The decoder reads a prefix [p] of the text and nothing of what follows:
    with [fuel], a value decoded on [p ++ r] is decoded on [p ++ t] too. For
    a number [t] must not continue it. *)
Definition scan_stable_at (fuel : nat) : Prop :=
  forall depth s v r,
    scan_once fuel depth s = inr (v, r) ->
    exists p,
      s = p ++ r /\ p ≠ [] /\ (bracketed s = true -> closed p) /\
      forall t, composite s || number_stop t = true ->
                scan_once fuel depth (p ++ t) = inr (v, t).

Definition object_stable_at (fuel : nat) : Prop :=
  forall depth s pairs v r,
    object_loop fuel depth s pairs = inr (v, r) ->
    exists p,
      s = p ++ ch "}" :: r /\
      forall t, object_loop fuel depth (p ++ ch "}" :: t) pairs = inr (v, t).

Definition array_stable_at (fuel : nat) : Prop :=
  forall depth s values v r,
    array_loop fuel depth s values = inr (v, r) ->
    exists p,
      s = p ++ ch "]" :: r /\
      forall t, array_loop fuel depth (p ++ ch "]" :: t) values = inr (v, t).

(** What the decoder raises: the error of malformed text, or one of the two
    limits of the interpreter. *)
Definition decoder_error (e : exception) : Prop :=
  e = JSONDecodeError \/ e = RecursionError \/ e = ValueError.

End Stability.

End JsonText.

(** ** Brackets in captured output *)

Module Brackets.
Import VastAIClient JsonText.

(** [c in "{["] *)
Definition is_open (c : N) : bool := PyStr.char_in c (py "{[").

(** The text has no opening bracket. *)
Definition no_open (s : pystr) : Prop := forallb (fun c => negb (is_open c)) s = true.

(** [c in "}]"] *)
Definition is_close (c : N) : bool := PyStr.char_in c (py "}]").

(** The bracket that closes an opening bracket *)
Definition closer (o : N) : N := if o =? ch "{" then ch "}" else ch "]".

(** Text in which every bracket is closed, in order, by the bracket that
    matches it; what is not a bracket does not count, also inside a JSON
    string. *)
Inductive balanced : pystr -> Prop :=
| balanced_nil : balanced []
| balanced_plain (c : N) (s : pystr) :
    is_open c = false -> is_close c = false -> balanced s -> balanced (c :: s)
| balanced_nest (o : N) (inner s : pystr) :
    is_open o = true -> balanced inner -> balanced s ->
    balanced (o :: inner ++ closer o :: s).

(** The brackets that are still open, innermost first, are closed in that
    order, with balanced text in front of each closing bracket. *)
Inductive closes : list N -> pystr -> Prop :=
| closes_done : closes [] []
| closes_next (top : N) (stack : list N) (inner s : pystr) :
    balanced inner -> closes stack s -> closes (top :: stack) (inner ++ top :: s).

(** The region of the text that starts at its first opening bracket and
    ends where that bracket is closed, what lies between being balanced *)
Definition region (text cleaned : pystr) : Prop :=
  exists noise o inner after,
    text = noise ++ o :: inner ++ closer o :: after /\
    no_open noise /\ is_open o = true /\ balanced inner /\
    cleaned = o :: inner ++ [closer o].

(** The brackets of the text are absent or unbalanced: there is no opening
    bracket, or the first one is never closed with what lies between
    balanced (it stays open, or a closing bracket does not match the
    innermost open one). *)
Definition unbalanced (text : pystr) : Prop := forall cleaned, ¬ region text cleaned.

Section Recovery.
Context `{PyRuntime}.

(** The leading text is white space; or the decoder raises
    [JSONDecodeError] at the start of the stripped text, and the region that
    starts at the first bracket of the value reaches the end of the value. *)
Definition recoverable (lead v trail : pystr) : Prop :=
  match PyStr.lstrip lead with
  | [] => True
  | _ =>
    json.raw_decode (PyStr.strip (lead ++ v ++ trail)) = inl JSONDecodeError /\
    exists more, region (v ++ PyStr.rstrip trail) (v ++ more)
  end.

End Recovery.

End Brackets.

(** ** The end of a stream *)

Section StreamVocabulary.
Import Stream.
Variable self : VastAIClient.t.
Variable args : list pystr.
Variable raw : bool.
Variable spawn : list pystr -> option child.

(** The exit codes that [stream] does not report. *)
Definition benign (rc : Z) : Prop := rc = 0%Z \/ rc = (-15)%Z \/ rc = 15%Z.

(** The generator is finished and has collected exit code [rc]. *)
Definition ended_with (g : generator) (rc : Z) : Prop :=
  exists c n p, g = Finished (Some (c, n, p)) /\ returncode p = Some rc.

(** The child of the generator is still running: it has not exited on its
    own by the reads done, and no signal that the handle has sent has made
    it exit within the wait that followed. *)
Definition alive (g : generator) : bool :=
  match g with
  | Suspended c n p | Finished (Some (c, n, p)) =>
    match os_status c n p with
    | None => true
    | Some _ => false
    end
  | _ => false
  end.

(** The handle has told the child to stop the way the teardown does: with
    SIGTERM unless the child had exited by itself, with SIGKILL only after
    SIGTERM was sent and the child did not exit within the wait. *)
Definition stopped_in_order (c : child) (n : nat) (p : Popen) : Prop :=
  (exited c n = None -> terminate_sent p = true) /\
  (kill_sent p = true -> terminate_sent p = true /\ on_terminate c = None).

(** What the teardown leaves of a handle: it shows what has become of the
    child, which was stopped in order, and shows it running only after
    SIGKILL. *)
Definition settled (c : child) (n : nat) (p : Popen) : Prop :=
  returncode p = os_status c n p /\ stopped_in_order c n p /\
  (returncode p = None -> kill_sent p = true).

(** The stream is closed: the generator is finished, and if it had started
    a child, that is the child of its command, the teardown has left its
    handle settled, and the child is left running only when it has exited
    within neither of the two bounded waits. *)
Definition torn_down (g : generator) : Prop :=
  finished g = true /\
  forall c n p,
    g = Finished (Some (c, n, p)) ->
    spawn (Stream.command self args raw) = Some c /\ settled c n p /\
    (alive g = true -> on_terminate c = None /\ on_kill c = None).

(** Every state the consumer can drive the generator into, and the number
    of processes started on the way. *)
Definition reachable (g : generator) (popen_calls : nat) : Prop :=
  exists actions, drive self args raw spawn actions Created 0 = (g, popen_calls).

(** One process at most was started, and it is the child of the
    generator; no signal is sent before the teardown; the handle of a
    finished generator shows what has become of the child, which was stopped
    in order, and shows it running only after SIGKILL. *)
Definition tidy (g : generator) (popen_calls : nat) : Prop :=
  match g with
  | Created => popen_calls = 0%nat
  | Suspended c _ p =>
    popen_calls = 1%nat /\ spawn (Stream.command self args raw) = Some c /\
    p = Handle None false false
  | Finished None => (popen_calls <= 1)%nat
  | Finished (Some (c, n, p)) =>
    popen_calls = 1%nat /\ spawn (Stream.command self args raw) = Some c /\
    settled c n p
  end.

End StreamVocabulary.

(** ** Records, commands and the cache *)

Section OwnershipVocabulary.
Import VastAIDeepFaceLabCLI.
Context `{PyRuntime}.

(** The keys [_template_identifier] reads. *)
Definition identity_keys : list pystr :=
  [py "id"; py "template_id"; py "hash"; py "uuid"; py "name"; py "image";
   py "docker_image"].

(** Two records agree on the keys the identifier is derived from. *)
Definition same_identity_fields (a b : record) : Prop :=
  Forall (fun k => get b k = get a k) identity_keys.

(** The command [client.run(args, capture_json=True)] executes *)
Definition ran (args : list pystr) (s : t) : list pystr :=
  VastAIClient._compose_command (client s) args true.

(** The commands of the caller-id lookup, of template creation, of the
    [my=true] seeding query and of the full listing *)
Definition show_user_command (s : t) : list pystr :=
  VastAIClient._compose_command (client s) [py "show"; py "user"; py "--raw"] true.

(** The owner fields [_is_my_template] compares with the caller id *)
Definition owner_fields : list pystr :=
  [py "user_id"; py "owner_id"; py "creator_id"; py "created_by"; py "userid"].

Definition create_command (a : template_answers) (s : t) : list pystr :=
  ran ([py "create"; py "template"; py "--name"; name a; py "--image"; image a;
        py "--env"; env a; py "--disk_space"; py (pretty (disk_space a))]
       ++ extra_args a) s.

Definition seeding_command (s : t) : list pystr :=
  ran [py "search"; py "templates"; py "my=true"; py "--raw"] s.

Definition listing_command (s : t) : list pystr :=
  ran [py "search"; py "templates"; py "--raw"] s.

(** What [_invalidate_template_cache] leaves of a state *)
Definition invalidated (s : t) : t :=
  State (client s) (calls s) [] [] [] false ∅ ∅ false (_user_id s) (owner_id_override s).

(** The identity under which [_ensure_template_cache] tells records apart:
    what [_template_identifier] derives, when that is not the empty string. *)
Definition identity (template : record) : option pystr :=
  match _template_identifier template with
  | Some (c :: identifier) => Some (c :: identifier)
  | _ => None
  end.

Definition identities (templates : list record) : list pystr := omap identity templates.

(** What holds of the two lists of a rebuilt cache, [initial] being the
    records the seeding pass returned and [listing] those of the full
    listing. The first list is the seeded records, one for each record of
    [initial] and with its identifier, followed by records with the
    identifier of a record of the listing. Among these and the records of
    the second list no identity occurs twice, and none is the identity of a
    seeded record. *)
Definition partitioned (initial listing my_templates other_templates : list record)
  : Prop :=
  exists seeded listed,
    my_templates = seeded ++ listed /\
    Forall2 (fun placed template =>
               _template_identifier placed = _template_identifier template)
      seeded initial /\
    Forall (fun placed =>
              exists template,
                template ∈ listing /\
                _template_identifier placed = _template_identifier template)
      listed /\
    NoDup (identities listed ++ identities other_templates) /\
    forall i, i ∈ identities initial -> i ∉ identities listed ++ identities other_templates.

(** What [run] raises besides [VastAICommandError]: what [subprocess.run]
    raises besides [FileNotFoundError], and the errors of the two limits of
    the decoder. *)
Definition passes_through (e : exception) : Prop :=
  (exists x, e = FromSubprocess x) \/ e = RecursionError \/ e = ValueError.

End OwnershipVocabulary.

(** ** Inputs of the examples *)

(** The example of the specification: a warning in front, a remark behind. *)
Definition offers_text : pystr := pyq "{'offers': [{'id': 7, 'dph_total': 0.5}]}".

Definition offers_value : value :=
  VDict [(py "offers",
          VList [VDict [(py "id", VInt 7); (py "dph_total", VFloat (py "0.5"))]])].

(** A log stream that reaches the completion marker; the child runs on
    until it is told to stop. *)
Definition provisioning_child : child := {|
  reads := [Line (py "booting" ++ nl); Line (py "installing" ++ nl);
            Line (py "=== Provisioning Complete ===" ++ nl); Line (py "cleanup" ++ nl)];
  exited := fun _ => None;
  on_terminate := Some (-15)%Z;
  on_kill := Some (-9)%Z;
  stderr_data := []
|}.

(** A child that fails on its own with exit code 1 after one line. *)
Definition failing_child : child := {|
  reads := [Line (py "booting" ++ nl)];
  exited := fun n => if (n <? 1)%nat then None else Some 1%Z;
  on_terminate := Some (-15)%Z;
  on_kill := Some (-9)%Z;
  stderr_data := py "instance not found" ++ nl
|}.

(** A child that does not exit within the bounded wait, whatever signal it
    is sent. *)
Definition stuck_child : child := {|
  reads := [Line (py "booting" ++ nl)];
  exited := fun _ => None;
  on_terminate := None;
  on_kill := None;
  stderr_data := []
|}.

(** A client without an API key, a machine without the tool, and the state
    of a new [VastAIDeepFaceLabCLI]. *)
Definition example_client : VastAIClient.t := VastAIClient.Client (py "vastai") None.

Definition no_tool : list (list pystr) -> list pystr -> subprocess_result :=
  fun _ _ => FileNotFoundError.

Definition fresh_state : VastAIDeepFaceLabCLI.t :=
  VastAIDeepFaceLabCLI.__init__ example_client None.

Definition after_failed_lookup : VastAIDeepFaceLabCLI.t :=
  snd (VastAIDeepFaceLabCLI._ensure_user_id no_tool fresh_state).

Definition caller_42 : VastAIDeepFaceLabCLI.t :=
  VastAIDeepFaceLabCLI.set_user_id (Some (py "42")) fresh_state.

Definition owned_by_42 : record := [(py "id", VInt 1); (py "owner_id", VStr (py "42"))].

(** A tool that answers the search for [my=true] and the search by owner id
    with the same template, knows the caller as user 42, and lists three
    templates. *)
Definition template_tool : list (list pystr) -> list pystr -> subprocess_result :=
  fun _ command =>
    match command with
    | [_; verb; noun; query; _; _] =>
      if bool_decide (verb = py "search" /\ noun = py "templates"
                      /\ (query = py "my=true" \/ query = py "owner_id=42"))
      then CompletedProcess 0 (pyq "[{'id': 1, 'name': 'a'}]") []
      else CompletedProcess 1 [] (py "bad query")
    | [_; verb; noun; _; _] =>
      if bool_decide (verb = py "show" /\ noun = py "user")
      then CompletedProcess 0 (pyq "{'id': 42}") []
      else if bool_decide (verb = py "search" /\ noun = py "templates")
      then CompletedProcess 0
             (pyq "[{'id': 1, 'name': 'a'}, {'id': 2, 'name': 'b'}, {'id': 3, 'creator_id': 42}]")
             []
      else CompletedProcess 1 [] (py "bad query")
    | _ => CompletedProcess 1 [] (py "bad query")
    end.

Definition template_1 : record := [(py "id", VInt 1); (py "name", VStr (py "a"))].

Definition template_2 : record := [(py "id", VInt 2); (py "name", VStr (py "b"))].

Definition template_3 : record := [(py "id", VInt 3); (py "creator_id", VInt 42)].

(** A listing with two records whose identifier is the empty string: both
    are kept, side by side. *)
Definition blank_id_tool : list (list pystr) -> list pystr -> subprocess_result :=
  fun _ command =>
    match command with
    | [_; verb; noun; _; _] =>
      if bool_decide (verb = py "search" /\ noun = py "templates")
      then CompletedProcess 0 (pyq "[{'id': ''}, {'id': ''}]") []
      else CompletedProcess 1 [] (py "bad query")
    | _ => CompletedProcess 1 [] (py "bad query")
    end.

(** A tool whose full listing shows template 5 once a template was created,
    and which answers no other query. *)
Definition growing_tool : list (list pystr) -> list pystr -> subprocess_result :=
  fun history command =>
    match command with
    | _ :: verb :: noun :: rest =>
      if bool_decide (verb = py "create" /\ noun = py "template")
      then CompletedProcess 0 (pyq "{'id': 5, 'name': 'DeepFaceLab Desktop'}") []
      else if bool_decide (verb = py "search" /\ noun = py "templates"
                           /\ rest = [py "--raw"; py "--raw"])
      then if existsb (fun past =>
                         bool_decide (take 2 (drop 1 past) = [py "create"; py "template"]))
                history
           then CompletedProcess 0
                  (pyq "[{'id': 1, 'name': 'a'}, {'id': 5, 'name': 'DeepFaceLab Desktop'}]")
                  []
           else CompletedProcess 0 (pyq "[{'id': 1, 'name': 'a'}]") []
      else CompletedProcess 1 [] (py "bad query")
    | _ => CompletedProcess 1 [] (py "bad query")
    end.

Definition template_5 : record :=
  [(py "id", VInt 5); (py "name", VStr (py "DeepFaceLab Desktop"))].

(** A tool that answers the searches by owner id and by creator id with
    overlapping lists, and fails on every other command. *)
Definition owner_tool : list (list pystr) -> list pystr -> subprocess_result :=
  fun _ command =>
    match command with
    | [_; verb; noun; query; _; _] =>
      if bool_decide (verb = py "search" /\ noun = py "templates" /\ query = py "owner_id=42")
      then CompletedProcess 0 (pyq "[{'id': 1, 'name': 'a'}, {'id': 2, 'name': 'b'}]") []
      else if bool_decide (verb = py "search" /\ noun = py "templates"
                           /\ query = py "creator_id=42")
      then CompletedProcess 0 (pyq "[{'id': 2, 'name': 'b'}, {'id': 3, 'creator_id': 42}]") []
      else CompletedProcess 1 [] (py "bad query")
    | _ => CompletedProcess 1 [] (py "bad query")
    end.

(** A tool that creates a template and answers with an integer of more
    digits than the interpreter converts. *)
Definition digits_tool : list (list pystr) -> list pystr -> subprocess_result :=
  fun _ command =>
    match command with
    | _ :: verb :: noun :: _ =>
      if bool_decide (verb = py "create" /\ noun = py "template")
      then CompletedProcess 0 (repeat (ch "1") 4301) []
      else CompletedProcess 1 [] (py "bad query")
    | _ => CompletedProcess 1 [] (py "bad query")
    end.

(** A tool that may not be executed. *)
Definition forbidden_tool : list (list pystr) -> list pystr -> subprocess_result :=
  fun _ _ => Raises PermissionError.

(** The answers that are the defaults of the prompts of [_create_template] *)
Definition default_answers : VastAIDeepFaceLabCLI.template_answers := {|
  VastAIDeepFaceLabCLI.name := py "DeepFaceLab Desktop";
  VastAIDeepFaceLabCLI.image := py "mannyj37/dfl-desktop:latest";
  VastAIDeepFaceLabCLI.env :=
    py "-p 5901 -p 11111 -e VNC_PASSWORD=deepfacelab -e PROVISIONING_SCRIPT=https://raw.githubusercontent.com/MannyJMusic/dfl-desktop/refs/heads/main/config/provisioning/vastai-provisioning.sh";
  VastAIDeepFaceLabCLI.disk_space := 50;
  VastAIDeepFaceLabCLI.extra_args := [];
  VastAIDeepFaceLabCLI.confirm := true
|}.

(** An object whose cache is valid and holds what [growing_tool] listed
    before any template was created. *)
Definition stale_state : VastAIDeepFaceLabCLI.t :=
  snd (VastAIDeepFaceLabCLI._ensure_template_cache growing_tool fresh_state).

(** ** What a monitor reads *)

(** The lines a child's output gives before the first interrupt. *)
Fixpoint lines_read (events : list read_event) : list pystr :=
  match events with
  | Line text :: rest => text :: lines_read rest
  | _ => []
  end.

(** The lines as the stream yields them. *)
Definition yielded (events : list read_event) : list pystr :=
  map (PyStr.rstrip_char 10) (lines_read events).

Definition has_marker (line : pystr) : bool := PyStr.contains Stream.MARKER line.

(** The lines up to and including the first one with the marker. *)
Fixpoint until_marker (lines : list pystr) : list pystr :=
  match lines with
  | [] => []
  | line :: rest => if has_marker line then [line] else line :: until_marker rest
  end.

(** A child that writes the marker and then exits on its own with code 1. *)
Definition marker_then_fail : child := {|
  reads := [Line (py "=== Provisioning Complete ===" ++ nl)];
  exited := fun n => if (n <? 1)%nat then None else Some 1%Z;
  on_terminate := Some (-15)%Z;
  on_kill := Some (-9)%Z;
  stderr_data := py "lost" ++ nl
|}.

(** ** What the resolver's methods leave alone *)

Section OwnershipFrames.
Import VastAIDeepFaceLabCLI.
Context `{PyRuntime}.

(** The queries and the classification leave the client, the cached lists,
    their validity and the owner id override alone; the call log only
    grows, and a seeding attempt on record stays on record. *)
Definition keeps_cache (s s' : t) : Prop :=
  client s' = client s /\
  last_templates s' = last_templates s /\
  _my_templates_cache s' = _my_templates_cache s /\
  _other_templates_cache s' = _other_templates_cache s /\
  _template_cache_valid s' = _template_cache_valid s /\
  owner_id_override s' = owner_id_override s /\
  (_attempted_my_template_query s = true -> _attempted_my_template_query s' = true) /\
  exists more, calls s' = calls s ++ more.

(** Whatever the method returns or raises, it keeps the cache, and it
    handles the failures of the commands it runs: it does not raise
    [VastAICommandError]. *)
Definition quiet {A} (m : M A) : Prop :=
  forall s, keeps_cache s (snd (m s)) /\ forall e, fst (m s) ≠ inl (CommandFailed e).

(** The state after a caller-id lookup that found [found] *)
Definition looked_up (found : option pystr) (s : t) : t :=
  set_user_id found (set_calls (calls s ++ [show_user_command s]) s).

(** What [_ensure_user_id] finds in the answer of the lookup *)
Definition found_in (result : value) : option pystr :=
  match match result with
        | VDict d => first_key_in [py "id"; py "user_id"; py "userid"] d
        | _ => None
        end with
  | Some v => Some (str v)
  | None => None
  end.

(** The ownership flags, and the owner fields compared with the override *)
Definition flag_keys : list pystr :=
  [py "is_owner"; py "mine"; py "owned"; py "is_mine"; py "my_template"].

Definition override_fields : list pystr :=
  [py "creator_id"; py "owner_id"; py "created_by"; py "user_id"].

(** The five searches of [_collect_owner_templates] *)
Definition owner_queries (owner_id : pystr) : list pystr :=
  [py "owner_id=" ++ owner_id; py "creator_id=" ++ owner_id;
   py "created_by=" ++ owner_id; py "user_id=" ++ owner_id;
   py "author_id=" ++ owner_id].

Definition search_command (query : pystr) (s : t) : list pystr :=
  ran [py "search"; py "templates"; query; py "--raw"] s.

End OwnershipFrames.

(** The key under which [_collect_owner_templates] tells records apart *)
Definition dedup_key `{PyRuntime} (template : record) : pystr :=
  match VastAIDeepFaceLabCLI._template_identifier template with
  | Some (c :: identifier) => c :: identifier
  | _ => json_dumps_sorted template
  end.

(** A record flagged as owned by a string, a record created by user 7, and
    the state of an object made with owner id override 7. *)
Definition flagged_record : record := [(py "id", VInt 9); (py "is_owner", VStr (py " Yes "))].

Definition created_by_7 : record := [(py "id", VInt 4); (py "creator_id", VInt 7)].

Definition override_state : VastAIDeepFaceLabCLI.t :=
  VastAIDeepFaceLabCLI.__init__ example_client (Some (py " 7 ")).

Definition listing_not_found : VastAICommandError :=
  CommandError [py "vastai"; py "search"; py "templates"; py "--raw"; py "--raw"] 127
    (py "vastai CLI not found in PATH").

(** ** Answers to the prompts *)

Section PromptVocabulary.
Context `{PyRuntime}.

(** What [prompt_yes_no] makes of a line: an answer, or nothing when the
    line is neither blank nor one of y, yes, n and no. *)
Definition yes_no_answer (default : bool) (line : pystr) : option bool :=
  match lower (PyStr.strip line) with
  | [] => Some default
  | response =>
    if bool_decide (response ∈ [py "y"; py "yes"]) then Some true
    else if bool_decide (response ∈ [py "n"; py "no"]) then Some false
    else None
  end.

(** The choice is one of the words that cancel a selection. *)
Definition cancels (choice : pystr) : Prop :=
  lower choice ∈ [py "q"; py "quit"; py "exit"].

(** The choice [prompt_select_from_list] makes of a line: the stripped
    line, 1 for a blank one *)
Definition choice_of (line : pystr) : pystr :=
  match PyStr.strip line with
  | [] => py "1"
  | choice => choice
  end.

(** The command of [_fetch_instances] *)
Definition instances_command (s : VastAIDeepFaceLabCLI.t) : list pystr :=
  ran [py "show"; py "instances"; py "--raw"] s.

End PromptVocabulary.

(** [int] on ASCII digits, for the examples *)
Definition ascii_int (text : pystr) : option Z :=
  match text with
  | [] => None
  | _ => if forallb json.is_digit text then Some (json.int_of_digits text) else None
  end.

(** A tool whose output is a plain message. *)
Definition message_tool : list (list pystr) -> list pystr -> subprocess_result :=
  fun _ _ => CompletedProcess 0 (py "empty account" ++ nl) [].

(** ** Instance identifiers *)

(** The digits of ASCII, for the examples *)
#[export] Instance ascii_digits : PyUnicode := {|
  char_isdigit := json.is_digit;
  char_isdecimal := json.is_digit
|}.

Section InstanceIdVocabulary.
Context `{PyRuntime} `{PyUnicode}.

(** One character or more, each of the class [\d] *)
Definition decimals (text : pystr) : Prop :=
  text ≠ [] /\ Forall (fun c => char_isdecimal c = true) text.

(** No character of the class [\d] *)
Definition no_decimal (text : pystr) : Prop :=
  Forall (fun c => char_isdecimal c = false) text.

(** After [before], the text has a keyword of the pattern, characters that
    are no decimal digits, and [id] as a whole run of decimal digits. *)
Definition labelled (s before id : pystr) : Prop :=
  exists keyword gap after,
    s = before ++ keyword ++ gap ++ id ++ after /\
    keyword ∈ InstanceId.keywords /\
    no_decimal gap /\
    decimals id /\
    match after with
    | c :: _ => char_isdecimal c = false
    | [] => True
    end.

(** What a call returns, if it returns a text, is made of digits: of
    digits for [str.isdigit], or of decimal digits of the pattern. *)
Definition digit_result (r : InstanceId.result) : Prop :=
  forall id, r = inr (Some id) -> InstanceId.isdigit id = true \/ decimals id.

(** The value at the key is an [int] or a [str] whose text, stripped, is
    made of digits. *)
Definition numeric (payload : record) (key : pystr) : Prop :=
  match get payload key with
  | VInt _ | VBool _ | VStr _ =>
    InstanceId.isdigit (PyStr.strip (str (get payload key))) = true
  | _ => False
  end.

End InstanceIdVocabulary.

(** A response with the identifier two levels down *)
Definition nested_response : value :=
  VList [VDict [(py "success", VBool true);
                (py "data", VDict [(py "instance_id", VStr (py " 42 "))])]].

(** A listing entry whose status is missing *)
Definition entry_without_status : record :=
  [(py "id", VInt 7); (py "status", VNone)].

(** * Properties *)

(** ** Python strings *)

(** Replace character and string literals by the code points they denote. *)
Ltac literals :=
  repeat match goal with
         | |- context [ch ?a] =>
           let v := eval vm_compute in (ch a) in change (ch a) with v
         | |- context [py ?a] =>
           let v := eval vm_compute in (py a) in change (py a) with v
         end.

Module PyStrFacts.
Import PyStr.

Lemma drop_while_all p s : forallb p s = true -> drop_while p s = [].
Proof.
  induction s as [|c s IH]; simpl; [done|].
  intros [Hc Hs]%andb_true_iff. rewrite Hc. auto.
Qed.

Lemma drop_while_head p c s : p c = false -> drop_while p (c :: s) = c :: s.
Proof. simpl. intros ->. done. Qed.

Lemma drop_while_app_stop p a c s :
  p c = false -> drop_while p (a ++ c :: s) = drop_while p a ++ c :: s.
Proof.
  intros Hc. induction a as [|x a IH]; simpl.
  - rewrite Hc. done.
  - destruct (p x); [exact IH | done].
Qed.

Lemma strip_all_space s : forallb isspace s = true -> strip s = [].
Proof.
  intros Hs. unfold strip, lstrip. rewrite drop_while_all by done. done.
Qed.

Lemma rstrip_app_stop a c s :
  isspace c = false -> rstrip (a ++ c :: s) = a ++ c :: rstrip s.
Proof.
  intros Hc. unfold rstrip.
  rewrite rev_app_distr. simpl rev. rewrite <- app_assoc. simpl.
  rewrite drop_while_app_stop by done.
  rewrite rev_app_distr. simpl. rewrite rev_involutive, <- app_assoc. done.
Qed.

Lemma drop_while_stop p s c r : drop_while p s = c :: r -> p c = false.
Proof.
  induction s as [|x s IH]; cbn [drop_while]; [discriminate|].
  destruct (p x) eqn:Hx; [exact IH|]. intros [= -> _]. done.
Qed.

Lemma strip_head s c r : strip s = c :: r -> isspace c = false.
Proof.
  unfold strip. destruct (lstrip s) as [|h y] eqn:Hl; [discriminate|].
  apply drop_while_stop in Hl.
  pose proof (rstrip_app_stop [] h y Hl) as Hr. cbn [app] in Hr. rewrite Hr.
  by intros [= <- _].
Qed.

(** Stripping a text whose core starts and ends with characters that are
    not white space leaves the core in place. *)
Lemma strip_around a first core last b :
  isspace first = false -> isspace last = false ->
  strip (a ++ (first :: core ++ [last]) ++ b)
  = lstrip a ++ (first :: core ++ [last]) ++ rstrip b.
Proof.
  intros Hfirst Hlast. unfold strip, lstrip.
  cbn [app]. rewrite drop_while_app_stop by done.
  replace (drop_while isspace a ++ first :: (core ++ [last]) ++ b)
    with ((drop_while isspace a ++ first :: core) ++ last :: b)
    by (by rewrite <- !app_assoc).
  rewrite rstrip_app_stop by done. by rewrite <- !app_assoc.
Qed.

Lemma eqb_eq a b : eqb a b = true <-> a = b.
Proof.
  revert b. induction a as [|x a IH]; intros [|y b]; simpl; try done.
  rewrite andb_true_iff, N.eqb_eq, IH. split; [intros [-> ->] | intros [= -> ->]]; done.
Qed.

Lemma eqb_refl a : eqb a a = true.
Proof. by apply eqb_eq. Qed.

Lemma eqb_neq a b : eqb a b = false <-> a ≠ b.
Proof.
  rewrite <- eqb_eq. destruct (eqb a b); split; congruence.
Qed.

End PyStrFacts.

(** ** The decoder reads no further than the value it returns *)

Module JsonFacts.
Import json JsonText.

Lemma drop_while_split p s :
  exists w, s = w ++ PyStr.drop_while p s /\ forallb p w = true.
Proof.
  induction s as [|c s (w & Hs & Hw)]; cbn [PyStr.drop_while].
  - by exists [].
  - destruct (p c) eqn:Hc.
    + exists (c :: w). cbn [forallb app]. rewrite Hc, Hw. split; [by f_equal | done].
    + by exists [].
Qed.

Lemma drop_while_skip p w c x :
  forallb p w = true -> p c = false -> PyStr.drop_while p (w ++ c :: x) = c :: x.
Proof.
  intros Hw Hc. rewrite PyStrFacts.drop_while_app_stop by done.
  by rewrite PyStrFacts.drop_while_all.
Qed.

(** What [skip_ws] finds is preceded by white space only, and stays what
    it finds whatever follows. *)
Lemma skip_ws_found s c r :
  skip_ws s = c :: r ->
  exists w, s = w ++ c :: r /\ forallb is_ws w = true /\ is_ws c = false /\
            forall x, skip_ws (w ++ c :: x) = c :: x.
Proof.
  unfold skip_ws. intros Hs.
  destruct (drop_while_split is_ws s) as (w & Hsplit & Hw).
  pose proof (PyStrFacts.drop_while_stop _ _ _ _ Hs) as Hc. rewrite Hs in Hsplit.
  exists w. split_and!; try done. intros x. by apply drop_while_skip.
Qed.

Lemma number_stop_digit c t : number_stop (c :: t) = true -> is_digit c = false.
Proof.
  unfold number_stop, continues_number. destruct (is_digit c); [discriminate | done].
Qed.

Lemma take_digits_spec s ds r :
  take_digits s = (ds, r) ->
  s = ds ++ r /\ forallb is_digit ds = true /\
  forall t, match t with [] => True | c :: _ => is_digit c = false end ->
            take_digits (ds ++ t) = (ds, t).
Proof.
  revert ds r. induction s as [|c s IH]; intros ds r; cbn [take_digits].
  - intros [= <- <-]. split_and!; try done. intros [|c t] Ht; cbn [take_digits app].
    + done.
    + by rewrite Ht.
  - destruct (is_digit c) eqn:Hc.
    + destruct (take_digits s) as [ds' r'] eqn:Hs. intros [= <- <-].
      destruct (IH ds' r' eq_refl) as (-> & Hds & Happ).
      split_and!; [done | by cbn [forallb]; rewrite Hc, Hds |].
      intros t Ht. cbn [app take_digits]. rewrite Hc, (Happ t Ht). done.
    + intros [= <- <-]. split_and!; try done. intros [|c' t] Ht; cbn [take_digits app].
      * done.
      * by rewrite Ht.
Qed.

Lemma stops_digit bad t :
  (forall c, is_digit c = true -> bad c = true) ->
  stops bad t = true -> match t with [] => True | c :: _ => is_digit c = false end.
Proof.
  intros Hbad. destruct t as [|c t]; [done|]. cbn [stops].
  destruct (is_digit c) eqn:Hc; [|done]. by rewrite (Hbad c Hc).
Qed.

Lemma match_integer_stable s neg digits s1 :
  match_integer s = Some (neg, digits, s1) ->
  exists c p,
    s = c :: p ++ s1 /\ (c = ch "-" \/ is_digit c = true) /\
    forall t, stops is_digit t = true ->
              match_integer (c :: p ++ t) = Some (neg, digits, t).
Proof.
  assert (Hdigits : forall t, stops is_digit t = true ->
                              match t with [] => True | c :: _ => is_digit c = false end).
  { intros t. by apply stops_digit. }
  assert (Hbody : forall (neg0 : bool) c r,
             (if c =? ch "0" then Some (neg0, [c], r)
              else if is_digit c
                   then let '(ds, rest) := take_digits r in Some (neg0, c :: ds, rest)
                   else None) = Some (neg, digits, s1) ->
             exists p, r = p ++ s1 /\ is_digit c = true /\
               forall t, stops is_digit t = true ->
                 (if c =? ch "0" then Some (neg0, [c], p ++ t)
                  else if is_digit c
                       then let '(ds, rest) := take_digits (p ++ t) in
                            Some (neg0, c :: ds, rest)
                       else None) = Some (neg, digits, t)).
  { intros neg0 c r. destruct (N.eqb_spec c (ch "0")) as [->|Hc0].
    - intros [= <- <- <-]. exists []. done.
    - destruct (is_digit c) eqn:Hc; [|discriminate].
      destruct (take_digits r) as [ds rest] eqn:Hr. intros [= <- <- <-].
      apply take_digits_spec in Hr as (-> & _ & Happ).
      exists ds. split_and!; try done. intros t Ht. by rewrite (Happ t (Hdigits t Ht)). }
  unfold match_integer. destruct s as [|c r]; [discriminate|].
  destruct (N.eqb_spec c (ch "-")) as [->|Hminus].
  - destruct r as [|c' r']; [discriminate|]. intros Hs.
    apply Hbody in Hs as (p & -> & Hc' & Happ).
    exists (ch "-"), (c' :: p). split_and!; [done | by left |].
    intros t Ht. cbn [app]. change (ch "-" =? ch "-") with true. cbv iota. by apply Happ.
  - intros Hs. apply Hbody in Hs as (p & -> & Hc & Happ).
    exists c, p. split_and!; [done | by right |].
    intros t Ht. apply N.eqb_neq in Hminus. rewrite Hminus. by apply Happ.
Qed.

Lemma match_frac_stable s frac s2 :
  match_frac s = (frac, s2) ->
  s = frac ++ s2 /\ stops is_digit frac = true /\
  forall t, stops after_frac t = true -> match_frac (frac ++ t) = (frac, t).
Proof.
  assert (Hnone : forall t, stops after_frac t = true -> match_frac t = ([], t)).
  { intros [|d [|e t]] Ht; try done. cbn [match_frac stops] in *.
    unfold after_frac in Ht. destruct (d =? ch "."); [|done].
    by rewrite orb_true_r in Ht. }
  unfold match_frac at 1. destruct s as [|d [|e r]]; try (intros [= <- <-]; by auto).
  destruct ((d =? ch ".") && is_digit e) eqn:Hcond; [|intros [= <- <-]; by auto].
  destruct (take_digits r) as [ds rest] eqn:Hr. intros [= <- <-].
  apply take_digits_spec in Hr as (-> & _ & Happ).
  apply andb_true_iff in Hcond as [Hd He]. apply N.eqb_eq in Hd as ->.
  split_and!; [done | done |]. intros t Ht. cbn [app match_frac].
  change (ch "." =? ch ".") with true. rewrite He. cbn [andb].
  rewrite Happ; [done|]. apply (stops_digit after_frac); [|done].
  intros c Hc. unfold after_frac. by rewrite Hc.
Qed.

Lemma match_exp_stable s exp s3 :
  match_exp s = (exp, s3) ->
  s = exp ++ s3 /\ stops after_frac exp = true /\
  forall t, stops after_exp t = true -> match_exp (exp ++ t) = (exp, t).
Proof.
  assert (Hnone : forall t, stops after_exp t = true -> match_exp t = ([], t)).
  { intros [|e t] Ht; [done|]. cbn [match_exp stops] in *. unfold after_exp in Ht.
    destruct ((e =? ch "e") || (e =? ch "E")) eqn:He; [|done].
    rewrite <- orb_assoc, He, orb_true_r in Ht. done. }
  assert (Hdigits : forall t, stops after_exp t = true ->
                              match t with [] => True | c :: _ => is_digit c = false end).
  { intros t. apply stops_digit. intros c Hc. unfold after_exp. by rewrite Hc. }
  unfold match_exp at 1. destruct s as [|e r]; [intros [= <- <-]; by auto|].
  destruct ((e =? ch "e") || (e =? ch "E")) eqn:He; [|intros [= <- <-]; by auto].
  assert (stops after_frac (e :: exp) = true) as Hstop.
  { cbn [stops]. unfold after_frac.
    apply orb_true_iff in He as [->%N.eqb_eq | ->%N.eqb_eq]; reflexivity. }
  destruct r as [|sg r'].
  - cbn [take_digits]. intros [= <- <-]. by auto.
  - destruct ((sg =? ch "-") || (sg =? ch "+")) eqn:Hsg.
    + destruct (take_digits r') as [[|d ds] rest] eqn:Hr; intros [= <- <-]; [by auto|].
      apply take_digits_spec in Hr as (-> & _ & Happ).
      split_and!; [done | by cbn [stops] in *|]. intros t Ht.
      cbn [app match_exp]. rewrite He, Hsg.
      change (d :: ds ++ t) with ((d :: ds) ++ t). rewrite (Happ t (Hdigits t Ht)). done.
    + destruct (take_digits (sg :: r')) as [[|d ds] rest] eqn:Hr; intros [= <- <-];
        [by auto|].
      pose proof Hr as Hr'. apply take_digits_spec in Hr' as (Hsplit & _ & Happ).
      injection Hsplit as -> ->.
      split_and!; [done | by cbn [stops] in *|]. intros t Ht.
      cbn [app match_exp]. rewrite He, Hsg.
      change (d :: ds ++ t) with ((d :: ds) ++ t). rewrite (Happ t (Hdigits t Ht)). done.
Qed.

Lemma number_stop_after_exp t : number_stop t = true -> stops after_exp t = true.
Proof.
  destruct t as [|c t]; [done|]. unfold number_stop, stops, continues_number, after_exp.
  destruct (is_digit c), (c =? ch "."), (c =? ch "e"), (c =? ch "E"); done.
Qed.

Lemma number_stop_after_frac t : number_stop t = true -> stops after_frac t = true.
Proof.
  destruct t as [|c t]; [done|]. unfold number_stop, stops, continues_number, after_frac.
  destruct (is_digit c), (c =? ch "."), (c =? ch "e"), (c =? ch "E"); done.
Qed.

Lemma stops_app bad a t :
  stops bad a = true -> stops bad t = true -> stops bad (a ++ t) = true.
Proof. by destruct a. Qed.

Lemma after_frac_digit t : stops after_frac t = true -> stops is_digit t = true.
Proof.
  destruct t as [|c t]; [done|]. unfold stops, after_frac. by destruct (is_digit c).
Qed.

Section WithRuntime.
Context `{PyRuntime}.

(** A number is read the same way in front of any text that cannot
    continue it. *)
Lemma match_number_stable s v r :
  match_number s = Some (inr (v, r)) ->
  exists c p,
    s = c :: p ++ r /\ (c = ch "-" \/ is_digit c = true) /\
    forall t, number_stop t = true -> match_number (c :: p ++ t) = Some (inr (v, t)).
Proof.
  unfold match_number at 1.
  destruct (match_integer s) as [[[neg digits] s1]|] eqn:Hint; [|discriminate].
  destruct (match_frac s1) as [frac s2] eqn:Hfrac.
  destruct (match_exp s2) as [exp s3] eqn:Hexp.
  apply match_integer_stable in Hint as (c & p & -> & Hc & Hint).
  apply match_frac_stable in Hfrac as (-> & Hfrac_stop & Hfrac).
  apply match_exp_stable in Hexp as (-> & Hexp_stop & Hexp).
  intros Hv.
  assert (s3 = r /\
          (frac = [] -> exp = [] -> too_many_digits digits = false) /\
          v = match frac, exp with
              | [], [] => VInt (if neg then - int_of_digits digits else int_of_digits digits)
              | _, _ => VFloat (((if neg then [ch "-"] else []) ++ digits) ++ frac ++ exp)
              end) as (-> & Hdigits & ->).
  { destruct frac, exp; try destruct (too_many_digits digits); simplify_eq;
      split_and!; done. }
  exists c, (p ++ frac ++ exp). split_and!; [by rewrite <- !app_assoc | done |].
  intros t Ht. unfold match_number.
  replace (c :: (p ++ frac ++ exp) ++ t) with (c :: p ++ frac ++ exp ++ t)
    by (by rewrite <- !app_assoc).
  pose proof (number_stop_after_exp t Ht) as Ht_exp.
  pose proof (number_stop_after_frac t Ht) as Ht_frac.
  rewrite Hint.
  2:{ apply stops_app; [done|]. apply after_frac_digit.
      apply stops_app; [done | done]. }
  rewrite Hfrac by (by apply stops_app).
  rewrite (Hexp t Ht_exp).
  destruct frac, exp; try done. by rewrite Hdigits.
Qed.

Lemma startswith_split p s :
  PyStr.startswith p s = true -> s = p ++ drop (length p) s.
Proof.
  revert s. induction p as [|x p IH]; intros [|y s]; cbn [PyStr.startswith]; try done.
  intros [->%N.eqb_eq Hs]%andb_true_iff. cbn [app length drop]. f_equal. by apply IH.
Qed.

Lemma strip_prefix_split lit s r : strip_prefix lit s = Some r -> s = lit ++ r.
Proof.
  unfold strip_prefix. destruct (PyStr.startswith lit s) eqn:Hs; [|discriminate].
  intros [= <-]. by apply startswith_split.
Qed.

Lemma strip_prefix_other_head c lit x y :
  c ≠ x -> strip_prefix (c :: lit) (x :: y) = None.
Proof.
  intros Hc. unfold strip_prefix. cbn [PyStr.startswith].
  apply N.eqb_neq in Hc. by rewrite Hc.
Qed.

(** Literals and numbers are read the same way in front of any text that
    cannot continue a number. *)
Lemma scan_atom_stable s v r :
  scan_atom s = inr (v, r) ->
  exists p,
    s = p ++ r /\ p ≠ [] /\
    forall t, number_stop t = true -> scan_atom (p ++ t) = inr (v, t).
Proof.
  unfold scan_atom at 1.
  destruct (strip_prefix (py "null") s) as [r0|] eqn:Hnull.
  { intros [= <- <-]. apply strip_prefix_split in Hnull as ->.
    exists (py "null"). split_and!; try done. }
  destruct (strip_prefix (py "true") s) as [r0|] eqn:Htrue.
  { intros [= <- <-]. apply strip_prefix_split in Htrue as ->.
    exists (py "true"). split_and!; try done. }
  destruct (strip_prefix (py "false") s) as [r0|] eqn:Hfalse.
  { intros [= <- <-]. apply strip_prefix_split in Hfalse as ->.
    exists (py "false"). split_and!; try done. }
  destruct (match_number s) as [res|] eqn:Hnumber.
  { intros [= ->]. apply match_number_stable in Hnumber as (c & p & -> & Hc & Hnumber).
    exists (c :: p). split_and!; try done. intros t Ht.
    unfold scan_atom. cbn [app].
    assert (forall x lit, is_digit x = false -> x ≠ ch "-" ->
                          strip_prefix (x :: lit) (c :: p ++ t) = None) as Hlit.
    { intros x lit Hx Hminus. apply strip_prefix_other_head.
      intros <-. destruct Hc as [->|Hc]; [done | congruence]. }
    change (py "null") with (ch "n" :: py "ull").
    change (py "true") with (ch "t" :: py "rue").
    change (py "false") with (ch "f" :: py "alse").
    rewrite !Hlit by done. by rewrite (Hnumber t Ht). }
  destruct (strip_prefix (py "NaN") s) as [r0|] eqn:Hnan.
  { intros [= <- <-]. apply strip_prefix_split in Hnan as ->.
    exists (py "NaN"). split_and!; try done. }
  destruct (strip_prefix (py "Infinity") s) as [r0|] eqn:Hinf.
  { intros [= <- <-]. apply strip_prefix_split in Hinf as ->.
    exists (py "Infinity"). split_and!; try done. }
  destruct (strip_prefix (py "-Infinity") s) as [r0|] eqn:Hninf; [|discriminate].
  intros [= <- <-]. apply strip_prefix_split in Hninf as ->.
  exists (py "-Infinity"). split_and!; try done.
Qed.

Lemma prepend_some c res content r :
  prepend c res = Some (content, r) ->
  exists content', res = Some (content', r) /\ content = c :: content'.
Proof.
  destruct res as [[content' r']|]; [|discriminate]. intros [= <- <-]. eauto.
Qed.

Lemma scanstring_u h1 h2 h3 h4 r2 :
  scanstring (ch "\" :: ch "u" :: h1 :: h2 :: h3 :: h4 :: r2)
  = match hex4 h1 h2 h3 h4 with
    | None => None
    | Some uni => after_u uni r2
    end.
Proof. reflexivity. Qed.

Lemma after_u_no_join uni x :
  no_join uni x -> after_u uni x = prepend uni (scanstring x).
Proof.
  unfold no_join, after_u. destruct x as [|b [|u x']]; try done.
  intros [-> | (g1 & g2 & g3 & g4 & r3 & uni2 & -> & -> & ->)]; [done|].
  by destruct (_ && _).
Qed.

(** A complete string tail [p] decides by itself whether the escape it
    starts with is joined. *)
Lemma no_join_stable uni p r t content :
  scanstring p = Some (content, []) ->
  no_join uni (p ++ r) -> no_join uni (p ++ t).
Proof.
  destruct p as [|b [|u x]].
  - discriminate.
  - intros Hp _. cbn [app]. unfold no_join. destruct t as [|u t]; [done|]. left.
    destruct (N.eqb_spec b (ch "\")) as [->|]; [discriminate Hp|].
    by rewrite andb_false_r.
  - intros Hp. cbn [app no_join].
    intros [Hcond | (g1 & g2 & g3 & g4 & r3 & uni2 & Hx & Hhex & Hlow)]; [by left|].
    destruct (is_high_surrogate uni && (b =? ch "\") && (u =? ch "u")) eqn:Hcond;
      [|by left].
    right. apply andb_true_iff in Hcond as [[_ ->%N.eqb_eq]%andb_true_iff ->%N.eqb_eq].
    destruct x as [|g1' [|g2' [|g3' [|g4' x']]]]; try discriminate Hp.
    cbn [app] in Hx. injection Hx as -> -> -> -> <-.
    exists g1, g2, g3, g4, (x' ++ t), uni2. done.
Qed.

(** A string is read the same way whatever follows its closing quote. *)
Lemma scanstring_stable s content r :
  scanstring s = Some (content, r) ->
  exists p, s = p ++ r /\ p ≠ [] /\ forall t, scanstring (p ++ t) = Some (content, t).
Proof.
  remember (length s) as n eqn:Hn. revert s content r Hn.
  induction (lt_wf n) as [n _ IH]. intros s content r ->.
  assert (Hrec : forall x c content r,
             (length x < length s)%nat ->
             prepend c (scanstring x) = Some (content, r) ->
             exists p content',
               x = p ++ r /\ p ≠ [] /\ content = c :: content' /\
               forall t, scanstring (p ++ t) = Some (content', t)).
  { intros x c content0 r0 Hlen (content' & Hx & ->)%prepend_some.
    destruct (IH (length x) Hlen x content' r0 eq_refl Hx) as (p & -> & Hp & Happ).
    eauto 10. }
  destruct s as [|c rest]; [discriminate|]. cbn [scanstring].
  destruct (c =? dquote) eqn:Hquote.
  { intros [= <- <-]. exists [c]. split_and!; try done.
    intros t. cbn [app scanstring]. by rewrite Hquote. }
  destruct (c =? ch "\") eqn:Hback.
  - apply N.eqb_eq in Hback as ->.
    destruct rest as [|esc r1]; [discriminate|].
    destruct (esc =? ch "u") eqn:Hu.
    + apply N.eqb_eq in Hu as ->.
      destruct r1 as [|h1 [|h2 [|h3 [|h4 r2]]]]; try discriminate.
      destruct (hex4 h1 h2 h3 h4) as [uni|] eqn:Hhex; [|discriminate].
      fold (after_u uni r2). intros Hafter.
      assert (exists p2, r2 = p2 ++ r /\
                forall t, after_u uni (p2 ++ t) = Some (content, t))
        as (p2 & -> & Happ).
      { assert (no_join uni r2 ->
                exists p2, r2 = p2 ++ r /\
                  forall t, after_u uni (p2 ++ t) = Some (content, t)) as Hplain.
        { intros Hno. rewrite after_u_no_join in Hafter by done.
          apply Hrec in Hafter as (p2 & content' & -> & Hp2 & -> & Happ);
            [|cbn [length]; lia].
          exists p2. split; [done|]. intros t.
          rewrite after_u_no_join, Happ; [done|].
          eapply no_join_stable; [|exact Hno].
          specialize (Happ []). by rewrite app_nil_r in Happ. }
        unfold after_u in Hafter. destruct r2 as [|b [|u r2']]; try by apply Hplain.
        destruct (is_high_surrogate uni && (b =? ch "\") && (u =? ch "u")) eqn:Hcond;
          [|apply Hplain; by left].
        destruct r2' as [|g1 [|g2 [|g3 [|g4 r3]]]]; try discriminate.
        destruct (hex4 g1 g2 g3 g4) as [uni2|] eqn:Hhex2; [|discriminate].
        destruct (is_low_surrogate uni2) eqn:Hlow.
        - apply Hrec in Hafter as (p3 & content' & -> & Hp3 & -> & Happ);
            [|cbn [length]; lia].
          exists (b :: u :: g1 :: g2 :: g3 :: g4 :: p3). split; [done|].
          intros t. cbn [app after_u]. by rewrite Hcond, Hhex2, Hlow, Happ.
        - apply Hplain. right. exists g1, g2, g3, g4, r3, uni2. done. }
      exists (ch "\" :: ch "u" :: h1 :: h2 :: h3 :: h4 :: p2).
      split_and!; try done. intros t. cbn [app]. by rewrite scanstring_u, Hhex.
    + destruct (BACKSLASH esc) as [c'|] eqn:Hesc; [|discriminate].
      intros Hstep. apply Hrec in Hstep as (p & content' & -> & Hp & -> & Happ);
        [|cbn [length]; lia].
      exists (ch "\" :: esc :: p). split_and!; try done.
      intros t. cbn [app scanstring].
      change (ch "\" =? dquote) with false. change (ch "\" =? ch "\") with true.
      cbv iota. by rewrite Hu, Hesc, Happ.
  - destruct (c <? 32) eqn:Hctrl; [discriminate|].
    intros Hstep. apply Hrec in Hstep as (p & content' & -> & Hp & -> & Happ);
      [|cbn [length]; lia].
    exists (c :: p). split_and!; try done.
    intros t. cbn [app scanstring]. by rewrite Hquote, Hback, Hctrl, Happ.
Qed.

(** More fuel does not change a value that was decoded. *)
Lemma fuel_step fuel :
  (forall depth s res,
     scan_once fuel depth s = inr res -> scan_once (S fuel) depth s = inr res) /\
  (forall depth s pairs res,
     object_loop fuel depth s pairs = inr res ->
     object_loop (S fuel) depth s pairs = inr res) /\
  (forall depth s values res,
     array_loop fuel depth s values = inr res ->
     array_loop (S fuel) depth s values = inr res).
Proof.
  induction fuel as [|fuel (IHscan & IHobject & IHarray)]; [done|].
  remember (S fuel) as fuel' eqn:Hfuel'. split_and!.
  - intros depth s res. rewrite Hfuel' at 1. cbn [scan_once].
    destruct s as [|c r]; [done|].
    destruct (c =? dquote); [done|].
    destruct (c =? ch "{").
    { destruct depth as [|depth]; [done|].
      destruct (skip_ws r) as [|c1 r1]; [done|].
      destruct (c1 =? ch "}"); [done|]. destruct (c1 =? dquote); [|done]. apply IHobject. }
    destruct (c =? ch "["); [|done].
    destruct depth as [|depth]; [done|].
    destruct (skip_ws r) as [|c1 r1]; [done|].
    destruct (c1 =? ch "]"); [done|]. apply IHarray.
  - intros depth s pairs res. rewrite Hfuel' at 1. cbn [object_loop].
    destruct (scanstring s) as [[key s1]|]; [|done].
    destruct (skip_ws s1) as [|colon s2]; [done|].
    destruct (colon =? ch ":"); [|done].
    destruct (scan_once fuel depth (skip_ws s2)) as [e|[v s3]] eqn:Hv; [done|].
    rewrite (IHscan _ _ _ Hv).
    destruct (skip_ws s3) as [|nextchar s4]; [done|].
    destruct (nextchar =? ch "}"); [done|]. destruct (nextchar =? ch ","); [|done].
    destruct (skip_ws s4) as [|q s5]; [done|].
    destruct (q =? dquote); [|done]. apply IHobject.
  - intros depth s values res. rewrite Hfuel' at 1. cbn [array_loop].
    destruct (scan_once fuel depth s) as [e|[v s1]] eqn:Hv; [done|].
    rewrite (IHscan _ _ _ Hv).
    destruct (skip_ws s1) as [|nextchar s2]; [done|].
    destruct (nextchar =? ch "]"); [done|]. destruct (nextchar =? ch ","); [|done].
    apply IHarray.
Qed.

Lemma scan_once_fuel fuel fuel' depth s res :
  (fuel <= fuel')%nat ->
  scan_once fuel depth s = inr res -> scan_once fuel' depth s = inr res.
Proof.
  induction 1 as [|fuel' _ IH]; [done|]. intros Hs. by apply fuel_step, IH.
Qed.

Lemma is_ws_not_number c : is_ws c = true -> continues_number c = false.
Proof.
  unfold is_ws. rewrite !orb_true_iff, !N.eqb_eq.
  intros [[[-> | ->] | ->] | ->]; reflexivity.
Qed.

Lemma separator_stops w c x :
  forallb is_ws w = true -> continues_number c = false ->
  number_stop (w ++ c :: x) = true.
Proof.
  destruct w as [|h w]; cbn [app number_stop forallb].
  - by intros _ ->.
  - intros [Hh _]%andb_true_iff _. by rewrite is_ws_not_number.
Qed.

Ltac reassoc := repeat (rewrite <- app_assoc || rewrite <- app_comm_cons).

Lemma scan_stable_step fuel :
  object_stable_at fuel -> array_stable_at fuel -> scan_stable_at (S fuel).
Proof.
  intros IHobject IHarray depth s v r. cbn [scan_once].
  destruct s as [|c r0]; [discriminate|].
  destruct (c =? dquote) eqn:Hquote.
  { destruct (scanstring r0) as [[content rest]|] eqn:Hstring; [|discriminate].
    intros [= <- <-]. apply scanstring_stable in Hstring as (p & -> & Hp & Happ).
    exists (c :: p). split_and!; try done.
    - cbn [bracketed]. apply N.eqb_eq in Hquote as ->. discriminate.
    - intros t _. cbn [app scan_once]. by rewrite Hquote, Happ. }
  destruct (c =? ch "{") eqn:Hbrace.
  { destruct depth as [|depth]; [discriminate|].
    destruct (skip_ws r0) as [|c1 r1] eqn:Hskip; [discriminate|].
    apply skip_ws_found in Hskip as (w & -> & Hw & Hc1 & Hskip).
    destruct (c1 =? ch "}") eqn:Hclose.
    - intros [= <- <-]. apply N.eqb_eq in Hclose as ->.
      exists (c :: w ++ [ch "}"]). split_and!.
      + by reassoc.
      + done.
      + intros _. by exists (c :: w), (ch "}"); auto.
      + intros t _. reassoc. cbn [app scan_once]. by rewrite Hquote, Hbrace, Hskip.
    - destruct (c1 =? dquote) eqn:Hkey; [|discriminate].
      intros (p & -> & Happ)%IHobject.
      exists (c :: w ++ c1 :: p ++ [ch "}"]). split_and!.
      + by reassoc.
      + done.
      + intros _. exists (c :: w ++ c1 :: p), (ch "}"). split; [by reassoc | auto].
      + intros t _. reassoc. cbn [app scan_once].
        by rewrite Hquote, Hbrace, Hskip, Hclose, Hkey, Happ. }
  destruct (c =? ch "[") eqn:Hbracket.
  { destruct depth as [|depth]; [discriminate|].
    destruct (skip_ws r0) as [|c1 r1] eqn:Hskip; [discriminate|].
    apply skip_ws_found in Hskip as (w & -> & Hw & Hc1 & Hskip).
    destruct (c1 =? ch "]") eqn:Hclose.
    - intros [= <- <-]. apply N.eqb_eq in Hclose as ->.
      exists (c :: w ++ [ch "]"]). split_and!.
      + by reassoc.
      + done.
      + intros _. by exists (c :: w), (ch "]"); auto.
      + intros t _. reassoc. cbn [app scan_once]. by rewrite Hquote, Hbrace, Hbracket, Hskip.
    - intros (p & Hsplit & Happ)%IHarray.
      destruct p as [|c1' p].
      { cbn [app] in Hsplit. injection Hsplit as -> _.
        change (ch "]" =? ch "]") with true in Hclose. discriminate. }
      cbn [app] in Hsplit. injection Hsplit as <- ->.
      exists (c :: w ++ c1 :: p ++ [ch "]"]). split_and!.
      + by reassoc.
      + done.
      + intros _. exists (c :: w ++ c1 :: p), (ch "]"). split; [by reassoc | auto].
      + intros t _. reassoc. cbn [app scan_once].
        rewrite Hquote, Hbrace, Hbracket, Hskip, Hclose. apply (Happ t). }
  intros (p & Hsplit & Hp & Happ)%scan_atom_stable.
  destruct p as [|c' p]; [done|]. cbn [app] in Hsplit. injection Hsplit as <- ->.
  exists (c :: p). split_and!; try done.
  - cbn [bracketed]. by rewrite Hbrace, Hbracket.
  - intros t Ht. cbn [composite] in Ht. rewrite Hquote, Hbrace, Hbracket in Ht.
    cbn [app scan_once]. rewrite Hquote, Hbrace, Hbracket. by apply Happ.
Qed.

(** What [skip_ws] skips in front of a value stays skipped, whatever
    follows the value. *)
Lemma skip_ws_before s p r :
  skip_ws s = p ++ r -> p ≠ [] ->
  exists w, s = w ++ p ++ r /\ forall x, skip_ws (w ++ p ++ x) = p ++ x.
Proof.
  destruct p as [|c p]; [done|]. intros Hs _. cbn [app] in *.
  apply skip_ws_found in Hs as (w & -> & _ & _ & Hskip). eauto.
Qed.

Lemma array_stable_step fuel :
  scan_stable_at fuel -> array_stable_at fuel -> array_stable_at (S fuel).
Proof.
  intros IHscan IHarray depth s values v r. cbn [array_loop].
  destruct (scan_once fuel depth s) as [e|[item s1]] eqn:Hitem; [discriminate|].
  apply IHscan in Hitem as (pv & -> & Hpv & _ & Hitem).
  destruct (skip_ws s1) as [|nextchar s2] eqn:Hskip; [discriminate|].
  apply skip_ws_found in Hskip as (w1 & -> & Hw1 & Hnext & Hskip).
  destruct (nextchar =? ch "]") eqn:Hclose.
  - intros [= <- <-]. apply N.eqb_eq in Hclose as ->.
    exists (pv ++ w1). split; [by reassoc|].
    intros t. reassoc. cbn [array_loop].
    rewrite Hitem, Hskip; [done|].
    rewrite separator_stops by done. apply orb_true_r.
  - destruct (nextchar =? ch ",") eqn:Hcomma; [|discriminate].
    apply N.eqb_eq in Hcomma as ->.
    intros (p2 & Hsplit & Hrest)%IHarray.
    assert (exists w2, s2 = w2 ++ p2 ++ ch "]" :: r /\
              forall x, skip_ws (w2 ++ p2 ++ ch "]" :: x) = p2 ++ ch "]" :: x)
      as (w2 & -> & Hskip2).
    { destruct p2 as [|c2 p2]; cbn [app] in *;
        apply skip_ws_found in Hsplit as (w2 & -> & _ & _ & Hskip2); eauto. }
    exists (pv ++ w1 ++ ch "," :: w2 ++ p2). split; [by reassoc|].
    intros t. reassoc. cbn [array_loop].
    rewrite Hitem, Hskip, Hclose.
    + change (ch "," =? ch ",") with true. cbv iota. by rewrite Hskip2.
    + rewrite separator_stops by done. apply orb_true_r.
Qed.

Lemma object_stable_step fuel :
  scan_stable_at fuel -> object_stable_at fuel -> object_stable_at (S fuel).
Proof.
  intros IHscan IHobject depth s pairs v r. cbn [object_loop].
  destruct (scanstring s) as [[key s1]|] eqn:Hkey; [|discriminate].
  apply scanstring_stable in Hkey as (pk & -> & _ & Hkey).
  destruct (skip_ws s1) as [|colon s2] eqn:Hskip1; [discriminate|].
  apply skip_ws_found in Hskip1 as (w1 & -> & _ & _ & Hskip1).
  destruct (colon =? ch ":") eqn:Hcolon; [|discriminate].
  destruct (scan_once fuel depth (skip_ws s2)) as [e|[item s3]] eqn:Hitem; [discriminate|].
  apply IHscan in Hitem as (pv & Hsplit & Hpv & _ & Hitem).
  apply skip_ws_before in Hsplit as (w2 & -> & Hskip2); [|done].
  destruct (skip_ws s3) as [|nextchar s4] eqn:Hskip3; [discriminate|].
  apply skip_ws_found in Hskip3 as (w3 & -> & Hw3 & _ & Hskip3).
  destruct (nextchar =? ch "}") eqn:Hclose.
  - intros [= <- <-]. apply N.eqb_eq in Hclose as ->.
    exists (pk ++ w1 ++ colon :: w2 ++ pv ++ w3). split; [by reassoc|].
    intros t. reassoc. cbn [object_loop].
    rewrite Hkey, Hskip1, Hcolon, Hskip2, Hitem, Hskip3; [done|].
    rewrite separator_stops by done. apply orb_true_r.
  - destruct (nextchar =? ch ",") eqn:Hcomma; [|discriminate].
    apply N.eqb_eq in Hcomma as ->.
    destruct (skip_ws s4) as [|q s5] eqn:Hskip4; [discriminate|].
    apply skip_ws_found in Hskip4 as (w4 & -> & _ & _ & Hskip4).
    destruct (q =? dquote) eqn:Hq; [|discriminate].
    intros (p5 & -> & Hrest)%IHobject.
    exists (pk ++ w1 ++ colon :: w2 ++ pv ++ w3 ++ ch "," :: w4 ++ q :: p5).
    split; [by reassoc|].
    intros t. reassoc. cbn [object_loop].
    rewrite Hkey, Hskip1, Hcolon, Hskip2, Hitem, Hskip3, Hclose.
    + change (ch "," =? ch ",") with true. cbv iota. by rewrite Hskip4, Hq, Hrest.
    + rewrite separator_stops by done. apply orb_true_r.
Qed.

Lemma scan_stable fuel :
  scan_stable_at fuel /\ object_stable_at fuel /\ array_stable_at fuel.
Proof.
  induction fuel as [|fuel (IHscan & IHobject & IHarray)].
  - split_and!; intros ?; intros; discriminate.
  - split_and!.
    + by apply scan_stable_step.
    + by apply object_stable_step.
    + by apply array_stable_step.
Qed.

(** An object or an array that [raw_decode] reads to the end of a text is
    read the same way in front of any other text, and ends in its closing
    bracket. *)
Lemma raw_decode_ignores_rest v obj t :
  bracketed v = true ->
  raw_decode v = inr (obj, []) ->
  raw_decode (v ++ t) = inr (obj, t) /\ closed v.
Proof.
  intros Hv. unfold raw_decode. intros Hdecode.
  destruct (scan_stable (2 * length v + 1)) as (Hscan & _ & _).
  apply Hscan in Hdecode as (p & Hsplit & _ & Hclosed & Happ).
  rewrite app_nil_r in Hsplit. subst p. split; [|by apply Hclosed].
  apply (scan_once_fuel (2 * length v + 1)); [rewrite length_app; lia|].
  apply Happ. destruct v as [|c v]; [done|]. cbn [bracketed composite] in *.
  apply orb_true_iff in Hv as [-> | ->]; by rewrite ?orb_true_r.
Qed.

(** At a character with which no JSON value starts the decoder raises
    [JSONDecodeError]. *)
Lemma raw_decode_not_a_value c s :
  value_start c = false -> raw_decode (c :: s) = inl JSONDecodeError.
Proof.
  unfold value_start. rewrite !orb_false_iff.
  intros (((((((((Hquote & Hbrace) & Hbracket) & Hminus) & Hdigit) & Hn) & Ht) & Hf)
            & HN) & HI).
  unfold raw_decode. cbn [length Nat.mul Nat.add scan_once].
  rewrite Nat.add_comm. cbn [Nat.add scan_once]. rewrite Hquote, Hbrace, Hbracket.
  unfold scan_atom.
  assert (forall x lit, (c =? x) = false -> strip_prefix (x :: lit) (c :: s) = None)
    as Hlit.
  { intros x lit Hx. apply strip_prefix_other_head. intros <-.
    by rewrite N.eqb_refl in Hx. }
  change (py "null") with (ch "n" :: py "ull").
  change (py "true") with (ch "t" :: py "rue").
  change (py "false") with (ch "f" :: py "alse").
  change (py "NaN") with (ch "N" :: py "aN").
  change (py "Infinity") with (ch "I" :: py "nfinity").
  change (py "-Infinity") with (ch "-" :: py "Infinity").
  rewrite !Hlit by done.
  unfold match_number, match_integer. rewrite Hminus, Hdigit.
  destruct (N.eqb_spec c (ch "0")) as [->|]; [discriminate Hdigit | done].
Qed.

Lemma skip_ws_length s : (length (skip_ws s) <= length s)%nat.
Proof.
  unfold skip_ws. destruct (drop_while_split is_ws s) as (w & Hs & _).
  rewrite Hs at 2. rewrite length_app. lia.
Qed.

Lemma skip_ws_shorter s c r : skip_ws s = c :: r -> (length r < length s)%nat.
Proof.
  intros Hs. pose proof (skip_ws_length s) as Hlen. rewrite Hs in Hlen.
  cbn [length] in Hlen. lia.
Qed.

Lemma scanstring_shorter s content r :
  scanstring s = Some (content, r) -> (length r < length s)%nat.
Proof.
  intros (p & -> & Hp & _)%scanstring_stable. rewrite length_app.
  destruct p; [done|]. cbn [length]. lia.
Qed.

Lemma scan_once_shorter fuel depth s v r :
  scan_once fuel depth s = inr (v, r) -> (length r < length s)%nat.
Proof.
  destruct (scan_stable fuel) as (Hscan & _ & _).
  intros (p & -> & Hp & _)%Hscan. rewrite length_app.
  destruct p; [done|]. cbn [length]. lia.
Qed.

(** On a text of length [n], fuel beyond [2 * n + 1] changes nothing. *)
Lemma fuel_enough_step fuel :
  (forall depth s, (2 * length s <= fuel)%nat ->
     scan_once (S fuel) depth s = scan_once fuel depth s) /\
  (forall depth s pairs, (2 * length s + 1 <= fuel)%nat ->
     object_loop (S fuel) depth s pairs = object_loop fuel depth s pairs) /\
  (forall depth s values, (2 * length s + 1 <= fuel)%nat ->
     array_loop (S fuel) depth s values = array_loop fuel depth s values).
Proof.
  induction fuel as [|fuel (IHscan & IHobject & IHarray)].
  - split_and!; [|intros; lia..]. intros depth [|c s]; [done|]. cbn [length]. lia.
  - remember (S fuel) as fuel' eqn:Hfuel'. split_and!.
    + intros depth s Hlen. rewrite Hfuel' at 2. cbn [scan_once].
      destruct s as [|c r]; [done|]. cbn [length] in Hlen.
      destruct (c =? dquote); [done|].
      destruct (c =? ch "{").
      { destruct depth as [|depth]; [done|].
        destruct (skip_ws r) as [|c1 r1] eqn:Hr; [done|].
        destruct (c1 =? ch "}"); [done|]. destruct (c1 =? dquote); [|done].
        apply skip_ws_shorter in Hr. subst fuel'. apply IHobject. lia. }
      destruct (c =? ch "["); [|done].
      destruct depth as [|depth]; [done|].
      destruct (skip_ws r) as [|c1 r1] eqn:Hr; [done|].
      destruct (c1 =? ch "]"); [done|].
      pose proof (skip_ws_length r) as Hskip. rewrite Hr in Hskip.
      subst fuel'. apply IHarray. lia.
    + intros depth s pairs Hlen. rewrite Hfuel' at 2. cbn [object_loop].
      destruct (scanstring s) as [[key s1]|] eqn:Hkey; [|done].
      destruct (skip_ws s1) as [|colon s2] eqn:Hcolon; [done|].
      destruct (colon =? ch ":"); [|done].
      apply scanstring_shorter in Hkey. apply skip_ws_shorter in Hcolon.
      pose proof (skip_ws_length s2) as Hs2.
      subst fuel'. rewrite IHscan by lia.
      destruct (scan_once fuel depth (skip_ws s2)) as [e|[v s3]] eqn:Hv; [done|].
      apply scan_once_shorter in Hv.
      destruct (skip_ws s3) as [|nextchar s4] eqn:Hnext; [done|].
      destruct (nextchar =? ch "}"); [done|]. destruct (nextchar =? ch ","); [|done].
      destruct (skip_ws s4) as [|q s5] eqn:Hq; [done|].
      destruct (q =? dquote); [|done].
      apply skip_ws_shorter in Hnext, Hq. apply IHobject. lia.
    + intros depth s values Hlen. rewrite Hfuel' at 2. cbn [array_loop].
      subst fuel'. rewrite IHscan by lia.
      destruct (scan_once fuel depth s) as [e|[v s1]] eqn:Hv; [done|].
      apply scan_once_shorter in Hv.
      destruct (skip_ws s1) as [|nextchar s2] eqn:Hnext; [done|].
      destruct (nextchar =? ch "]"); [done|]. destruct (nextchar =? ch ","); [|done].
      apply skip_ws_shorter in Hnext. pose proof (skip_ws_length s2) as Hs2.
      apply IHarray. lia.
Qed.

(** The fuel of [raw_decode] is enough: with any larger amount the decoder
    gives the same result, so that running out of fuel is never the reason
    for a [JSONDecodeError]. *)
Lemma raw_decode_fuel fuel s :
  (2 * length s + 1 <= fuel)%nat -> scan_once fuel recursion_limit s = raw_decode s.
Proof.
  unfold raw_decode. induction 1 as [|fuel Hle IH]; [done|].
  rewrite <- IH. apply fuel_enough_step. lia.
Qed.

(** The decoder raises nothing but [JSONDecodeError] and the errors of the
    two limits. *)
Lemma scan_atom_error s e : scan_atom s = inl e -> decoder_error e.
Proof.
  unfold scan_atom, decoder_error.
  repeat match goal with
         | |- context [strip_prefix ?lit s] => destruct (strip_prefix lit s); [discriminate|]
         | |- context [match_number s] =>
           unfold match_number;
           destruct (match_integer s) as [[[neg digits] s1]|];
           [destruct (match_frac s1) as [frac s2], (match_exp s2) as [exp s3];
            destruct frac, exp; try discriminate;
            destruct (too_many_digits digits); [|discriminate];
            intros [= <-]; auto|]
         end.
  intros [= <-]. auto.
Qed.

Lemma scan_error fuel :
  (forall depth s e, scan_once fuel depth s = inl e -> decoder_error e) /\
  (forall depth s pairs e, object_loop fuel depth s pairs = inl e -> decoder_error e) /\
  (forall depth s values e, array_loop fuel depth s values = inl e -> decoder_error e).
Proof.
  assert (decoder_error JSONDecodeError) as Hjson by (by left).
  assert (decoder_error RecursionError) as Hdeep by (right; by left).
  induction fuel as [|fuel (IHscan & IHobject & IHarray)].
  { split_and!; intros; cbn in *; by simplify_eq. }
  split_and!.
  - intros depth s e. cbn [scan_once].
    destruct s as [|c r]; [by intros [= <-]|].
    destruct (c =? dquote).
    { destruct (scanstring r) as [[content rest]|]; [discriminate | by intros [= <-]]. }
    destruct (c =? ch "{").
    { destruct depth as [|depth]; [by intros [= <-]|].
      destruct (skip_ws r) as [|c1 r1]; [by intros [= <-]|].
      destruct (c1 =? ch "}"); [discriminate|].
      destruct (c1 =? dquote); [apply IHobject | by intros [= <-]]. }
    destruct (c =? ch "["); [|apply scan_atom_error].
    destruct depth as [|depth]; [by intros [= <-]|].
    destruct (skip_ws r) as [|c1 r1]; [by intros [= <-]|].
    destruct (c1 =? ch "]"); [discriminate | apply IHarray].
  - intros depth s pairs e. cbn [object_loop].
    destruct (scanstring s) as [[key s1]|]; [|by intros [= <-]].
    destruct (skip_ws s1) as [|colon s2]; [by intros [= <-]|].
    destruct (colon =? ch ":"); [|by intros [= <-]].
    destruct (scan_once fuel depth (skip_ws s2)) as [e'|[v s3]] eqn:Hv.
    { intros [= <-]. by eapply IHscan. }
    destruct (skip_ws s3) as [|nextchar s4]; [by intros [= <-]|].
    destruct (nextchar =? ch "}"); [discriminate|].
    destruct (nextchar =? ch ","); [|by intros [= <-]].
    destruct (skip_ws s4) as [|q s5]; [by intros [= <-]|].
    destruct (q =? dquote); [apply IHobject | by intros [= <-]].
  - intros depth s values e. cbn [array_loop].
    destruct (scan_once fuel depth s) as [e'|[v s1]] eqn:Hv.
    { intros [= <-]. by eapply IHscan. }
    destruct (skip_ws s1) as [|nextchar s2]; [by intros [= <-]|].
    destruct (nextchar =? ch "]"); [discriminate|].
    destruct (nextchar =? ch ","); [apply IHarray | by intros [= <-]].
Qed.

Lemma raw_decode_error s e : raw_decode s = inl e -> decoder_error e.
Proof. unfold raw_decode. apply scan_error. Qed.

End WithRuntime.

End JsonFacts.

(** ** The bracket-balance scan *)

Module ExtractFacts.
Import VastAIClient Brackets.

Lemma is_open_cases c : is_open c = true <-> c = ch "{" \/ c = ch "[".
Proof.
  unfold is_open, PyStr.char_in. literals. simpl.
  rewrite !orb_true_iff, !N.eqb_eq. intuition discriminate.
Qed.

Lemma find_none_app c a b :
  PyStr.find c a = None ->
  PyStr.find c (a ++ b) = option_map (Nat.add (length a)) (PyStr.find c b).
Proof.
  induction a as [|x a IH]; simpl.
  - intros _. by destruct (PyStr.find c b).
  - destruct (x =? c); [discriminate|].
    destruct (PyStr.find c a); [discriminate|]. intros _.
    rewrite IH by done. by destruct (PyStr.find c b).
Qed.

Lemma find_no_open c a : is_open c = true -> no_open a -> PyStr.find c a = None.
Proof.
  intros Hc. unfold no_open. induction a as [|x a IH]; simpl; [done|].
  intros [Hx Ha]%andb_true_iff. destruct (N.eqb_spec x c) as [->|_].
  - by rewrite Hc in Hx.
  - by rewrite IH.
Qed.

Lemma scan_balanced_app chars t idx stack j :
  scan_balanced chars idx stack = Some j ->
  scan_balanced (chars ++ t) idx stack = Some j.
Proof.
  revert idx stack. induction chars as [|char chars IH]; intros idx stack;
    cbn [scan_balanced app length]; [discriminate|].
  destruct (PyStr.char_in char (py "{[")); [apply IH|].
  destruct (PyStr.char_in char (py "}]")); [|apply IH].
  destruct stack as [|top stack]; [done|].
  destruct (negb (top =? char)); [done|].
  destruct stack; [done | apply IH].
Qed.

Lemma scan_balanced_bound chars idx stack j :
  scan_balanced chars idx stack = Some j -> (idx <= j < idx + length chars)%nat.
Proof.
  revert idx stack. induction chars as [|char chars IH]; intros idx stack;
    cbn [scan_balanced app length]; [discriminate|].
  assert (forall stack', scan_balanced chars (S idx) stack' = Some j ->
                         (idx <= j < idx + S (length chars))%nat) as Hnext.
  { intros stack' Hs. apply IH in Hs. lia. }
  destruct (PyStr.char_in char (py "{[")); [apply Hnext|].
  destruct (PyStr.char_in char (py "}]")); [|apply Hnext].
  destruct stack as [|top stack]; [done|].
  destruct (negb (top =? char)); [done|].
  destruct stack; [|apply Hnext].
  intros [= <-]. lia.
Qed.

Lemma scan_balanced_shift chars k idx stack :
  scan_balanced chars (k + idx) stack
  = option_map (Nat.add k) (scan_balanced chars idx stack).
Proof.
  revert idx stack. induction chars as [|char chars IH]; intros idx stack;
    cbn [scan_balanced app length]; [done|].
  replace (S (k + idx)) with (k + S idx)%nat by lia.
  destruct (PyStr.char_in char (py "{[")); [apply IH|].
  destruct (PyStr.char_in char (py "}]")); [|apply IH].
  destruct stack as [|top stack]; [done|].
  destruct (negb (top =? char)); [done|].
  destruct stack; [done | apply IH].
Qed.

(** The index at which the scan starts in a text that begins with an
    opening bracket after [a], a text without one. *)
Lemma start_after_noise a o r :
  no_open a -> is_open o = true ->
  exists i others,
    omap (fun c => PyStr.find c (a ++ o :: r)) [ch "["; ch "{"] = i :: others /\
    fold_right Nat.min i others = length a.
Proof.
  intros Ha Ho. cbn [omap list_omap].
  assert (forall c, is_open c = true ->
             PyStr.find c (a ++ o :: r)
             = if o =? c then Some (length a)
               else option_map (fun k => length a + S k)%nat (PyStr.find c r)) as Hfind.
  { intros c Hc. rewrite find_none_app by by apply find_no_open.
    cbn [PyStr.find]. destruct (o =? c); simpl; [by rewrite Nat.add_0_r|].
    by destruct (PyStr.find c r). }
  rewrite !Hfind by (apply is_open_cases; auto).
  apply is_open_cases in Ho as [-> | ->].
  - change (ch "{" =? ch "[") with false. change (ch "{" =? ch "{") with true.
    cbv iota.
    destruct (PyStr.find (ch "[") r) as [k|]; cbn [option_map]; eexists _, _;
      (split; [done|]); simpl; lia.
  - change (ch "[" =? ch "[") with true. change (ch "[" =? ch "{") with false.
    cbv iota.
    destruct (PyStr.find (ch "{") r) as [k|]; cbn [option_map]; eexists _, _;
      (split; [done|]); simpl; lia.
Qed.

(** Text without an opening bracket in front of a bracketed text does not
    change what is extracted. *)
Lemma extract_skips_noise a o r :
  no_open a -> is_open o = true ->
  _extract_json_payload (a ++ o :: r) = _extract_json_payload (o :: r).
Proof.
  intros Ha Ho. unfold _extract_json_payload.
  destruct (start_after_noise a o r Ha Ho) as (i & others & -> & ->).
  destruct (start_after_noise [] o r eq_refl Ho) as (i' & others' & Hstart' & Hmin').
  simpl app in Hstart'. rewrite Hstart', Hmin'. simpl length.
  rewrite drop_app_length. change (drop 0 (o :: r)) with (o :: r).
  rewrite <- (Nat.add_0_r (length a)) at 1. rewrite scan_balanced_shift.
  destruct (scan_balanced (o :: r) 0 []) as [idx|]; simpl; [|done].
  do 2 f_equal. lia.
Qed.

(** Text after the extracted region does not change what is extracted. *)
Lemma extract_ignores_rest o r t cleaned :
  is_open o = true ->
  _extract_json_payload (o :: r) = Some cleaned ->
  _extract_json_payload ((o :: r) ++ t) = Some cleaned.
Proof.
  intros Ho. unfold _extract_json_payload.
  destruct (start_after_noise [] o r eq_refl Ho) as (i & others & Hstart & Hmin).
  destruct (start_after_noise [] o (r ++ t) eq_refl Ho) as (i' & others' & Hstart' & Hmin').
  simpl app in *. rewrite Hstart, Hmin, Hstart', Hmin'. simpl length.
  change (drop 0 (o :: r)) with (o :: r).
  change (drop 0 (o :: r ++ t)) with ((o :: r) ++ t).
  destruct (scan_balanced (o :: r) 0 []) as [idx|] eqn:Hscan; [|discriminate].
  rewrite (scan_balanced_app _ t _ _ _ Hscan).
  apply scan_balanced_bound in Hscan. intros [= <-]. f_equal.
  rewrite take_app_le by (simpl in *; lia). done.
Qed.

Lemma extract_no_open s : no_open s -> _extract_json_payload s = None.
Proof.
  intros Hs. unfold _extract_json_payload. cbn [omap list_omap].
  rewrite !find_no_open by (done || (apply is_open_cases; auto)). done.
Qed.

Lemma closer_not_open o : is_open o = true -> is_open (closer o) = false.
Proof. by intros [-> | ->]%is_open_cases. Qed.

Lemma closer_is_close o : is_open o = true -> is_close (closer o) = true.
Proof. by intros [-> | ->]%is_open_cases. Qed.

Lemma scan_balanced_open o rest idx stack :
  is_open o = true ->
  scan_balanced (o :: rest) idx stack = scan_balanced rest (S idx) (closer o :: stack).
Proof. unfold is_open, closer. cbn [scan_balanced]. by intros ->. Qed.

Lemma scan_balanced_plain c rest idx stack :
  is_open c = false -> is_close c = false ->
  scan_balanced (c :: rest) idx stack = scan_balanced rest (S idx) stack.
Proof. unfold is_open, is_close. cbn [scan_balanced]. by intros -> ->. Qed.

Lemma scan_balanced_close o rest idx stack :
  is_open o = true ->
  scan_balanced (closer o :: rest) idx (closer o :: stack)
  = match stack with
    | [] => Some idx
    | _ => scan_balanced rest (S idx) stack
    end.
Proof.
  intros Ho. pose proof (closer_not_open o Ho) as Hopen.
  pose proof (closer_is_close o Ho) as Hclose. unfold is_open, is_close in *.
  cbn [scan_balanced]. by rewrite Hopen, Hclose, N.eqb_refl.
Qed.

(** The scan passes over balanced text and keeps its stack. *)
Lemma scan_balanced_inner inner :
  balanced inner ->
  forall rest idx stack,
    stack ≠ [] ->
    scan_balanced (inner ++ rest) idx stack
    = scan_balanced rest (length inner + idx) stack.
Proof.
  induction 1 as [|c s Hopen Hclose _ IH|o inner s Ho _ IHinner _ IHs];
    intros rest idx stack Hstack.
  - done.
  - cbn [app length]. rewrite scan_balanced_plain, IH by done. f_equal. lia.
  - replace ((o :: inner ++ closer o :: s) ++ rest)
      with (o :: inner ++ closer o :: s ++ rest)
      by (cbn [app]; by rewrite <- app_assoc).
    rewrite scan_balanced_open, IHinner, scan_balanced_close by done.
    destruct stack as [|top stack]; [done|].
    rewrite IHs by done. f_equal. cbn [length]. rewrite length_app. cbn [length]. lia.
Qed.

(** Where the scan stops, the brackets that were open are closed in order. *)
Lemma scan_balanced_closes chars :
  forall idx stack j,
    stack ≠ [] ->
    scan_balanced chars idx stack = Some j ->
    exists seg after,
      chars = seg ++ after /\ (j + 1 = idx + length seg)%nat /\ closes stack seg.
Proof.
  induction chars as [|char chars IH]; intros idx stack j Hstack;
    cbn [scan_balanced]; [discriminate|].
  destruct (PyStr.char_in char (py "{[")) eqn:Hopen.
  { fold (closer char). intros (seg & after & -> & Hj & Hseg)%IH; [|done].
    inversion Hseg as [|top rest inner s Hinner Hrest]; subst.
    destruct stack as [|top stack]; [done|].
    inversion Hrest as [|top' rest' inner' s' Hinner' Hrest']; subst.
    exists ((char :: inner ++ closer char :: inner') ++ top :: s'), after. split_and!.
    - by repeat (rewrite <- app_assoc || rewrite <- app_comm_cons).
    - rewrite !length_app in *. cbn [length] in *. rewrite !length_app in *.
      cbn [length] in *. lia.
    - constructor; [|done]. by constructor. }
  destruct (PyStr.char_in char (py "}]")) eqn:Hclose.
  { destruct stack as [|top stack]; [done|].
    destruct (N.eqb_spec top char) as [->|]; [|discriminate]. cbn [negb].
    destruct stack as [|next stack].
    - intros [= <-]. exists [char], chars. split_and!; [done | cbn [length]; lia |].
      apply (closes_next char [] [] []); constructor.
    - intros (seg & after & -> & Hj & Hseg)%IH; [|done].
      exists (char :: seg), after. split_and!; [done | cbn [length]; lia |].
      by apply (closes_next char (next :: stack) [] seg); [constructor|]. }
  intros (seg & after & -> & Hj & Hseg)%IH; [|done].
  destruct stack as [|top stack]; [done|].
  inversion Hseg as [|top' rest' inner s Hinner Hrest]; subst.
  exists ((char :: inner) ++ top :: s), after. split_and!.
  - done.
  - rewrite !length_app in *. cbn [length] in *. rewrite ?length_app in *. lia.
  - constructor; [|done]. by constructor.
Qed.

(** A text has no opening bracket, or a first one. *)
Lemma first_open s :
  no_open s \/
  exists noise o r, s = noise ++ o :: r /\ no_open noise /\ is_open o = true.
Proof.
  unfold no_open. induction s as [|c s IH]; [by left|].
  destruct (is_open c) eqn:Hc.
  - right. by exists [], c, s.
  - destruct IH as [Hs | (noise & o & r & -> & Hnoise & Ho)].
    + left. cbn [forallb]. by rewrite Hc.
    + right. exists (c :: noise), o, r. split_and!; [done | | done].
      cbn [forallb]. by rewrite Hc.
Qed.

Lemma extract_at_bracket o r :
  is_open o = true ->
  _extract_json_payload (o :: r)
  = match scan_balanced r 1 [closer o] with
    | Some idx => Some (take (idx + 1) (o :: r))
    | None => None
    end.
Proof.
  intros Ho. unfold _extract_json_payload.
  destruct (start_after_noise [] o r eq_refl Ho) as (i & others & Hstart & Hmin).
  simpl app in *. rewrite Hstart, Hmin. simpl length.
  change (drop 0 (o :: r)) with (o :: r). rewrite scan_balanced_open by done.
  destruct (scan_balanced r 1 [closer o]) as [idx|]; [|done].
  by rewrite Nat.sub_0_r.
Qed.

(** What [_extract_json_payload] returns is the region that starts at the
    first opening bracket and ends where that bracket is closed. *)
Lemma extract_region text cleaned :
  _extract_json_payload text = Some cleaned <-> region text cleaned.
Proof.
  split.
  - destruct (first_open text) as [Hnone | (noise & o & r & -> & Hnoise & Ho)].
    { by rewrite extract_no_open. }
    rewrite extract_skips_noise, extract_at_bracket by done.
    destruct (scan_balanced r 1 [closer o]) as [idx|] eqn:Hscan; [|discriminate].
    apply scan_balanced_closes in Hscan as (seg & after & -> & Hidx & Hseg); [|done].
    inversion Hseg as [|top rest inner s Hinner Hrest]; subst.
    inversion Hrest; subst.
    intros [= <-]. exists noise, o, inner, after. split_and!; try done.
    + by rewrite <- app_assoc.
    + change (o :: (inner ++ [closer o]) ++ after)
        with ((o :: inner ++ [closer o]) ++ after).
      apply take_app_length'. cbn [length] in *. lia.
  - intros (noise & o & inner & after & -> & Hnoise & Ho & Hinner & ->).
    rewrite extract_skips_noise, extract_at_bracket by done.
    rewrite scan_balanced_inner, scan_balanced_close by done. f_equal.
    change (o :: inner ++ closer o :: after)
      with ((o :: inner) ++ [closer o] ++ after).
    rewrite app_assoc. apply take_app_length'.
    cbn [length app]. rewrite length_app. cbn [length]. lia.
Qed.

Lemma extract_unbalanced text :
  _extract_json_payload text = None <-> unbalanced text.
Proof.
  unfold unbalanced. split.
  - intros Hnone cleaned Hregion%extract_region. congruence.
  - intros Hno. destruct (_extract_json_payload text) as [cleaned|] eqn:Hsome; [|done].
    by apply extract_region, Hno in Hsome.
Qed.

End ExtractFacts.

(** ** The lenient JSON extraction *)

Section Extraction.
Import VastAIClient JsonText Brackets ExtractFacts JsonFacts.
Context `{PyRuntime}.

Lemma find_json_start_stripped c s :
  PyStr.isspace c = false -> _find_json_start (c :: s) = O.
Proof.
  intros Hc. unfold _find_json_start. cbn [_find_json_start_from].
  destruct (PyStr.char_in c (py "{[")); [done|]. by rewrite Hc.
Qed.

Lemma decode_output_stripped stdout c data :
  PyStr.strip stdout = c :: data ->
  decode_output stdout
  = match json.raw_decode (c :: data) with
    | inr (obj, _) => inr obj
    | inl JSONDecodeError =>
      match _extract_json_payload (c :: data) with
      | Some cleaned =>
        match json.raw_decode cleaned with
        | inr (obj, _) => inr obj
        | inl JSONDecodeError => inr (VStr (c :: data))
        | inl e => inl e
        end
      | None => inr (VStr (c :: data))
      end
    | inl e => inl e
    end.
Proof.
  intros Hstrip. unfold decode_output. rewrite Hstrip.
  rewrite find_json_start_stripped by by eapply PyStrFacts.strip_head. done.
Qed.

(** [decode_output] raises nothing but the errors of the two limits of the
    decoder. *)
Lemma decode_output_error stdout e :
  decode_output stdout = inl e -> e = RecursionError \/ e = ValueError.
Proof.
  destruct (PyStr.strip stdout) as [|c data] eqn:Hstrip.
  { unfold decode_output. by rewrite Hstrip. }
  rewrite (decode_output_stripped _ _ _ Hstrip).
  assert (forall s e', json.raw_decode s = inl e' -> e' ≠ JSONDecodeError ->
            e' = RecursionError \/ e' = ValueError) as Hlimit.
  { intros s e' [? | ?]%raw_decode_error ?; by auto. }
  destruct (json.raw_decode (c :: data)) as [e1|[obj r]] eqn:Hfirst; [|discriminate].
  destruct e1; try (intros [= <-]; by eapply Hlimit).
  destruct (_extract_json_payload (c :: data)) as [cleaned|]; [|discriminate].
  destruct (json.raw_decode cleaned) as [e2|[obj r]] eqn:Hsecond; [|discriminate].
  destruct e2; try discriminate; intros [= <-]; by eapply Hlimit.
Qed.

Lemma no_open_lstrip s : no_open s -> no_open (PyStr.lstrip s).
Proof.
  unfold no_open, PyStr.lstrip. induction s as [|c s IH]; cbn [PyStr.drop_while]; [done|].
  destruct (PyStr.isspace c); [|done]. cbn [forallb]. intros [_ Hs]%andb_true_iff. auto.
Qed.

Lemma closed_not_space p : closed p -> exists p' c, p = p' ++ [c] /\ PyStr.isspace c = false.
Proof. intros (p' & c & -> & [-> | ->]); by eexists _, _. Qed.

(** C1, as the code has it: a JSON object or array [v] that the decoder
    accepts is returned decoded, whatever text follows it, when the text in
    front of it has no opening bracket and is white space, or is text at
    which the decoder raises [JSONDecodeError] while the bracket scan, which
    counts the brackets inside strings too, does not stop before the end of
    [v]. *)
Theorem decode_output_recovers_value (lead v trail : pystr) (obj : value) :
  bracketed v = true ->
  json.raw_decode v = inr (obj, []) ->
  no_open lead ->
  recoverable lead v trail ->
  decode_output (lead ++ v ++ trail) = inr obj.
Proof.
  intros Hv Hdecode Hlead Hrec.
  destruct (raw_decode_ignores_rest v obj (PyStr.rstrip trail) Hv Hdecode)
    as [Hdirect (core' & last & Hcore & Hlast)%closed_not_space].
  destruct v as [|first v']; [done|].
  assert (PyStr.isspace first = false /\ is_open first = true) as [Hfirst Hopen].
  { cbn [bracketed] in Hv.
    apply orb_true_iff in Hv as [->%N.eqb_eq | ->%N.eqb_eq]; done. }
  assert (exists core, first :: v' = first :: core ++ [last]) as [core Hv'].
  { destruct core' as [|first' core']; cbn [app] in Hcore.
    - injection Hcore as -> ->. exists []. (* a single bracket is not a value *)
      exfalso. unfold json.raw_decode in Hdecode. cbn [length Nat.mul Nat.add] in Hdecode.
      cbn [bracketed] in Hv.
      apply orb_true_iff in Hv as [->%N.eqb_eq | ->%N.eqb_eq];
        cbn [json.scan_once] in Hdecode; destruct recursion_limit; discriminate.
    - injection Hcore as -> ->. by exists core'. }
  assert (PyStr.strip (lead ++ (first :: v') ++ trail)
          = PyStr.lstrip lead ++ (first :: v') ++ PyStr.rstrip trail) as Hstrip.
  { rewrite Hv'. by apply PyStrFacts.strip_around. }
  unfold recoverable in Hrec.
  destruct (PyStr.lstrip lead) as [|c lead'] eqn:Hl.
  - cbn [app] in *. rewrite (decode_output_stripped _ _ _ Hstrip).
    by rewrite Hdirect.
  - destruct Hrec as [Hstart (more & Hregion%extract_region)].
    rewrite Hstrip in Hstart. cbn [app] in Hstrip, Hstart |- *.
    rewrite (decode_output_stripped _ _ _ Hstrip), Hstart.
    pose proof (no_open_lstrip lead Hlead) as Hlead'. rewrite Hl in Hlead'.
    change (c :: lead' ++ first :: v' ++ PyStr.rstrip trail)
      with ((c :: lead') ++ first :: v' ++ PyStr.rstrip trail).
    rewrite extract_skips_noise by done.
    change (first :: v' ++ PyStr.rstrip trail)
      with ((first :: v') ++ PyStr.rstrip trail).
    rewrite Hregion.
    by destruct (raw_decode_ignores_rest (first :: v') obj more Hv Hdecode) as [-> _].
Qed.

(** C5, as the code has it: when the stripped text is not empty, the
    decoder raises [JSONDecodeError] at its start, and its brackets are
    absent or unbalanced (there is no opening bracket, or the first one is
    not closed: a closing bracket does not match the innermost open one, or
    brackets stay open), the result is the stripped text, and nothing is
    raised. *)
Theorem decode_output_falls_back_to_stripped_text (stdout : pystr) :
  PyStr.strip stdout ≠ [] ->
  json.raw_decode (PyStr.strip stdout) = inl JSONDecodeError ->
  unbalanced (PyStr.strip stdout) ->
  decode_output stdout = inr (VStr (PyStr.strip stdout)).
Proof.
  intros Hdata Hdecode Hscan%extract_unbalanced.
  destruct (PyStr.strip stdout) as [|c data] eqn:Hstrip; [done|].
  by rewrite (decode_output_stripped _ _ _ Hstrip), Hdecode, Hscan.
Qed.

(** Text in which a closing bracket does not match the innermost open one,
    or in which a bracket stays open, is unbalanced. *)
Lemma mismatch_unbalanced noise o inner c after :
  no_open noise -> is_open o = true -> balanced inner ->
  is_close c = true -> c ≠ closer o ->
  unbalanced (noise ++ o :: inner ++ c :: after).
Proof.
  intros Hnoise Ho Hinner Hc Hneq. apply extract_unbalanced.
  rewrite extract_skips_noise, extract_at_bracket, scan_balanced_inner by done.
  unfold is_close in Hc. cbn [scan_balanced].
  destruct (PyStr.char_in c (py "{[")) eqn:Hopen.
  { unfold PyStr.char_in in Hopen, Hc. revert Hopen Hc. literals. simpl.
    rewrite !orb_true_iff, !N.eqb_eq. intuition congruence. }
  rewrite Hc. destruct (N.eqb_spec (closer o) c); [congruence | done].
Qed.

Lemma open_unbalanced noise o inner :
  no_open noise -> is_open o = true -> balanced inner ->
  unbalanced (noise ++ o :: inner).
Proof.
  intros Hnoise Ho Hinner. apply extract_unbalanced.
  rewrite extract_skips_noise, extract_at_bracket by done.
  rewrite <- (app_nil_r inner), scan_balanced_inner by done. done.
Qed.

Lemma no_open_unbalanced text : no_open text -> unbalanced text.
Proof. intros Htext. by apply extract_unbalanced, extract_no_open. Qed.

End Extraction.

Lemma decode_output_recovers_value_witness :
  JsonText.bracketed (pyq "{'a':1}") = true /\
  json.raw_decode (pyq "{'a':1}") = inr (VDict [(py "a", VInt 1)], []) /\
  Brackets.no_open (py "note: x" ++ nl) /\
  Brackets.recoverable (py "note: x" ++ nl) (pyq "{'a':1}") [] /\
  VastAIClient.decode_output ((py "note: x" ++ nl) ++ pyq "{'a':1}" ++ [])
  = inr (VDict [(py "a", VInt 1)]).
Proof.
  assert (Brackets.recoverable (py "note: x" ++ nl) (pyq "{'a':1}") []) as Hrec.
  { split; [vm_compute; reflexivity|]. exists [].
    apply ExtractFacts.extract_region. vm_compute. reflexivity. }
  split; [reflexivity|]. split; [vm_compute; reflexivity|].
  split; [reflexivity|]. split; [exact Hrec|].
  apply decode_output_recovers_value.
  - reflexivity.
  - vm_compute. reflexivity.
  - reflexivity.
  - exact Hrec.
Defined.

(** The example of the specification: a warning in front of the payload, a
    remark behind it. *)
Lemma warning_and_remark_are_skipped :
  VastAIClient.decode_output
    ((py "Warning: cache stale" ++ nl) ++ offers_text ++ (nl ++ py "Done."))
  = inr offers_value.
Proof. vm_compute. reflexivity. Qed.

(** C1, as stated, does not hold: a bracket in the leading text is taken
    for the start of the payload, and the text comes back undecoded. *)
Lemma bracket_in_leading_text_hides_value :
  json.raw_decode (pyq "{'a': 1}") = inr (VDict [(py "a", VInt 1)], []) /\
  VastAIClient.decode_output (py "[warn] cache stale" ++ nl ++ pyq "{'a': 1}")
  = inr (VStr (py "[warn] cache stale" ++ nl ++ pyq "{'a': 1}")) /\
  VastAIClient.decode_output (py "[warn] cache stale" ++ nl ++ pyq "{'a': 1}")
  ≠ inr (VDict [(py "a", VInt 1)]).
Proof.
  split; [vm_compute; reflexivity|].
  assert (VastAIClient.decode_output (py "[warn] cache stale" ++ nl ++ pyq "{'a': 1}")
          = inr (VStr (py "[warn] cache stale" ++ nl ++ pyq "{'a': 1}"))) as Hout
    by (vm_compute; reflexivity).
  split; [exact Hout|]. rewrite Hout. discriminate.
Qed.

(** Leading text at whose start the decoder finds a value is decoded in
    place of the payload; a bracket inside a string of the payload ends the
    scan early; a payload nested deeper than the recursion limit raises. *)
Lemma number_in_leading_text_is_the_result :
  VastAIClient.decode_output (py "3 warnings" ++ nl ++ pyq "{'a': 1}") = inr (VInt 3).
Proof. vm_compute. reflexivity. Qed.

Lemma bracket_in_string_breaks_the_scan :
  json.raw_decode (pyq "{'a': '}'}") = inr (VDict [(py "a", VStr (py "}"))], []) /\
  VastAIClient.decode_output (py "Warning" ++ nl ++ pyq "{'a': '}'}")
  = inr (VStr (py "Warning" ++ nl ++ pyq "{'a': '}'}")).
Proof. split; vm_compute; reflexivity. Qed.

Lemma deep_nesting_raises :
  VastAIClient.decode_output (repeat (ch "[") 1001 ++ repeat (ch "]") 1001)
  = inl RecursionError /\
  VastAIClient.decode_output (repeat (ch "[") 1001) = inl RecursionError.
Proof. split; vm_compute; reflexivity. Qed.

(** C5, as stated, does not hold: text without any bracket that starts
    with a JSON scalar is decoded, and text that is returned is returned
    stripped. *)
Lemma text_without_brackets_is_decoded :
  Brackets.no_open (py "42 offers found") /\
  PyStr.find (ch "}") (py "42 offers found") = None /\
  PyStr.find (ch "]") (py "42 offers found") = None /\
  VastAIClient.decode_output (py "42 offers found") = inr (VInt 42) /\
  VastAIClient.decode_output (py "42 offers found") ≠ inr (VStr (py "42 offers found")).
Proof.
  assert (VastAIClient.decode_output (py "42 offers found") = inr (VInt 42)) as Hout
    by (vm_compute; reflexivity).
  repeat split; try reflexivity; try exact Hout. rewrite Hout. discriminate.
Qed.

Lemma returned_text_is_stripped :
  VastAIClient.decode_output (py "  no such instance" ++ nl)
  = inr (VStr (py "no such instance")).
Proof. vm_compute. reflexivity. Qed.

(** Unbalanced text that the decoder accepts all the same, the bracket
    being inside a string, is decoded. *)
Lemma bracket_in_string_is_decoded :
  Brackets.unbalanced (pyq "['{']") /\
  VastAIClient.decode_output (pyq "['{']") = inr (VList [VStr (py "{")]).
Proof.
  split; [|vm_compute; reflexivity].
  apply ExtractFacts.extract_unbalanced. vm_compute. reflexivity.
Qed.

Lemma decode_output_falls_back_to_stripped_text_witness :
  PyStr.strip (py " {] ") ≠ [] /\
  json.raw_decode (PyStr.strip (py " {] ")) = inl JSONDecodeError /\
  Brackets.unbalanced (PyStr.strip (py " {] ")) /\
  VastAIClient.decode_output (py " {] ") = inr (VStr (py "{]")).
Proof.
  assert (PyStr.strip (py " {] ") ≠ []) as Hdata by (vm_compute; discriminate).
  assert (json.raw_decode (PyStr.strip (py " {] ")) = inl JSONDecodeError) as Hdecode
    by (vm_compute; reflexivity).
  assert (Brackets.unbalanced (PyStr.strip (py " {] "))) as Hscan.
  { apply ExtractFacts.extract_unbalanced. vm_compute. reflexivity. }
  split; [exact Hdata|]. split; [exact Hdecode|]. split; [exact Hscan|].
  change (VStr (py "{]")) with (VStr (PyStr.strip (py " {] "))).
  apply decode_output_falls_back_to_stripped_text;
    [exact Hdata | exact Hdecode | exact Hscan].
Defined.

(** ** The process runner *)

(** C10: with [capture_json], a process that exits 0 with empty or
    whitespace-only standard output makes [run] return the empty mapping. *)
Theorem run_blank_output_gives_empty_mapping `{PyRuntime}
    (self : VastAIClient.t) (args : list pystr) (raw : bool) (stdout stderr : pystr) :
  forallb PyStr.isspace stdout = true ->
  VastAIClient.run_with self args raw true (CompletedProcess 0 stdout stderr)
  = inr (VDict []).
Proof.
  intros Hblank. unfold VastAIClient.run_with. simpl.
  unfold VastAIClient.decode_output.
  rewrite PyStrFacts.strip_all_space by done. done.
Qed.

Lemma run_blank_output_gives_empty_mapping_witness :
  forallb PyStr.isspace (py "  " ++ nl) = true /\
  VastAIClient.run_with (VastAIClient.Client (py "vastai") None)
    [py "show"; py "user"] false true (CompletedProcess 0 (py "  " ++ nl) [])
  = inr (VDict []).
Proof.
  split; [reflexivity|].
  apply run_blank_output_gives_empty_mapping. reflexivity.
Defined.

(** C4, as the code has it: [run] raises [VastAICommandError] exactly when
    the binary is not found, with exit code 127 and the composed command,
    or the process exits with a code that is not 0, with that code and its
    captured standard error stripped of surrounding whitespace. Any other
    exception of [subprocess.run] passes through unchanged. On exit code 0
    [run] returns the captured output, verbatim, or decoded when
    [capture_json] is set; it then raises only what the decoder raises at
    one of the two limits of the interpreter. *)
Theorem run_raises_iff_invocation_fails `{PyRuntime}
    (self : VastAIClient.t) (args : list pystr) (raw capture_json : bool)
    (result : subprocess_result) :
  let command := VastAIClient._compose_command self args (raw || capture_json) in
  (forall e,
     VastAIClient.run_with self args raw capture_json result = inl (CommandFailed e) <->
     (result = FileNotFoundError /\
      e = CommandError command 127 (py "vastai CLI not found in PATH"))
     \/ (exists returncode stdout stderr,
           result = CompletedProcess returncode stdout stderr /\
           returncode ≠ 0%Z /\
           e = CommandError command returncode (PyStr.strip stderr)))
  /\ (forall x,
        result = Raises x ->
        VastAIClient.run_with self args raw capture_json result = inl (FromSubprocess x))
  /\ (forall stdout stderr,
        result = CompletedProcess 0 stdout stderr ->
        VastAIClient.run_with self args raw capture_json result
        = (if capture_json then VastAIClient.decode_output stdout else inr (VStr stdout))
        /\ forall e,
             VastAIClient.run_with self args raw capture_json result = inl e ->
             capture_json = true /\ (e = RecursionError \/ e = ValueError)).
Proof.
  intros command. split_and!.
  - intros e. unfold VastAIClient.run_with. fold command.
    destruct result as [|x|rc out err].
    + split.
      * intros [= <-]. left. done.
      * intros [[_ ->] | (rc & out & err & Hres & _)]; [done | discriminate Hres].
    + split; [discriminate|].
      intros [[Hres _] | (rc & out & err & Hres & _)]; discriminate Hres.
    + destruct (Z.eqb_spec rc 0) as [-> | Hrc]; simpl.
      * split.
        -- destruct capture_json; [|discriminate].
           intros [? | ?]%decode_output_error; discriminate.
        -- intros [[Hres _] | (rc & out' & err' & [= <- _ _] & Hrc & _)];
             [discriminate Hres | done].
      * split.
        -- intros [= <-]. right. exists rc, out, err. done.
        -- intros [[Hres _] | (rc' & out' & err' & [= <- <- <-] & _ & ->)];
             [discriminate Hres | done].
  - by intros x ->.
  - intros out err ->. unfold VastAIClient.run_with. simpl. split; [done|].
    destruct capture_json; [|discriminate].
    intros e He%decode_output_error. done.
Qed.

(** C4, as stated, does not hold: an invocation that fails because the
    binary may not be executed raises [PermissionError], not
    [VastAICommandError]; and on exit code 0 an integer of more digits than
    the interpreter converts makes [run] raise [ValueError]. *)
Lemma run_raises_other_exceptions :
  let self := VastAIClient.Client (py "vastai") None in
  VastAIClient.run_with self [py "show"; py "user"] false true (Raises PermissionError)
  = inl (FromSubprocess PermissionError) /\
  (forall e,
     VastAIClient.run_with self [py "show"; py "user"] false true (Raises PermissionError)
     ≠ inl (CommandFailed e)) /\
  VastAIClient.run_with self [py "show"; py "user"] false true
    (CompletedProcess 0 (repeat (ch "1") 4301) [])
  = inl ValueError.
Proof.
  intros self. split; [reflexivity|]. split; [discriminate|].
  vm_compute. reflexivity.
Qed.

(** ** The log stream *)

Module StreamFacts.
Import Stream.

Ltac case_Z_eqb :=
  match goal with
  | |- context [Z.eqb ?a ?b] => is_var a; destruct (Z.eqb_spec a b); simpl
  end.

Lemma poll_returncode c n p r p' :
  poll c n p = (r, p') -> returncode p' = r.
Proof.
  unfold poll. destruct p as [[rc|] ts ks]; simpl.
  - intros [= <- <-]. done.
  - destruct (os_status c n _); intros [= <- <-]; done.
Qed.

Lemma wait_returncode c n p p' :
  wait c n p = (true, p') -> returncode p' ≠ None.
Proof.
  unfold wait. destruct (poll c n p) as [[rc|] q] eqn:Hp; intros [= <-].
  apply poll_returncode in Hp. congruence.
Qed.

Lemma wait_timeout c n p p' :
  wait c n p = (false, p') -> returncode p' = None.
Proof.
  unfold wait. destruct (poll c n p) as [[rc|] q] eqn:Hp; intros [= <-].
  by apply poll_returncode in Hp.
Qed.

Lemma terminate_then_kill_spec c n p r p' :
  terminate_then_kill c n p = (r, p') ->
  (r = None /\ returncode p' ≠ None) \/ (r = Some TimeoutExpired /\ returncode p' = None).
Proof.
  unfold terminate_then_kill.
  destruct (wait c n (terminate c n p)) as [[|] q] eqn:Hw.
  - intros [= <- <-]. left. split; [done|]. by eapply wait_returncode.
  - destruct (wait c n (kill c n q)) as [[|] q'] eqn:Hw'; intros [= <- <-].
    + left. split; [done|]. by eapply wait_returncode.
    + right. split; [done|]. by eapply wait_timeout.
Qed.

Lemma finally_clause_spec c n command terminated pending p r p' :
  finally_clause c n command terminated pending p = (r, p') ->
  (r = Some TimeoutExpired /\ returncode p' = None)
  \/ (exists rc, returncode p' = Some rc /\
        ((benign rc /\ r = pending)
         \/ (¬ benign rc /\
             r = Some (CommandFailed
                         (CommandError command rc (PyStr.strip (stderr_data c))))))).
Proof.
  unfold finally_clause.
  destruct (poll c n p) as [[rc|] q] eqn:Hp.
  - apply poll_returncode in Hp. rewrite Hp.
    unfold signal.SIGTERM, benign. change (Z.opp 15) with (-15)%Z.
    destruct terminated; simpl; repeat case_Z_eqb; intros Heq; simplify_eq; right; eexists; (split; [eassumption|]);
      solve [ left; split; [lia | reflexivity] | right; split; [lia | reflexivity] ].
  - destruct (terminate_then_kill c n q) as [r' q'] eqn:Ht.
    apply terminate_then_kill_spec in Ht as [[-> Hrc] | [-> Hrc]].
    + destruct (returncode q') as [rc|] eqn:Hq; [|done].
      unfold signal.SIGTERM, benign. change (Z.opp 15) with (-15)%Z. simpl.
      repeat case_Z_eqb; intros Heq; simplify_eq; right; eexists; (split; [eassumption|]);
        solve [ left; split; [lia | reflexivity] | right; split; [lia | reflexivity] ].
    + intros [= <- <-]. left. done.
Qed.

End StreamFacts.

Section StreamTheorems.
Import Stream StreamFacts.
Variable self : VastAIClient.t.
Variable args : list pystr.
Variable raw : bool.
Variable spawn : list pystr -> option child.

Local Abbreviation next := (Stream.next self args raw spawn).
Local Abbreviation close := (Stream.close self args raw).
Local Abbreviation command := (Stream.command self args raw).
Local Abbreviation reachable := (reachable self args raw spawn).
Local Abbreviation tidy := (tidy self args raw spawn).

Lemma finish_raises_iff c n terminated pending p out g' :
  (forall e, pending ≠ Some (CommandFailed e)) ->
  finish c n (finally_clause c n command terminated pending p) = (out, g') ->
  (exists e, out = Raise (CommandFailed e)) <-> (exists rc, ended_with g' rc /\ ¬ benign rc).
Proof.
  intros Hpending.
  destruct (finally_clause c n command terminated pending p) as [r q] eqn:Hf.
  apply finally_clause_spec in Hf
    as [[-> Hrc] | (rc & Hrc & [[Hb ->] | [Hb ->]])]; simpl.
  - intros [= <- <-]. split.
    + intros [e [=]].
    + intros (rc & (c0 & n0 & p0 & [= <- <- <-] & Hp) & _). congruence.
  - destruct pending as [e|]; intros [= <- <-]; split.
    + intros [e' [= ->]]. by destruct (Hpending e').
    + intros (rc' & (c0 & n0 & p0 & [= <- <- <-] & Hp) & Hnb). congruence.
    + intros [e' [=]].
    + intros (rc' & (c0 & n0 & p0 & [= <- <- <-] & Hp) & Hnb). congruence.
  - intros [= <- <-]. split.
    + intros _. exists rc. split; [by exists c, n, q | done].
    + intros _. eauto.
Qed.


Lemma finally_clause_handle c n terminated pending p :
  snd (finally_clause c n command terminated pending p)
  = match poll c n p with
    | (None, q) => snd (terminate_then_kill c n q)
    | (Some _, q) => q
    end.
Proof.
  unfold finally_clause. destruct (poll c n p) as [[rc|] q].
  - by destruct (negb _).
  - destruct (terminate_then_kill c n q) as [[e|] q']; [done|]. by destruct (negb _).
Qed.

Ltac settle c n :=
  unfold settled, stopped_in_order, terminate_then_kill, wait, kill, terminate, poll,
    os_status;
  destruct (exited c n) eqn:Hexited, (on_terminate c) eqn:Hterminate,
    (on_kill c) eqn:Hkill; simpl; rewrite ?Hexited, ?Hterminate, ?Hkill; simpl;
  split_and!; (done || (intros; split; done) || idtac).

Lemma finally_clause_settles c n terminated pending :
  settled c n (snd (finally_clause c n command terminated pending (Handle None false false))).
Proof. rewrite finally_clause_handle. settle c n. Qed.

Lemma interrupted_settles c n :
  settled c n (snd (interrupted c n command (Handle None false false))).
Proof.
  unfold interrupted.
  destruct (terminate_then_kill c n (Handle None false false)) as [r q] eqn:Hstop.
  assert (q = snd (terminate_then_kill c n (Handle None false false))) as Hq
    by by rewrite Hstop.
  assert (settled c n (snd (finally_clause c n command true (Some KeyboardInterrupt) q))
          /\ settled c n (snd (finally_clause c n command true (Some TimeoutExpired) q)))
    as [Hinterrupt Htimeout].
  { rewrite !finally_clause_handle, Hq. settle c n. }
  destruct r as [e|]; [|done].
  apply terminate_then_kill_spec in Hstop as [[[=] _] | [[= ->] _]]. done.
Qed.

Lemma finish_tidy c n r :
  spawn command = Some c -> settled c n (snd r) -> tidy (snd (finish c n r)) 1.
Proof. intros Hc (Hstatus & Horder & Hkill). by destruct r as [[e|] p]. Qed.

Lemma act_tidy a g k :
  tidy g k -> tidy (act self args raw spawn a g) (k + popen_calls_of a g).
Proof.
  intros Hg.
  assert (Hresume : forall c n,
             spawn command = Some c ->
             tidy (snd (resume self args raw c n (Handle None false false))) 1).
  { intros c n Hc. unfold resume.
    destruct (nth_error (reads c) n) as [[line|]|].
    - done.
    - apply finish_tidy; [done | apply interrupted_settles].
    - apply finish_tidy; [done | apply finally_clause_settles]. }
  destruct a, g as [|c n p|[[[c n] p]|]]; simpl in *.
  - subst k. destruct (spawn command) as [c|] eqn:Hc; simpl.
    + by apply Hresume.
    + lia.
  - destruct Hg as (-> & Hc & ->). by apply Hresume.
  - by rewrite Nat.add_0_r.
  - by rewrite Nat.add_0_r.
  - subst k. simpl. lia.
  - destruct Hg as (-> & Hc & ->).
    pose proof (finally_clause_settles c n false None) as Hsettled.
    destruct (finally_clause c n command false None _) as [r q]. simpl.
    destruct Hsettled as (? & ? & ?). done.
  - by rewrite Nat.add_0_r.
  - by rewrite Nat.add_0_r.
Qed.

Lemma drive_tidy actions g k g' k' :
  tidy g k ->
  drive self args raw spawn actions g k = (g', k') -> tidy g' k'.
Proof.
  revert g k. induction actions as [|a actions IH]; intros g k Hg; simpl.
  - intros [= <- <-]. done.
  - apply IH. by apply act_tidy.
Qed.


End StreamTheorems.

Example poll_provisioning_logs_example :
  Stream._poll_provisioning_logs example_client (fun _ => Some provisioning_child) (py "7")
  = Stream.Monitored
      [py "booting"; py "installing"; py "=== Provisioning Complete ==="]
      true
      (Stream.Finished (Some (provisioning_child, 3%nat, Handle (Some (-15)%Z) true false)))
      None.
Proof. vm_compute. reflexivity. Qed.




(** ** Dictionaries and identities *)

Section RecordFacts.
Import VastAIDeepFaceLabCLI.
Context `{PyRuntime}.

Lemma dict_get_set k k' v (d : record) :
  dict_get k (dict_set k' v d) = if PyStr.eqb k' k then Some v else dict_get k d.
Proof.
  induction d as [|[k0 v0] d IH]; simpl; [done|].
  destruct (PyStr.eqb k0 k') eqn:Hk0; simpl.
  - apply PyStrFacts.eqb_eq in Hk0 as ->. by destruct (PyStr.eqb k' k).
  - rewrite IH. destruct (PyStr.eqb k0 k) eqn:Hk; [|done].
    apply PyStrFacts.eqb_eq in Hk as ->.
    assert (PyStr.eqb k' k = false) as ->; [|done].
    apply PyStrFacts.eqb_neq. intros ->. by rewrite PyStrFacts.eqb_refl in Hk0.
Qed.

Lemma get_set_ne k k' v (d : record) :
  PyStr.eqb k' k = false -> get (dict_set k' v d) k = get d k.
Proof. intros Hk. unfold get. rewrite dict_get_set, Hk. done. Qed.

Lemma same_identity_fields_refl a : same_identity_fields a a.
Proof. unfold same_identity_fields. apply Forall_forall. done. Qed.

Lemma same_identity_fields_trans a b c :
  same_identity_fields a b -> same_identity_fields b c -> same_identity_fields a c.
Proof.
  unfold same_identity_fields. rewrite !Forall_forall. intros Hab Hbc k Hk.
  rewrite Hbc, Hab; done.
Qed.

Lemma same_identity_fields_set k v a :
  forallb (fun k' => negb (PyStr.eqb k k')) identity_keys = true ->
  same_identity_fields a (dict_set k v a).
Proof.
  intros Hk. unfold same_identity_fields. apply Forall_forall. intros k' Hk'.
  apply get_set_ne. rewrite forallb_forall in Hk.
  apply list_elem_of_In in Hk'. specialize (Hk k' Hk'). by destruct (PyStr.eqb k k').
Qed.

Lemma template_identifier_ext a b :
  same_identity_fields a b -> _template_identifier b = _template_identifier a.
Proof.
  unfold same_identity_fields, identity_keys. intros Hab.
  repeat match goal with
         | Hab : Forall _ (_ :: _) |- _ => apply Forall_cons in Hab as [? Hab]
         end.
  unfold _template_identifier, first_not_none.
  repeat match goal with
         | Hk : get b _ = get a _ |- _ => rewrite Hk; clear Hk
         end.
  reflexivity.
Qed.

#[local] Arguments first_hash : simpl never.

Lemma extract_template_hash_identity fuel (template : record) :
  same_identity_fields template (snd (_extract_template_hash_rec fuel template)).
Proof.
  destruct fuel as [|fuel]; simpl.
  - destruct (first_hash hash_keys template); simpl.
    + by apply same_identity_fields_set.
    + apply same_identity_fields_refl.
  - destruct (first_hash hash_keys template); simpl.
    + by apply same_identity_fields_set.
    + destruct (truthy (get template (py "template")));
        match goal with
        | |- context [get template ?key] => destruct (get template key); simpl
        end;
        try apply same_identity_fields_refl;
        destruct (_extract_template_hash_rec fuel pairs) as [[[|c nested_hash]|] nested'];
        simpl; try apply same_identity_fields_refl;
        repeat (eapply same_identity_fields_trans;
                [|by apply same_identity_fields_set]);
        apply same_identity_fields_refl.
Qed.

(** [_remember_template] never raises, changes only the remembered ids and
    names, and leaves the identity of the template as it was. *)
Lemma remember_template_spec (template : record) (s : t) :
  exists template' ids names,
    _remember_template template s
    = (inr template', set_my_template_names names (set_my_template_ids ids s)) /\
    _template_identifier template' = _template_identifier template.
Proof.
  unfold _remember_template, bind, modify, ret.
  pose proof (extract_template_hash_identity (depth (VDict template)) template) as Hid.
  unfold _extract_template_hash.
  destruct (_extract_template_hash_rec _ template) as [hash_value template'].
  simpl in Hid.
  set (s1 := match _template_identifier template with
             | Some identifier =>
               set_my_template_ids (add_if_truthy identifier (_my_template_ids s)) s
             | None => s
             end).
  assert (exists ids, s1 = set_my_template_ids ids s) as [ids Hs1].
  { unfold s1. destruct (_template_identifier template); [eauto|].
    exists (_my_template_ids s). by destruct s. }
  set (s2 := if truthy (get template (py "name"))
             then set_my_template_names ({[str (get template (py "name"))]}
                                         ∪ _my_template_names s1) s1
             else s1).
  assert (exists names, s2 = set_my_template_names names s1) as [names Hs2].
  { unfold s2. destruct (truthy _); [eauto|].
    exists (_my_template_names s1). by destruct s1. }
  destruct hash_value as [[|c hash_value]|]; simpl;
    eexists _, ids, names; (split; [by rewrite <- Hs1, <- Hs2|]);
    try by apply template_identifier_ext.
  apply template_identifier_ext.
  eapply same_identity_fields_trans; [exact Hid|]. by apply same_identity_fields_set.
Qed.

End RecordFacts.

(** ** What the methods leave alone, and the commands they run *)

Section MethodFacts.
Import VastAIDeepFaceLabCLI.
Context `{PyRuntime}.
Variable system : list (list pystr) -> list pystr -> subprocess_result.

Lemma keeps_cache_refl s : keeps_cache s s.
Proof. unfold keeps_cache. split_and!; try done. exists []. by rewrite app_nil_r. Qed.

Lemma keeps_cache_trans s1 s2 s3 : keeps_cache s1 s2 -> keeps_cache s2 s3 -> keeps_cache s1 s3.
Proof.
  intros (Hc1 & Hl1 & Hm1 & Ho1 & Hv1 & Hov1 & Ha1 & more1 & Hcalls1)
         (Hc2 & Hl2 & Hm2 & Ho2 & Hv2 & Hov2 & Ha2 & more2 & Hcalls2).
  unfold keeps_cache. split_and!; try congruence; [auto|].
  exists (more1 ++ more2). by rewrite Hcalls2, Hcalls1, app_assoc.
Qed.

Lemma keeps_cache_set_calls s command :
  keeps_cache s (set_calls (calls s ++ [command]) s).
Proof. unfold keeps_cache. split_and!; try done. by eexists. Qed.

Lemma keeps_cache_set_user_id s v : keeps_cache s (set_user_id v s).
Proof. unfold keeps_cache. split_and!; try done. exists []. by rewrite app_nil_r. Qed.

Lemma keeps_cache_set_ids s v : keeps_cache s (set_my_template_ids v s).
Proof. unfold keeps_cache. split_and!; try done. exists []. by rewrite app_nil_r. Qed.

Lemma keeps_cache_set_names s v : keeps_cache s (set_my_template_names v s).
Proof. unfold keeps_cache. split_and!; try done. exists []. by rewrite app_nil_r. Qed.

Lemma keeps_cache_set_attempted s : keeps_cache s (set_attempted_my_template_query true s).
Proof. unfold keeps_cache. split_and!; try done. exists []. by rewrite app_nil_r. Qed.

Lemma bind_inr {A B} (m : M A) (k : A -> M B) (s s' : t) (a : A) :
  m s = (inr a, s') -> bind m k s = k a s'.
Proof. unfold bind. by intros ->. Qed.

Lemma quiet_ret {A} (a : A) : quiet (ret a).
Proof. intros s. split; [apply keeps_cache_refl | done]. Qed.

Lemma quiet_gets {A} (f : t -> A) : quiet (gets f).
Proof. intros s. split; [apply keeps_cache_refl | done]. Qed.

Lemma quiet_modify (f : t -> t) : (forall s, keeps_cache s (f s)) -> quiet (modify f).
Proof. intros Hf s. split; [apply Hf | done]. Qed.

Lemma quiet_bind {A B} (m : M A) (k : A -> M B) :
  quiet m -> (forall a, quiet (k a)) -> quiet (bind m k).
Proof.
  intros Hm Hk s. specialize (Hm s). unfold bind.
  destruct (m s) as [[e|a] s1].
  { destruct Hm as [Hkeep Hraise]. split; [done|].
    intros e0 [= ->]. by apply (Hraise e0). }
  destruct Hm as [Hkeep _], (Hk a s1) as [Hkeep' Hraise].
  split; [by eapply keeps_cache_trans | done].
Qed.

Lemma quiet_for_each {A B} (xs : list A) (acc : B) (body : A -> B -> M B) :
  (forall x acc, quiet (body x acc)) -> quiet (for_each xs acc body).
Proof.
  intros Hbody. revert acc. induction xs as [|x xs IH]; intros acc; simpl.
  - apply quiet_ret.
  - apply quiet_bind; [apply Hbody | intros acc'; apply IH].
Qed.

(** What [run] raises is [VastAICommandError] or passes through from
    [subprocess.run] or the decoder. *)
Lemma run_with_error self args raw capture_json result e :
  VastAIClient.run_with self args raw capture_json result = inl e ->
  (exists err, e = CommandFailed err) \/ passes_through e.
Proof.
  unfold VastAIClient.run_with, passes_through.
  destruct result as [|x|rc out err]; [intros [= <-]; eauto | intros [= <-]; eauto |].
  destruct (negb _); [intros [= <-]; eauto|].
  destruct capture_json; [|discriminate].
  intros [-> | ->]%decode_output_error; auto.
Qed.

(** A call of the runner under [try]/[except VastAICommandError]: it has
    run the command, and lets through what [run] lets through. *)
Lemma try_run_spec (args : list pystr) (s : t) :
  try_except (bind (client_run system args false true) (fun result => ret (Some result)))
    (ret None) s
  = (match VastAIClient.run_with (client s) args false true
             (system (calls s) (ran args s)) with
     | inr result => inr (Some result)
     | inl (CommandFailed _) => inr None
     | inl e => inl e
     end,
     set_calls (calls s ++ [ran args s]) s).
Proof.
  unfold try_except, bind, client_run, ret, ran. cbn [orb].
  by destruct (VastAIClient.run_with _ _ _ _ _) as [[]|].
Qed.

(** The same under the handlers of [_attempt_template_query], which catch
    [RuntimeError], and so the [RecursionError] of the decoder, too. *)
Lemma try_run_runtime_spec (args : list pystr) (s : t) :
  try_except_runtime
    (bind (client_run system args false true) (fun result => ret (Some result)))
    (ret None) (ret None) s
  = (match VastAIClient.run_with (client s) args false true
             (system (calls s) (ran args s)) with
     | inr result => inr (Some result)
     | inl (CommandFailed _) | inl RecursionError => inr None
     | inl e => inl e
     end,
     set_calls (calls s ++ [ran args s]) s).
Proof.
  unfold try_except_runtime, bind, client_run, ret, ran. cbn [orb].
  by destruct (VastAIClient.run_with _ _ _ _ _) as [[]|].
Qed.

Lemma try_run_success (args : list pystr) (s : t) (stdout stderr : pystr) (result : value) :
  system (calls s) (ran args s) = CompletedProcess 0 stdout stderr ->
  VastAIClient.decode_output stdout = inr result ->
  try_except (bind (client_run system args false true) (fun result => ret (Some result)))
    (ret None) s
  = (inr (Some result), set_calls (calls s ++ [ran args s]) s).
Proof.
  intros Hrun Hdecode. rewrite try_run_spec, Hrun.
  unfold VastAIClient.run_with. cbn [Z.eqb negb]. by rewrite Hdecode.
Qed.

Lemma quiet_try_run (args : list pystr) :
  quiet (try_except
           (bind (client_run system args false true) (fun result => ret (Some result)))
           (ret None)).
Proof.
  intros s. rewrite try_run_spec. split; [apply keeps_cache_set_calls|].
  cbn [fst]. by destruct (VastAIClient.run_with _ _ _ _ _) as [[]|].
Qed.

Lemma quiet_try_run_runtime (args : list pystr) :
  quiet (try_except_runtime
           (bind (client_run system args false true) (fun result => ret (Some result)))
           (ret None) (ret None)).
Proof.
  intros s. rewrite try_run_runtime_spec. split; [apply keeps_cache_set_calls|].
  cbn [fst]. by destruct (VastAIClient.run_with _ _ _ _ _) as [[]|].
Qed.

(** What [_remember_template] leaves in the object *)
Lemma remember_template_state (template : record) (s : t) :
  exists template',
    _remember_template template s
    = (inr template',
       set_my_template_names
         (if truthy (get template (py "name"))
          then {[ str (get template (py "name")) ]} ∪ _my_template_names s
          else _my_template_names s)
         (set_my_template_ids
            match _template_identifier template with
            | Some identifier => add_if_truthy identifier (_my_template_ids s)
            | None => _my_template_ids s
            end s)).
Proof.
  unfold _remember_template, bind, modify, ret.
  destruct (_extract_template_hash template) as [[[|c hash_value]|] template'];
    eexists; f_equal;
    destruct (_template_identifier template), (truthy (get template (py "name")));
    by destruct s.
Qed.

Lemma quiet_remember_template template : quiet (_remember_template template).
Proof.
  intros s. destruct (remember_template_state template s) as (template' & ->).
  split; [|done].
  eapply keeps_cache_trans; [apply keeps_cache_set_ids | apply keeps_cache_set_names].
Qed.

Ltac quiet_step :=
  first
    [ apply quiet_ret
    | apply quiet_gets
    | apply quiet_modify; intros ?;
      first [ apply keeps_cache_set_user_id | apply keeps_cache_set_attempted ]
    | apply quiet_try_run
    | apply quiet_try_run_runtime
    | apply quiet_remember_template
    | apply quiet_bind; [|intros ?]
    | apply quiet_for_each; intros ? ? ].

Lemma quiet_ensure_user_id : quiet (_ensure_user_id system).
Proof.
  unfold _ensure_user_id.
  apply quiet_bind; [apply quiet_gets|]. intros [user_id|]; [apply quiet_ret|].
  apply quiet_bind; [apply quiet_try_run|]. intros [result|]; [|repeat quiet_step].
  destruct (match result with VDict d => _ | _ => None end); repeat quiet_step.
Qed.

Lemma quiet_is_my_template template : quiet (_is_my_template system template).
Proof.
  unfold _is_my_template.
  destruct (existsb _ _); [apply quiet_ret|].
  apply quiet_bind; [apply quiet_gets|]. intros ids.
  match goal with |- context [if ?b then ret true else _] => destruct b end;
    [apply quiet_ret|].
  apply quiet_bind; [apply quiet_gets|]. intros names.
  match goal with |- context [if ?b then ret true else _] => destruct b end;
    [apply quiet_ret|].
  apply quiet_bind; [apply quiet_ensure_user_id|]. intros user_id.
  match goal with |- context [if ?b then ret true else _] => destruct b end;
    [apply quiet_ret|].
  apply quiet_bind; [apply quiet_gets|]. intros [[|c o]|]; apply quiet_ret.
Qed.

Lemma quiet_attempt_template_query query : quiet (_attempt_template_query system query).
Proof.
  unfold _attempt_template_query.
  apply quiet_bind; [apply quiet_try_run_runtime|]. intros [result|]; repeat quiet_step.
Qed.

Lemma quiet_collect_owner_templates owner_id :
  quiet (_collect_owner_templates system owner_id).
Proof.
  unfold _collect_owner_templates.
  destruct (PyStr.strip owner_id) as [|c o]; [apply quiet_ret|].
  apply quiet_bind; [|intros ?; apply quiet_ret].
  apply quiet_for_each. intros query [collected seen].
  apply quiet_bind; [apply quiet_attempt_template_query|]. intros results.
  apply quiet_for_each. intros template [collected' seen'].
  destruct (bool_decide _); apply quiet_ret.
Qed.

Lemma quiet_place_seeded initial : quiet (place_seeded initial).
Proof.
  unfold place_seeded. apply quiet_for_each. intros template [my_templates seen].
  repeat quiet_step.
Qed.

Lemma quiet_place_listed all my_templates seen :
  quiet (place_listed system all my_templates seen).
Proof.
  unfold place_listed. apply quiet_for_each.
  intros template [[my_templates' other_templates] seen'].
  assert (forall seen0 : gset pystr,
             quiet (bind (_is_my_template system template)
                      (fun mine : bool =>
                         if mine
                         then bind (_remember_template template)
                                (fun template' =>
                                   ret (my_templates' ++ [template'], other_templates, seen0))
                         else ret (my_templates', other_templates ++ [template], seen0))))
    as Hclassify.
  { intros seen0. apply quiet_bind; [apply quiet_is_my_template|].
    intros [|]; repeat quiet_step. }
  destruct (_template_identifier template) as [[|c identifier]|];
    try apply Hclassify.
  destruct (bool_decide _); [apply quiet_ret | apply Hclassify].
Qed.

Lemma remember_each_calls (templates done : list record) (s : t) :
  exists r s',
    for_each templates done
      (fun template done => bind (_remember_template template)
                              (fun template' => ret (done ++ [template']))) s
    = (inr r, s') /\ client s' = client s /\ calls s' = calls s.
Proof.
  revert done s. induction templates as [|template templates IH]; intros done s;
    cbn [for_each].
  - by eexists _, _.
  - destruct (remember_template_state template s) as (template' & Hremember).
    match type of Hremember with
    | _ = (_, ?s1) =>
      assert (bind (_remember_template template)
                (fun template' => ret (done ++ [template'])) s
              = (inr (done ++ [template']), s1)) as Hstep
          by (by rewrite (bind_inr _ _ _ _ _ Hremember));
      destruct (IH (done ++ [template']) s1) as (r & s' & Hrest & Hclient & Hcalls)
    end.
    rewrite (bind_inr _ _ _ _ _ Hstep), Hrest. by eexists _, _.
Qed.

(** [_attempt_template_query] runs one command, its search. It returns
    unless the search raises something else than [VastAICommandError] and
    [RecursionError]. *)
Lemma attempt_template_query_calls (query : pystr) (s : t) :
  exists r s',
    _attempt_template_query system query s = (r, s') /\
    client s' = client s /\ calls s' = calls s ++ [search_command query s] /\
    forall e, r = inl e -> (exists x, e = FromSubprocess x) \/ e = ValueError.
Proof.
  unfold _attempt_template_query, bind at 1. rewrite try_run_runtime_spec.
  fold (search_command query s).
  destruct (VastAIClient.run_with _ _ _ _ _) as [e|result] eqn:Hrun.
  - apply run_with_error in Hrun as [[err ->] | [[x ->] | [-> | ->]]];
      eexists _, _; (split; [reflexivity|]); split_and!; try done;
      intros e [= <-]; eauto.
  - destruct (remember_each_calls (_coerce_template_list result) []
                (set_calls (calls s ++ [search_command query s]) s))
      as (r & s' & -> & Hclient & Hcalls).
    eexists _, _. split; [reflexivity|]. split_and!; try done.
Qed.

(** The seeding pass keeps the cache, handles the failures of its commands
    and leaves a seeding attempt on record; with an attempt on record it
    does nothing, without one the first thing it runs is the search for
    [my=true]. *)
Lemma seed_my_templates_spec (s : t) :
  keeps_cache s (snd (seed_my_templates system s)) /\
  (forall e, fst (seed_my_templates system s) ≠ inl (CommandFailed e)) /\
  _attempted_my_template_query (snd (seed_my_templates system s)) = true /\
  (_attempted_my_template_query s = true -> seed_my_templates system s = (inr [], s)) /\
  (_attempted_my_template_query s = false ->
   exists more, calls (snd (seed_my_templates system s)) = calls s ++ [seeding_command s] ++ more).
Proof.
  destruct (seed_my_templates system s) as [r s'] eqn:Hrun. cbn [fst snd].
  unfold seed_my_templates, bind at 1, gets at 1 in Hrun.
  destruct (_attempted_my_template_query s) eqn:Hattempted.
  { injection Hrun as <- <-. split_and!; try done. apply keeps_cache_refl. }
  unfold bind at 1, modify at 1 in Hrun.
  set (s0 := set_attempted_my_template_query true s) in Hrun.
  match type of Hrun with
  | bind (_attempt_template_query system (py "my=true")) ?k _ = _ =>
    assert (forall mine, quiet (k mine)) as Hrest
  end.
  { intros mine.
    apply quiet_bind; [apply quiet_gets|]. intros override.
    apply quiet_bind; [apply quiet_ensure_user_id|]. intros user_id.
    apply quiet_bind.
    - apply quiet_for_each. intros owner_id initial.
      apply quiet_bind; [apply quiet_collect_owner_templates|]. intros ?. apply quiet_ret.
    - intros [|template initial]; [|apply quiet_ret].
      apply quiet_bind; [apply quiet_try_run|]. intros [?|]; apply quiet_ret. }
  destruct (attempt_template_query_calls (py "my=true") s0)
    as (r1 & s1 & Hquery & Hclient & Hcalls & Hraise).
  assert (keeps_cache s s1 /\ _attempted_my_template_query s1 = true) as [Hkeep1 Hattempted1].
  { destruct (quiet_attempt_template_query (py "my=true") s0) as [Hkeep _].
    rewrite Hquery in Hkeep. split; [|by apply Hkeep].
    eapply keeps_cache_trans; [apply keeps_cache_set_attempted | exact Hkeep]. }
  unfold bind at 1 in Hrun. rewrite Hquery in Hrun. destruct r1 as [e|mine].
  - injection Hrun as <- <-. split_and!; try done.
    + intros err [= ->]. by destruct (Hraise _ eq_refl) as [[x [=]] | [=]].
    + intros _. exists []. by rewrite Hcalls.
  - destruct (Hrest mine s1) as [Hkeep Hhandled]. rewrite Hrun in Hkeep, Hhandled.
    cbn [fst snd] in Hkeep, Hhandled. split_and!; try done.
    + by eapply keeps_cache_trans.
    + by apply Hkeep.
    + intros _. destruct Hkeep as (_ & _ & _ & _ & _ & _ & _ & more & ->).
      exists more. rewrite Hcalls. by rewrite <- app_assoc.
Qed.

End MethodFacts.

(** ** The ownership resolver *)

#[local] Set Warnings "-clear-no-such-hyp".

Section OwnershipFacts.
Import VastAIDeepFaceLabCLI.
Context `{PyRuntime}.
Variable system : list (list pystr) -> list pystr -> subprocess_result.

Lemma run_with_returns self args raw result v :
  VastAIClient.run_with self args raw true result = inr v ->
  exists stdout stderr,
    result = CompletedProcess 0 stdout stderr /\ VastAIClient.decode_output stdout = inr v.
Proof.
  unfold VastAIClient.run_with. destruct result as [|x|rc out err]; try discriminate.
  destruct (Z.eqb_spec rc 0) as [->|]; cbn [negb]; [|discriminate]. eauto.
Qed.

Lemma run_with_fails self args raw capture_json result e :
  VastAIClient.run_with self args raw capture_json result = inl (CommandFailed e) ->
  command e = VastAIClient._compose_command self args (raw || capture_json) /\
  exit_code e ≠ 0%Z.
Proof.
  unfold VastAIClient.run_with. destruct result as [|x|rc out err].
  - by intros [= <-].
  - discriminate.
  - destruct (Z.eqb_spec rc 0) as [->|]; cbn [negb]; [|by intros [= <-]].
    destruct capture_json; [|discriminate].
    intros [? | ?]%decode_output_error; discriminate.
Qed.

(** One run of [_ensure_template_cache] on an invalid cache: the seeding
    pass, the full listing, the placement of the seeded records and that of
    the listed ones; what one of them raises, the method raises. *)
Lemma ensure_template_cache_run (s : t) :
  _template_cache_valid s = false ->
  _ensure_template_cache system s
  = match seed_my_templates system s with
    | (inl e, s1) => (inl e, s1)
    | (inr initial, s1) =>
      match VastAIClient.run_with (client s) [py "search"; py "templates"; py "--raw"]
              false true (system (calls s1) (listing_command s)) with
      | inl e => (inl e, set_calls (calls s1 ++ [listing_command s]) s1)
      | inr listing =>
        match place_seeded initial (set_calls (calls s1 ++ [listing_command s]) s1) with
        | (inl e, s2) => (inl e, s2)
        | (inr (seeded, seen0), s2) =>
          match place_listed system (_coerce_template_list listing) seeded seen0 s2 with
          | (inl e, s3) => (inl e, s3)
          | (inr (my_templates, other_templates, _), s3) =>
            (inr (my_templates, other_templates),
             set_caches my_templates other_templates s3)
          end
        end
      end
    end.
Proof.
  intros Hvalid. unfold _ensure_template_cache, bind at 1, gets at 1. rewrite Hvalid.
  unfold bind at 1.
  pose proof (seed_my_templates_spec system s) as ((Hclient & _) & _).
  destruct (seed_my_templates system s) as [[e|initial] s1]; [done|].
  cbn [snd] in Hclient.
  unfold bind at 1, _fetch_all_templates, bind at 1, client_run, ret.
  unfold listing_command, ran. cbn [orb]. rewrite Hclient.
  destruct (VastAIClient.run_with _ _ _ _ _) as [e|listing]; [done|].
  unfold bind at 1.
  destruct (place_seeded initial _) as [[e|[seeded seen0]] s2]; [done|].
  unfold bind at 1. cbn [fst snd].
  destruct (place_listed system _ seeded seen0 s2) as [[e|[[my other] seen]] s3]; done.
Qed.

(** What a successful run on an invalid cache went through *)
Lemma ensure_template_cache_rebuilt (s s' : t) (my_templates other_templates : list record) :
  _template_cache_valid s = false ->
  _ensure_template_cache system s = (inr (my_templates, other_templates), s') ->
  exists initial s1 stdout stderr listing seeded seen0 s2 seen s3,
    seed_my_templates system s = (inr initial, s1) /\
    system (calls s1) (listing_command s) = CompletedProcess 0 stdout stderr /\
    VastAIClient.decode_output stdout = inr listing /\
    place_seeded initial (set_calls (calls s1 ++ [listing_command s]) s1)
    = (inr (seeded, seen0), s2) /\
    place_listed system (_coerce_template_list listing) seeded seen0 s2
    = (inr (my_templates, other_templates, seen), s3) /\
    s' = set_caches my_templates other_templates s3.
Proof.
  intros Hvalid. rewrite (ensure_template_cache_run s Hvalid).
  destruct (seed_my_templates system s) as [[e|initial] s1]; [discriminate|].
  destruct (VastAIClient.run_with _ _ _ _ _) as [e|listing] eqn:Hrun; [discriminate|].
  apply run_with_returns in Hrun as (stdout & stderr & Hsystem & Hdecode).
  destruct (place_seeded initial _) as [[e|[seeded seen0]] s2] eqn:Hseeded; [discriminate|].
  destruct (place_listed system _ seeded seen0 s2) as [[e|[[my other] seen]] s3]
    eqn:Hlisted; [discriminate|].
  intros [= <- <- <-]. by eexists _, _, _, _, _, _, _, _, _, _.
Qed.

Lemma identities_app a b : identities (a ++ b) = identities a ++ identities b.
Proof. unfold identities. apply omap_app. Qed.

Lemma for_each_invariant {A B} (P : B -> Prop) (body : A -> B -> M B) (xs : list A) :
  (forall x acc s acc' s', P acc -> body x acc s = (inr acc', s') -> P acc') ->
  forall acc s r s', P acc -> for_each xs acc body s = (inr r, s') -> P r.
Proof.
  intros Hbody. induction xs as [|x xs IH]; intros acc s r s' Hacc; simpl.
  - intros [= <- <-]. done.
  - unfold bind. destruct (body x acc s) as [[e|acc'] s1] eqn:Hstep; [discriminate|].
    apply IH. by eapply Hbody.
Qed.

Lemma for_each_prefix_invariant {A B} (P : list A -> B -> Prop) (body : A -> B -> M B)
    (xs : list A) :
  (forall done x acc s acc' s',
      P done acc -> body x acc s = (inr acc', s') -> P (done ++ [x]) acc') ->
  forall acc s r s', P [] acc -> for_each xs acc body s = (inr r, s') -> P xs r.
Proof.
  intros Hbody.
  assert (forall done acc s r s',
             P done acc -> for_each xs acc body s = (inr r, s') -> P (done ++ xs) r)
    as Hgen; [|intros acc s r s'; apply (Hgen [])].
  induction xs as [|x xs IH]; intros done acc s r s' Hacc; cbn [for_each].
  - intros [= <- <-]. by rewrite app_nil_r.
  - unfold bind. destruct (body x acc s) as [[e|acc'] s1] eqn:Hstep; [discriminate|].
    intros Hrest. replace (done ++ x :: xs) with ((done ++ [x]) ++ xs)
      by (by rewrite <- app_assoc).
    eapply IH; [|exact Hrest]. by eapply Hbody.
Qed.

Lemma NoDup_insert_middle (a b : list pystr) (x : pystr) :
  NoDup (a ++ b) -> x ∉ a ++ b -> NoDup ((a ++ [x]) ++ b).
Proof.
  intros (Ha & Hdisj & Hb)%NoDup_app [Hxa Hxb]%not_elem_of_app.
  apply NoDup_app. split_and!.
  - apply NoDup_app. split_and!; [done | | apply NoDup_singleton].
    intros y Hy ->%list_elem_of_singleton. done.
  - intros y [Hy| ->%list_elem_of_singleton]%elem_of_app; [by apply Hdisj | done].
  - done.
Qed.

Lemma NoDup_insert_end (a b : list pystr) (x : pystr) :
  NoDup (a ++ b) -> x ∉ a ++ b -> NoDup (a ++ (b ++ [x])).
Proof.
  rewrite app_assoc. intros Hab Hx. apply NoDup_app. split_and!.
  - done.
  - intros y Hy ->%list_elem_of_singleton. done.
  - apply NoDup_singleton.
Qed.

(** The seeded records end up, in order and each with its identifier, in
    the first list, and their identities, and no others, in [seen]. *)
Lemma place_seeded_spec (initial : list record) (s s' : t)
    (my_templates : list record) (seen : gset pystr) :
  place_seeded initial s = (inr (my_templates, seen), s') ->
  Forall2 (fun placed template => _template_identifier placed = _template_identifier template)
    my_templates initial /\
  forall i, i ∈ seen <-> i ∈ identities my_templates.
Proof.
  unfold place_seeded. intros Hloop.
  refine (for_each_prefix_invariant
            (fun (done : list record) (acc : list record * gset pystr) =>
               Forall2 (fun placed template =>
                          _template_identifier placed = _template_identifier template)
                 (fst acc) done /\
               forall i, i ∈ snd acc <-> i ∈ identities (fst acc))
            _ _ _ _ _ _ _ _ Hloop).
  - clear. intros done template [my seen] s [my' seen'] s' [Hdone Hseen].
    cbn [fst snd] in *. unfold bind.
    destruct (remember_template_spec template s) as (t' & ids & names & -> & Hid).
    unfold ret. intros [= <- <-]. cbn [fst snd]. split.
    + apply Forall2_app; [done|]. by constructor.
    + intros i. rewrite identities_app. unfold identities at 2, identity.
      cbn [omap list_omap]. rewrite Hid.
      destruct (_template_identifier template) as [[|c x]|]; cbn [add_if_truthy];
        set_solver.
  - cbn [fst snd]. split; [constructor | set_solver].
Qed.

Lemma same_identifier_identities (a b : list record) :
  Forall2 (fun placed template => _template_identifier placed = _template_identifier template)
    a b ->
  identities a = identities b.
Proof.
  induction 1 as [|x y a b Hxy _ IH]; [done|].
  unfold identities, identity in *. cbn [omap list_omap]. by rewrite Hxy, IH.
Qed.

(** The records of the full listing are placed once per identity, and never
    under an identity that was seen while seeding; what goes into the first
    list has the identifier of a record of the listing. *)
Lemma place_listed_spec (all seeded : list record) (seen0 : gset pystr) (s s' : t)
    (my_templates other_templates : list record) (seen : gset pystr) :
  place_listed system all seeded seen0 s = (inr (my_templates, other_templates, seen), s') ->
  exists listed,
    my_templates = seeded ++ listed /\
    Forall (fun placed =>
              exists template,
                template ∈ all /\
                _template_identifier placed = _template_identifier template) listed /\
    NoDup (identities listed ++ identities other_templates) /\
    forall i, i ∈ identities listed ++ identities other_templates -> i ∉ seen0.
Proof.
  unfold place_listed. intros Hloop.
  set (Q := fun (done : list record) (acc : list record * list record * gset pystr) =>
              exists listed,
                fst (fst acc) = seeded ++ listed /\
                Forall (fun placed =>
                          exists template,
                            template ∈ done /\
                            _template_identifier placed = _template_identifier template)
                  listed /\
                NoDup (identities listed ++ identities (snd (fst acc))) /\
                (forall i, i ∈ identities listed ++ identities (snd (fst acc)) ->
                           i ∈ snd acc /\ i ∉ seen0) /\
                seen0 ⊆ snd acc).
  assert (Q all (my_templates, other_templates, seen))
    as (listed & Hmy & Hfrom & Hnodup & Hin & _).
  2:{ exists listed. split_and!; [done | done | done |]. intros i Hi. by apply Hin. }
  refine (for_each_prefix_invariant Q _ _ _ _ _ _ _ _ Hloop).
  - clear. intros done template [[my other] seen] s [[my' other'] seen'] s'.
    intros (listed & Hmy & Hfrom & Hnodup & Hin & Hsub).
    cbn [fst snd] in Hmy, Hnodup, Hin, Hsub.
    assert (Forall (fun placed =>
                      exists template0,
                        template0 ∈ done ++ [template] /\
                        _template_identifier placed = _template_identifier template0)
              listed) as Hfrom'.
    { eapply Forall_impl; [exact Hfrom|]. intros placed (t0 & Ht0 & Hsame).
      exists t0. split; [set_solver | done]. }
    assert (forall seen1 : gset pystr,
               seen ⊆ seen1 ->
               (forall x, identity template = Some x -> (x ∉ seen) /\ (x ∈ seen1)) ->
               bind (_is_my_template system template)
                 (fun mine : bool =>
                    if mine
                    then bind (_remember_template template)
                           (fun template' => ret (my ++ [template'], other, seen1))
                    else ret (my, other ++ [template], seen1)) s
               = (inr (my', other', seen'), s') ->
               Q (done ++ [template]) (my', other', seen')) as Hclassify.
    { intros seen1 Hseen1 Hfresh. unfold bind at 1.
      destruct (_is_my_template system template s) as [[e|[|]] s1]; [discriminate| |].
      - unfold bind.
        destruct (remember_template_spec template s1) as (t' & ids & names & -> & Hid).
        unfold ret. intros [= <- <- <-]. unfold Q. cbn [fst snd].
        exists (listed ++ [t']). rewrite Hmy, <- app_assoc. split; [done|]. split.
        { apply Forall_app. split; [done|]. constructor; [|constructor].
          exists template. split; [set_solver | done]. }
        rewrite identities_app. unfold identities at 2 5. cbn [omap list_omap].
        assert (identity t' = identity template) as -> by (unfold identity; by rewrite Hid).
        destruct (identity template) as [x|] eqn:Hx; cbn [option_rect].
        + destruct (Hfresh x eq_refl) as [Hxseen Hxseen1]. split_and!.
          * apply NoDup_insert_middle; [done|]. intros Hxin. by apply Hin in Hxin as [? _].
          * intros i. rewrite <- app_assoc. intros [Hi|[Hi|Hi]%elem_of_app]%elem_of_app.
            -- destruct (Hin i) as [? ?]; [set_solver|]. set_solver.
            -- apply list_elem_of_singleton in Hi as ->. set_solver.
            -- destruct (Hin i) as [? ?]; [set_solver|]. set_solver.
          * set_solver.
        + rewrite app_nil_r. split_and!; [done | | set_solver].
          intros i Hi. destruct (Hin i Hi). set_solver.
      - unfold ret. intros [= <- <- <-]. unfold Q. cbn [fst snd].
        exists listed. split; [done|]. split; [done|].
        rewrite identities_app. unfold identities at 3 6. cbn [omap list_omap].
        destruct (identity template) as [x|] eqn:Hx; cbn [option_rect].
        + destruct (Hfresh x eq_refl) as [Hxseen Hxseen1]. split_and!.
          * apply NoDup_insert_end; [done|]. intros Hxin. by apply Hin in Hxin as [? _].
          * intros i. rewrite app_assoc. intros [Hi|Hi]%elem_of_app.
            -- destruct (Hin i Hi). set_solver.
            -- apply list_elem_of_singleton in Hi as ->. set_solver.
          * set_solver.
        + rewrite app_nil_r. split_and!; [done | | set_solver].
          intros i Hi. destruct (Hin i Hi). set_solver. }
    unfold identity in Hclassify.
    destruct (_template_identifier template) as [[|c x]|] eqn:Hident.
    + apply Hclassify; [done | discriminate].
    + destruct (bool_decide (c :: x ∈ seen)) eqn:Hseen.
      * unfold ret. intros [= <- <- <-]. exists listed. done.
      * apply bool_decide_eq_false in Hseen.
        apply Hclassify; [set_solver|]. intros y [= <-]. set_solver.
    + apply Hclassify; [done | discriminate].
  - exists []. cbn [fst snd]. rewrite app_nil_r.
    split_and!; [done | constructor | constructor | | done].
    intros i Hi. by apply elem_of_nil in Hi.
Qed.

(** The loop over the full listing drops a record only when its identity
    is one already placed, and puts into the second list only records of
    the listing, as they are. *)
Lemma place_listed_covers (all seeded : list record) (seen0 : gset pystr) (s s' : t)
    (my_templates other_templates : list record) (seen : gset pystr) :
  (forall i, i ∈ seen0 -> i ∈ identities seeded) ->
  place_listed system all seeded seen0 s = (inr (my_templates, other_templates, seen), s') ->
  (forall template i,
      template ∈ all -> identity template = Some i ->
      i ∈ identities my_templates \/ i ∈ identities other_templates) /\
  (forall template, template ∈ other_templates -> template ∈ all).
Proof.
  intros Hseeded. unfold place_listed. intros Hloop.
  set (Q := fun (done : list record) (acc : list record * list record * gset pystr) =>
              (forall i, i ∈ snd acc ->
                         i ∈ identities (fst (fst acc)) \/ i ∈ identities (snd (fst acc))) /\
              (forall template i, template ∈ done -> identity template = Some i ->
                                  i ∈ snd acc) /\
              (forall template, template ∈ snd (fst acc) -> template ∈ done)).
  assert (Q all (my_templates, other_templates, seen)) as (Hseen & Hdone & Hother).
  2:{ split; [|exact Hother]. intros template i Hin Hid. apply Hseen. by eapply Hdone. }
  refine (for_each_prefix_invariant Q _ _ _ _ _ _ _ _ Hloop).
  - clear. intros done template [[my other] seen] s [[my' other'] seen'] s'
                  (Hseen & Hdone & Hother).
    cbn [fst snd] in *.
    assert (forall seen1 : gset pystr,
               seen ⊆ seen1 ->
               (forall i, i ∈ seen1 -> i ∈ seen \/ identity template = Some i) ->
               (forall i, identity template = Some i -> i ∈ seen1) ->
               bind (_is_my_template system template)
                 (fun mine : bool =>
                    if mine
                    then bind (_remember_template template)
                           (fun template' => ret (my ++ [template'], other, seen1))
                    else ret (my, other ++ [template], seen1)) s
               = (inr (my', other', seen'), s') ->
               Q (done ++ [template]) (my', other', seen')) as Hclassify.
    { intros seen1 Hsub Hnew Hid. unfold bind.
      destruct (_is_my_template system template s) as [[e|[|]] s1]; [discriminate| |].
      - destruct (remember_template_spec template s1) as (t' & ids & names & -> & Hsame).
        unfold ret. intros [= <- <- <-]. unfold Q. cbn [fst snd]. split_and!.
        + intros i [Hi | Hi]%Hnew.
          * destruct (Hseen i Hi); [left | by right].
            rewrite identities_app. set_solver.
          * left. rewrite identities_app. unfold identities at 2, identity.
            cbn [omap list_omap]. rewrite Hsame. unfold identity in Hi.
            destruct (_template_identifier template) as [[|c x]|]; set_solver.
        + intros t0 i [Hin | ->%list_elem_of_singleton]%elem_of_app Hi;
            [apply Hsub; by eapply Hdone | by apply Hid].
        + intros t0 Hin. apply elem_of_app. left. by apply Hother.
      - unfold ret. intros [= <- <- <-]. unfold Q. cbn [fst snd]. split_and!.
        + intros i [Hi | Hi]%Hnew.
          * destruct (Hseen i Hi); [by left | right].
            rewrite identities_app. set_solver.
          * right. rewrite identities_app. unfold identities at 2.
            cbn [omap list_omap]. rewrite Hi. set_solver.
        + intros t0 i [Hin | ->%list_elem_of_singleton]%elem_of_app Hi;
            [apply Hsub; by eapply Hdone | by apply Hid].
        + intros t0 [Hin | ->%list_elem_of_singleton]%elem_of_app;
            apply elem_of_app; [left; by apply Hother | right; set_solver]. }
    destruct (_template_identifier template) as [[|c x]|] eqn:Hid.
    + apply Hclassify; [done | by left | unfold identity; by rewrite Hid].
    + destruct (bool_decide (c :: x ∈ seen)) eqn:Hin.
      * apply bool_decide_eq_true in Hin. unfold ret. intros [= <- <- <-].
        unfold Q. cbn [fst snd]. split_and!; [done | |].
        -- intros t0 i [Hin0 | ->%list_elem_of_singleton]%elem_of_app Hi;
             [by eapply Hdone|].
           unfold identity in Hi. rewrite Hid in Hi. by injection Hi as <-.
        -- intros t0 Hin0. apply elem_of_app. left. by apply Hother.
      * apply Hclassify; [set_solver | |].
        -- intros i [->%elem_of_singleton | Hi]%elem_of_union; [right | by left].
           unfold identity. by rewrite Hid.
        -- intros i. unfold identity. rewrite Hid. intros [= <-]. set_solver.
    + apply Hclassify; [done | by left | unfold identity; by rewrite Hid].
  - unfold Q. cbn [fst snd]. split_and!.
    + intros i Hi. left. by apply Hseeded.
    + intros t0 i Hin. by apply elem_of_nil in Hin.
    + intros t0 Hin. by apply elem_of_nil in Hin.
Qed.

End OwnershipFacts.

Section OwnershipTheorems.
Import VastAIDeepFaceLabCLI.
Context `{PyRuntime}.
Variable system : list (list pystr) -> list pystr -> subprocess_result.

(** What a call of [_ensure_user_id] returns and leaves: with an id cached
    the object is untouched; without one the lookup runs, and what it finds
    is stored, nothing when the command fails; what else the lookup raises
    passes through, and nothing is stored. *)
Lemma ensure_user_id_state (s : t) :
  _ensure_user_id system s
  = match _user_id s with
    | Some user_id => (inr (Some user_id), s)
    | None =>
      match VastAIClient.run_with (client s) [py "show"; py "user"; py "--raw"] false true
              (system (calls s) (show_user_command s)) with
      | inr result => (inr (found_in result), looked_up (found_in result) s)
      | inl (CommandFailed _) => (inr None, looked_up None s)
      | inl e => (inl e, set_calls (calls s ++ [show_user_command s]) s)
      end
    end.
Proof.
  unfold _ensure_user_id, bind at 1, gets at 1.
  destruct (_user_id s) as [user_id|] eqn:Hid; [done|].
  unfold bind at 1. rewrite try_run_spec.
  unfold looked_up, show_user_command, found_in.
  fold (ran [py "show"; py "user"; py "--raw"] s).
  destruct (VastAIClient.run_with _ _ _ _ _) as [[]|result]; try done.
  by destruct (match result with VDict d => _ | _ => None end).
Qed.


(** C8: when the caller's id is known and equals, as a string, the value of
    one of the owner fields of a record, [_is_my_template] classifies the
    record as owned. *)
Theorem caller_id_match_is_owned (s : t) (template : record)
    (user_id key : pystr) (v : value) :
  fst (_ensure_user_id system s) = inr (Some user_id) ->
  key ∈ owner_fields ->
  dict_get key template = Some v ->
  str v = user_id ->
  fst (_is_my_template system template s) = inr true.
Proof.
  intros Hknown Hkey Hget Hstr.
  unfold _is_my_template.
  destruct (existsb _ _); [done|].
  unfold bind at 1. unfold gets at 1.
  match goal with |- context [if ?b then ret true else _] => destruct b end; [done|].
  unfold bind at 1. unfold gets at 1.
  match goal with |- context [if ?b then ret true else _] => destruct b end; [done|].
  unfold bind at 1.
  destruct (_ensure_user_id system s) as [[e|found] s'] eqn:Hensure; simpl in Hknown;
    [discriminate|].
  injection Hknown as ->.
  assert (existsb (fun key => bool_decide (str (get template key) = user_id))
            [py "user_id"; py "owner_id"; py "creator_id"; py "created_by"; py "userid"]
          = true) as ->; [|done].
  apply existsb_exists. exists key. split.
  - by apply list_elem_of_In.
  - apply bool_decide_eq_true. unfold get. by rewrite Hget.
Qed.

Lemma keeps_cache_calls (s s' : t) : keeps_cache s s' -> exists more, calls s' = calls s ++ more.
Proof. by intros (_ & _ & _ & _ & _ & _ & _ & Hcalls). Qed.

(** The commands of a run on an invalid cache: those of the seeding pass,
    and, when that returns, the full listing and what follows it. *)
Lemma ensure_template_cache_calls (s : t) :
  _template_cache_valid s = false ->
  exists more,
    calls (snd (_ensure_template_cache system s))
    = calls (snd (seed_my_templates system s)) ++ more /\
    forall initial,
      fst (seed_my_templates system s) = inr initial ->
      exists after, more = listing_command s :: after.
Proof.
  intros Hvalid. rewrite (ensure_template_cache_run system s Hvalid).
  destruct (seed_my_templates system s) as [[e|initial] s1]; cbn [fst snd].
  { exists []. by rewrite app_nil_r. }
  set (s1' := set_calls (calls s1 ++ [listing_command s]) s1).
  assert (forall s2, keeps_cache s1' s2 ->
            exists more,
              calls s2 = calls s1 ++ more /\
              forall initial0 : list record,
                inr (A:=exception) initial = inr initial0 ->
                exists after, more = listing_command s :: after) as Hafter.
  { intros s2 [more Hmore]%keeps_cache_calls. exists (listing_command s :: more).
    split; [|by eauto]. rewrite Hmore. cbn [s1' calls set_calls].
    by rewrite <- app_assoc. }
  destruct (VastAIClient.run_with _ _ _ _ _) as [e|listing].
  { apply Hafter, keeps_cache_refl. }
  destruct (quiet_place_seeded initial s1') as [Hkeep2 _].
  destruct (place_seeded initial s1') as [[e|[seeded seen0]] s2]; cbn [snd] in Hkeep2.
  { by apply Hafter. }
  destruct (quiet_place_listed system (_coerce_template_list listing) seeded seen0 s2)
    as [Hkeep3 _].
  destruct (place_listed system _ seeded seen0 s2) as [[e|[[my other] seen]] s3];
    cbn [snd] in Hkeep3.
  { apply Hafter. by eapply keeps_cache_trans. }
  cbn [snd].
  destruct (Hafter s3) as (more & Hmore & Hlisting); [by eapply keeps_cache_trans|].
  exists more. split; [|done]. by destruct s3.
Qed.


(** Without a template created, that is when the user declines or the
    command fails, [_create_template] returns without touching the cache. *)
Lemma create_template_declined (a : template_answers) (s : t) :
  confirm a = false -> _create_template system a s = (inr tt, s).
Proof. intros Hconfirm. unfold _create_template. by rewrite Hconfirm. Qed.

Lemma create_template_failed (a : template_answers) (s : t) (e : VastAICommandError) :
  confirm a = true ->
  VastAIClient.run_with (client s)
    ([py "create"; py "template"; py "--name"; name a; py "--image"; image a;
      py "--env"; env a; py "--disk_space"; py (pretty (disk_space a))] ++ extra_args a)
    false true (system (calls s) (create_command a s))
  = inl (CommandFailed e) ->
  _create_template system a s
  = (inr tt, set_calls (calls s ++ [create_command a s]) s).
Proof.
  intros Hconfirm Hrun. unfold _create_template. rewrite Hconfirm.
  change (negb true) with false. cbv iota.
  unfold bind at 1. rewrite try_run_spec. fold (create_command a s). by rewrite Hrun.
Qed.

(** C2, as the code has it: when [_ensure_template_cache] returns, the
    cache is valid and holds the two lists returned. On a valid cache the
    call changes nothing. When it rebuilds the cache, the first list is the
    seeded records, one for each record the seeding pass returned, followed
    by records of the full listing; no non-empty identity occurs in both
    lists, none occurs twice in the second list, and none occurs twice among
    the records the listing added to the first list or is shared by such a
    record and a seeded one. *)
Theorem ensure_template_cache_partitions
    (s s' : t) (my_templates other_templates : list record) :
  _ensure_template_cache system s = (inr (my_templates, other_templates), s') ->
  _template_cache_valid s' = true /\
  _my_templates_cache s' = my_templates /\
  _other_templates_cache s' = other_templates /\
  if _template_cache_valid s then s' = s
  else
    (forall i, i ∈ identities my_templates -> i ∉ identities other_templates) /\
    NoDup (identities other_templates) /\
    exists initial before stdout stderr listing,
      fst (seed_my_templates system s) = inr initial /\
      system before (listing_command s) = CompletedProcess 0 stdout stderr /\
      VastAIClient.decode_output stdout = inr listing /\
      partitioned initial (_coerce_template_list listing) my_templates other_templates.
Proof.
  intros Hensure. destruct (_template_cache_valid s) eqn:Hvalid.
  { unfold _ensure_template_cache, bind, gets, ret in Hensure. rewrite Hvalid in Hensure.
    by injection Hensure as <- <- <-. }
  destruct (ensure_template_cache_rebuilt system s s' _ _ Hvalid Hensure)
    as (initial & s1 & out & err & listing & seeded & seen0 & s2 & seen & s3
        & Hseeding & Hsystem & Hlisting & Hseeded & Hlisted & ->).
  apply place_seeded_spec in Hseeded as [Hsame Hseen0].
  apply place_listed_spec in Hlisted as (listed & -> & Hfrom & Hnodup & Hfresh).
  pose proof (same_identifier_identities _ _ Hsame) as Hids.
  pose proof Hnodup as (Hlisted & Hdisjoint & Hother)%NoDup_app.
  split_and!; try done.
  - intros i. rewrite identities_app. intros [Hi|Hi]%elem_of_app.
    + intros Hio. apply (Hfresh i); [apply elem_of_app; by right | by apply Hseen0].
    + by apply Hdisjoint.
  - exists initial, (calls s1), out, err, listing. rewrite Hseeding.
    split_and!; try done.
    exists seeded, listed. split_and!; try done.
    intros i Hi Hin. apply (Hfresh i Hin). apply Hseen0. by rewrite Hids.
Qed.

(** The only [VastAICommandError] of [_ensure_template_cache] is the
    failure of the full listing: failures of the seeding queries and of the
    caller-id lookup are swallowed. It leaves the cache invalid but the
    seeding attempt on record, so that the next call starts with the
    listing and does not seed again. *)
Theorem ensure_template_cache_fails_only_on_the_listing
    (s s' : t) (e : VastAICommandError) :
  _ensure_template_cache system s = (inl (CommandFailed e), s') ->
  command e = listing_command s /\ exit_code e ≠ 0%Z /\
  _template_cache_valid s' = false /\ _attempted_my_template_query s' = true /\
  exists more,
    calls (snd (_ensure_template_cache system s')) = calls s' ++ [listing_command s] ++ more.
Proof.
  intros Hrun.
  destruct (_template_cache_valid s) eqn:Hvalid.
  { unfold _ensure_template_cache, bind, gets, ret in Hrun. by rewrite Hvalid in Hrun. }
  rewrite (ensure_template_cache_run system s Hvalid) in Hrun.
  pose proof (seed_my_templates_spec system s) as (Hkeep & Hhandled & Hattempted & _).
  destruct (seed_my_templates system s) as [[e0|initial] s1]; cbn [fst snd] in *.
  { injection Hrun as -> <-. by destruct (Hhandled e). }
  destruct (VastAIClient.run_with _ _ _ _ _) as [e0|listing] eqn:Hlisting.
  2:{ destruct (quiet_place_seeded initial (set_calls (calls s1 ++ [listing_command s]) s1))
        as [_ Hhandled2].
      destruct (place_seeded initial _) as [[e0|[seeded seen0]] s2]; cbn [fst] in *.
      { injection Hrun as -> <-. by destruct (Hhandled2 e). }
      destruct (quiet_place_listed system (_coerce_template_list listing) seeded seen0 s2)
        as [_ Hhandled3].
      destruct (place_listed system _ seeded seen0 s2) as [[e0|[[my other] seen]] s3];
        cbn [fst] in *; [|discriminate].
      injection Hrun as -> <-. by destruct (Hhandled3 e). }
  injection Hrun as -> <-.
  apply run_with_fails in Hlisting as [Hcommand Hcode].
  set (s' := set_calls (calls s1 ++ [listing_command s]) s1).
  assert (_template_cache_valid s' = false) as Hvalid'.
  { cbn. destruct Hkeep as (_ & _ & _ & _ & -> & _). done. }
  assert (_attempted_my_template_query s' = true) as Hattempted' by done.
  assert (listing_command s' = listing_command s) as Hsame.
  { unfold listing_command, ran. cbn. by destruct Hkeep as (-> & _). }
  split_and!; try done.
  destruct (ensure_template_cache_calls s' Hvalid') as (more & Hcalls & Hmore).
  pose proof (seed_my_templates_spec system s') as (_ & _ & _ & Hnothing & _).
  rewrite (Hnothing Hattempted') in Hcalls, Hmore. cbn [fst snd] in Hcalls, Hmore.
  destruct (Hmore [] eq_refl) as [after ->]. exists after.
  by rewrite Hcalls, Hsame.
Qed.

(** A call that succeeded is not repeated: the next call returns the same
    two lists from the cache, runs no command and changes nothing. *)
Theorem ensure_template_cache_answers_from_cache
    (s s' : t) (my_templates other_templates : list record) :
  _ensure_template_cache system s = (inr (my_templates, other_templates), s') ->
  _ensure_template_cache system s' = (inr (my_templates, other_templates), s').
Proof.
  intros Hrun.
  destruct (_template_cache_valid s) eqn:Hvalid.
  { unfold _ensure_template_cache, bind, gets, ret in Hrun |- *.
    rewrite Hvalid in Hrun. injection Hrun as <- <- <-. by rewrite Hvalid. }
  destruct (ensure_template_cache_rebuilt system s s' _ _ Hvalid Hrun)
    as (initial & s1 & out & err & listing & seeded & seen0 & s2 & seen & s3
        & _ & _ & _ & _ & _ & ->).
  reflexivity.
Qed.

(** The two lists cover the full listing: when [_ensure_template_cache]
    refreshes the cache, the listing command has succeeded, every non-empty
    identity of its records occurs in one of the two lists, and the second
    list holds only records of the listing, unchanged. *)
Theorem ensure_template_cache_covers_the_listing
    (s s' : t) (my_templates other_templates : list record) :
  _template_cache_valid s = false ->
  _ensure_template_cache system s = (inr (my_templates, other_templates), s') ->
  exists before stdout stderr listing,
    system before (listing_command s) = CompletedProcess 0 stdout stderr /\
    VastAIClient.decode_output stdout = inr listing /\
    (forall template i,
        template ∈ _coerce_template_list listing ->
        identity template = Some i ->
        i ∈ identities my_templates \/ i ∈ identities other_templates) /\
    (forall template,
        template ∈ other_templates ->
        template ∈ _coerce_template_list listing).
Proof.
  intros Hvalid Hrun.
  destruct (ensure_template_cache_rebuilt system s s' _ _ Hvalid Hrun)
    as (initial & s1 & out & err & listing & seeded & seen0 & s2 & seen & s3
        & _ & Hsystem & Hlisting & Hseeded & Hlisted & _).
  exists (calls s1), out, err, listing. split; [done|]. split; [done|].
  eapply place_listed_covers; [|exact Hlisted].
  intros i Hi. by apply (place_seeded_spec _ _ _ _ _ Hseeded).
Qed.

End OwnershipTheorems.

(** ** The resolver: classification and the searches by owner *)

Section ClassificationFacts.
Import VastAIDeepFaceLabCLI.
Context `{PyRuntime}.
Variable system : list (list pystr) -> list pystr -> subprocess_result.

(** [_is_my_template] runs at most one command: it either returns and
    leaves the object untouched, or, with no caller id cached, has run the
    caller-id lookup, once. Then it returns with what the lookup found
    stored, or it raises what the lookup lets through, which is not
    [VastAICommandError], with nothing stored. *)
Theorem is_my_template_runs_at_most_the_lookup (template : record) (s : t) :
  exists r s',
    _is_my_template system template s = (r, s') /\
    ((exists mine, r = inr mine) /\ s' = s
     \/ _user_id s = None /\
        ((exists mine found, r = inr mine /\ s' = looked_up found s)
         \/ (exists e, r = inl e /\ passes_through e /\
                       s' = set_calls (calls s ++ [show_user_command s]) s))).
Proof.
  unfold _is_my_template.
  destruct (existsb _ _); [eexists _, _; split; [reflexivity | left; eauto]|].
  unfold bind at 1, gets at 1.
  match goal with |- context [if ?b then ret true else _] => destruct b end;
    [eexists _, _; split; [reflexivity | left; eauto]|].
  unfold bind at 1, gets at 1.
  match goal with |- context [if ?b then ret true else _] => destruct b end;
    [eexists _, _; split; [reflexivity | left; eauto]|].
  unfold bind at 1. rewrite ensure_user_id_state.
  assert (forall (found : option pystr) (s1 : t),
             exists mine,
               (if match found with
                   | Some user_id =>
                     existsb (fun key => bool_decide (str (get template key) = user_id))
                       [py "user_id"; py "owner_id"; py "creator_id"; py "created_by";
                        py "userid"]
                   | None => false
                   end
                then ret true
                else bind (gets owner_id_override)
                       (fun override =>
                          match override with
                          | Some (c :: o) =>
                            ret (existsb
                                   (fun key => bool_decide (str (get template key) = c :: o))
                                   [py "creator_id"; py "owner_id"; py "created_by";
                                    py "user_id"])
                          | _ => ret false
                          end)) s1 = (inr mine, s1)) as Hrest.
  { intros found s1.
    match goal with |- context [if ?b then ret true else _] => destruct b end;
      [by eexists|].
    unfold bind, gets. destruct (owner_id_override s1) as [[|c o]|]; by eexists. }
  destruct (_user_id s) as [user_id|] eqn:Hid.
  { destruct (Hrest (Some user_id) s) as [mine ->].
    eexists _, _. split; [reflexivity|]. left. eauto. }
  destruct (VastAIClient.run_with _ _ _ _ _) as [e|result] eqn:Hrun.
  - apply run_with_error in Hrun as [[err ->] | Hpass].
    + destruct (Hrest None (looked_up None s)) as [mine ->].
      eexists _, _. split; [reflexivity|]. right. split; [done|]. left. eauto.
    + pose proof Hpass as [[x ->] | [-> | ->]];
        (eexists _, _; split; [reflexivity | right; split; [done|]; right; eauto]).
  - destruct (Hrest (found_in result) (looked_up (found_in result) s)) as [mine ->].
    eexists _, _. split; [reflexivity|]. right. split; [done|]. left. eauto.
Qed.

(** An ownership flag decides by itself: when one of the five flag fields
    holds a true value, a string being judged by its text (true, 1, yes or
    y, in any case and with surrounding white space) and not by being
    non-empty, the record is owned, and nothing is looked up or changed. *)
Theorem ownership_flag_is_decisive (template : record) (key : pystr) (s : t) :
  key ∈ flag_keys ->
  match get template key with
  | VStr text => lower (PyStr.strip text) ∈ flag_words
  | v => truthy v = true
  end ->
  _is_my_template system template s = (inr true, s).
Proof.
  intros Hkey Hflag. unfold _is_my_template.
  assert (existsb (flag_set template)
            [py "is_owner"; py "mine"; py "owned"; py "is_mine"; py "my_template"] = true)
    as ->; [|done].
  apply existsb_exists. exists key. split; [by apply list_elem_of_In in Hkey|].
  unfold flag_set. destruct (get template key); try done.
  by apply bool_decide_eq_true.
Qed.

(** A record one of whose creator_id, owner_id, created_by and user_id
    fields equals, as a string, a non-empty owner id override is owned,
    when the caller-id lookup, if it runs at all, raises nothing. A missing
    field counts as the string None. *)
Theorem owner_override_match_is_owned (template : record) (key : pystr) (s : t)
    (c : N) (o : pystr) (found : option pystr) :
  owner_id_override s = Some (c :: o) ->
  key ∈ override_fields ->
  str (get template key) = c :: o ->
  fst (_ensure_user_id system s) = inr found ->
  fst (_is_my_template system template s) = inr true.
Proof.
  intros Hoverride Hkey Hmatch Hlookup. unfold _is_my_template.
  destruct (existsb _ _); [done|].
  unfold bind at 1, gets at 1.
  match goal with |- context [if ?b then ret true else _] => destruct b end; [done|].
  unfold bind at 1, gets at 1.
  match goal with |- context [if ?b then ret true else _] => destruct b end; [done|].
  pose proof (quiet_ensure_user_id system s) as [Hkeep _].
  unfold bind at 1.
  destruct (_ensure_user_id system s) as [[e|found'] s1]; [discriminate|].
  cbn [snd] in Hkeep.
  match goal with |- context [if ?b then ret true else _] => destruct b end; [done|].
  unfold bind, gets.
  assert (owner_id_override s1 = Some (c :: o)) as ->.
  { destruct Hkeep as (_ & _ & _ & _ & _ & -> & _). done. }
  unfold ret. cbn [fst]. f_equal.
  apply existsb_exists. exists key. split; [by apply list_elem_of_In in Hkey|].
  by apply bool_decide_eq_true.
Qed.

(** What [_remember_template] has remembered, [_is_my_template] recognises:
    after it, every record with the same non-empty identifier as the
    remembered one, or with the same non-empty name, is owned. *)
Theorem remembered_template_is_mine (template other : record) (s : t) :
  (identity other ≠ None /\ identity other = identity template)
  \/ (truthy (get template (py "name")) = true /\
      truthy (get other (py "name")) = true /\
      str (get other (py "name")) = str (get template (py "name"))) ->
  fst (_is_my_template system other (snd (_remember_template template s))) = inr true.
Proof.
  intros Hsame.
  destruct (remember_template_state template s) as (template' & ->). cbn [snd].
  unfold _is_my_template.
  destruct (existsb _ _); [done|].
  unfold bind at 1, gets at 1. cbn [_my_template_ids set_my_template_names].
  destruct Hsame as [[Hsome Hid] | (Hname & Hname' & Hstr)].
  - unfold identity in Hsome, Hid.
    destruct (_template_identifier other) as [[|c identifier]|]; try done.
    destruct (_template_identifier template) as [[|c' identifier']|]; try done.
    injection Hid as <- <-. cbn [add_if_truthy set_my_template_ids _my_template_ids].
    rewrite bool_decide_eq_true_2 by set_solver. done.
  - match goal with |- context [if ?b then ret true else _] => destruct b end; [done|].
    unfold bind at 1, gets at 1. cbn [_my_template_names set_my_template_names].
    rewrite Hname, Hname', Hstr. rewrite bool_decide_eq_true_2 by set_solver. done.
Qed.

Lemma for_each_pure {A B} (body : A -> B -> M B) (xs : list A) :
  (forall x acc s, exists acc', body x acc s = (inr acc', s)) ->
  forall acc s, exists r, for_each xs acc body s = (inr r, s).
Proof.
  intros Hbody. induction xs as [|x xs IH]; intros acc s; cbn [for_each].
  - by eexists.
  - destruct (Hbody x acc s) as [acc' Hstep]. rewrite (bind_inr _ _ _ _ _ Hstep).
    apply IH.
Qed.

(** A loop each of whose rounds runs one command has run, when it returns,
    the commands of all its rounds, and, when a round raises, those of the
    rounds up to that one. *)
Lemma for_each_calls {A B} (cmd : A -> list pystr) (body : A -> B -> M B)
    (P : exception -> Prop) (s0 : t) (xs : list A) :
  (forall x acc s,
      client s = client s0 ->
      exists r s',
        body x acc s = (r, s') /\ client s' = client s0 /\
        calls s' = calls s ++ [cmd x] /\ forall e, r = inl e -> P e) ->
  forall acc s,
    client s = client s0 ->
    exists r s',
      for_each xs acc body s = (r, s') /\
      match r with
      | inr _ => calls s' = calls s ++ map cmd xs
      | inl e =>
        P e /\
        exists k, (0 < k <= length xs)%nat /\ calls s' = calls s ++ take k (map cmd xs)
      end.
Proof.
  intros Hbody. induction xs as [|x xs IH]; intros acc s Hclient; cbn [for_each map].
  - eexists _, _. split; [reflexivity|]. by rewrite app_nil_r.
  - destruct (Hbody x acc s Hclient) as (r1 & s1 & Hstep & Hclient1 & Hcalls1 & Hraise).
    unfold bind. rewrite Hstep. destruct r1 as [e|acc'].
    + eexists _, _. split; [reflexivity|]. split; [by apply Hraise|].
      exists 1%nat. cbn [length take]. split; [lia|]. by rewrite take_0.
    + destruct (IH acc' s1 Hclient1) as (r & s' & -> & Hrest).
      eexists _, _. split; [reflexivity|]. destruct r as [e|r].
      * destruct Hrest as (He & k & Hk & ->). split; [done|].
        exists (S k). cbn [length take]. split; [lia|].
        rewrite Hcalls1. by rewrite <- app_assoc.
      * rewrite Hrest, Hcalls1. by rewrite <- app_assoc.
Qed.

(** For a blank owner id [_collect_owner_templates] runs nothing and
    returns the empty list. Otherwise it searches for owner_id, creator_id,
    created_by, user_id and author_id, in this order and each with the
    stripped owner id: all five when it returns, whatever the earlier ones
    returned or however they failed, and the first of them up to the one
    that raised when it raises. It raises only what a search lets through
    other than [RecursionError], and never [VastAICommandError]. *)
Theorem collect_owner_templates_runs_five_searches (owner_id : pystr) (s : t) :
  exists r s',
    _collect_owner_templates system owner_id s = (r, s') /\
    match PyStr.strip owner_id with
    | [] => r = inr [] /\ s' = s
    | owner =>
      let searches := map (fun query => search_command query s) (owner_queries owner) in
      match r with
      | inr _ => calls s' = calls s ++ searches
      | inl e =>
        ((exists x, e = FromSubprocess x) \/ e = ValueError) /\
        exists k, (0 < k <= 5)%nat /\ calls s' = calls s ++ take k searches
      end
    end.
Proof.
  unfold _collect_owner_templates.
  destruct (PyStr.strip owner_id) as [|c owner].
  { by exists (inr []), s. }
  match goal with
  | |- context [for_each ?queries ?start ?body] =>
    assert (forall query acc s1,
               client s1 = client s ->
               exists r s2,
                 body query acc s1 = (r, s2) /\ client s2 = client s /\
                 calls s2 = calls s1 ++ [search_command query s] /\
                 forall e, r = inl e -> (exists x, e = FromSubprocess x) \/ e = ValueError)
      as Hbody;
      [|destruct (for_each_calls (fun query => search_command query s) body
                    (fun e => (exists x, e = FromSubprocess x) \/ e = ValueError)
                    s queries Hbody start s eq_refl) as (r & s' & Hloop & Hcalls)]
  end.
  - intros query [collected seen] s1 Hclient.
    destruct (attempt_template_query_calls system query s1)
      as (r & s2 & Hquery & Hclient2 & Hcalls2 & Hraise).
    assert (search_command query s1 = search_command query s) as Hsame.
    { unfold search_command, ran. by rewrite Hclient. }
    unfold bind. rewrite Hquery. destruct r as [e|results].
    { eexists _, _. split; [reflexivity|]. split_and!; [congruence | congruence |].
      intros e0 [= <-]. eauto. }
    match goal with
    | |- context [for_each results ?start ?body] =>
      assert (forall template acc s3, exists acc', body template acc s3 = (inr acc', s3))
        as Hpure;
        [|destruct (for_each_pure body results Hpure start s2) as [r ->]]
    end.
    { intros template [collected' seen'] s3. destruct (bool_decide _); by eexists. }
    eexists _, _. split; [reflexivity|]. split_and!; [congruence | congruence | done].
  - unfold bind at 1. rewrite Hloop. destruct r as [e|[collected seen]];
      eexists _, _; (split; [reflexivity | exact Hcalls]).
Qed.

(** The records [_collect_owner_templates] returns have pairwise distinct
    keys, the key of a record being its identifier or, without one, its
    sorted JSON text. *)
Theorem collect_owner_templates_returns_distinct_records
    (owner_id : pystr) (s s' : t) (collected : list record) :
  _collect_owner_templates system owner_id s = (inr collected, s') ->
  NoDup (map dedup_key collected).
Proof.
  unfold _collect_owner_templates.
  destruct (PyStr.strip owner_id) as [|c owner].
  { intros [= <- <-]. constructor. }
  unfold bind at 1.
  match goal with
  | |- context [for_each ?queries ?acc ?body] =>
    destruct (for_each queries acc body s) as [[e|[collected' seen]] s1] eqn:Hloop;
      [discriminate|]
  end.
  intros [= <- <-]. cbn [fst].
  set (P := fun acc : list record * gset pystr =>
              NoDup (map dedup_key (fst acc)) /\
              forall k, k ∈ map dedup_key (fst acc) -> k ∈ snd acc).
  change (NoDup (map dedup_key collected')) with (NoDup (map dedup_key (fst (collected', seen)))).
  refine (proj1 (for_each_invariant P _ _ _ _ _ _ _ _ Hloop)).
  - clear. intros query [collected seen] s [collected' seen'] s' Hacc.
    unfold bind.
    destruct (_attempt_template_query system query s) as [[e|results] s1]; [discriminate|].
    apply for_each_invariant; [|exact Hacc].
    clear. intros template [collected seen] s [collected' seen'] s' [Hnodup Hseen].
    fold (dedup_key template).
    destruct (bool_decide (dedup_key template ∈ seen)) eqn:Hin; unfold ret;
      intros [= <- <-]; [done|].
    apply bool_decide_eq_false in Hin. cbn [fst snd] in *. split; cbn [fst snd].
    + rewrite map_app. apply NoDup_app. split_and!; [done | | apply NoDup_singleton].
      intros k Hk ->%list_elem_of_singleton. by apply Hin, Hseen.
    + intros k. rewrite map_app. intros [Hk | ->%list_elem_of_singleton]%elem_of_app;
        [apply Hseen in Hk|]; set_solver.
  - split; [constructor|]. intros k Hk. by apply elem_of_nil in Hk.
Qed.

Lemma drop_while_idem (p : N -> bool) (s : pystr) :
  PyStr.drop_while p (PyStr.drop_while p s) = PyStr.drop_while p s.
Proof.
  induction s as [|c s IH]; cbn [PyStr.drop_while]; [done|].
  destruct (p c) eqn:Hc; [done|]. cbn [PyStr.drop_while]. by rewrite Hc.
Qed.

Lemma drop_while_keeps_last (p : N -> bool) (a : pystr) (c : N) :
  p c = false -> exists a', PyStr.drop_while p (a ++ [c]) = a' ++ [c].
Proof.
  intros Hc. induction a as [|x a IH]; cbn [app PyStr.drop_while].
  - rewrite Hc. by exists [].
  - destruct (p x); [done|]. by exists (x :: a).
Qed.

(** [s.strip().strip()] is [s.strip()]. *)
Lemma strip_idempotent (s : pystr) : PyStr.strip (PyStr.strip s) = PyStr.strip s.
Proof.
  unfold PyStr.strip.
  assert (PyStr.lstrip (PyStr.rstrip (PyStr.lstrip s)) = PyStr.rstrip (PyStr.lstrip s))
    as ->.
  { unfold PyStr.lstrip.
    destruct (PyStr.drop_while PyStr.isspace s) as [|c r] eqn:Hs; [done|].
    apply PyStrFacts.drop_while_stop in Hs. unfold PyStr.rstrip. cbn [rev].
    destruct (drop_while_keeps_last PyStr.isspace (rev r) c Hs) as [a' ->].
    rewrite rev_app_distr. cbn [rev app PyStr.drop_while]. by rewrite Hs. }
  unfold PyStr.rstrip. by rewrite rev_involutive, drop_while_idem.
Qed.

Lemma dict_set_same (k : pystr) (v : value) (d : record) :
  dict_get k d = Some v -> dict_set k v d = d.
Proof.
  induction d as [|[k' v'] d IH]; cbn [dict_get dict_set]; [done|].
  destruct (PyStr.eqb k' k); [by intros [= ->]|]. intros Hd. by rewrite IH.
Qed.

Lemma first_hash_some (keys : list pystr) (template : record) (h : pystr) :
  first_hash keys template = Some h -> h ≠ [] /\ PyStr.strip h = h.
Proof.
  induction keys as [|key keys IH]; cbn [first_hash]; [done|].
  destruct (truthy (get template key)); [|done].
  destruct (PyStr.strip (str (get template key))) as [|c value_str] eqn:Hstrip; [done|].
  intros [= <-]. split; [done|]. rewrite <- Hstrip. apply strip_idempotent.
Qed.

Lemma extract_template_hash_rec_some (fuel : nat) (template template' : record)
    (h : pystr) :
  _extract_template_hash_rec fuel template = (Some h, template') ->
  h ≠ [] /\ PyStr.strip h = h /\ dict_get (py "template_hash") template' = Some (VStr h).
Proof.
  revert template template' h.
  induction fuel as [|fuel IH]; intros template template' h; cbn [_extract_template_hash_rec].
  - destruct (first_hash hash_keys template) as [value_str|] eqn:Hfirst; [|done].
    intros [= <- <-]. apply first_hash_some in Hfirst as [? ?].
    split_and!; [done | done |]. by rewrite dict_get_set, PyStrFacts.eqb_refl.
  - destruct (first_hash hash_keys template) as [value_str|] eqn:Hfirst.
    { intros [= <- <-]. apply first_hash_some in Hfirst as [? ?].
      split_and!; [done | done |]. by rewrite dict_get_set, PyStrFacts.eqb_refl. }
    match goal with
    | |- context [get template ?key] => destruct (get template key) as [| | | | | |nested];
                                          try done
    end.
    destruct (_extract_template_hash_rec fuel nested) as [[[|c nested_hash]|] nested']
      eqn:Hnested; try done.
    intros [= <- <-]. apply IH in Hnested as (? & ? & _).
    split_and!; [done | done |]. by rewrite dict_get_set, PyStrFacts.eqb_refl.
Qed.

Lemma extract_template_hash_rec_none (fuel : nat) (template template' : record) :
  _extract_template_hash_rec fuel template = (None, template') -> template' = template.
Proof.
  destruct fuel as [|fuel]; cbn [_extract_template_hash_rec];
    destruct (first_hash hash_keys template) as [value_str|]; try done;
    try by intros [= <-].
  match goal with
  | |- context [get template ?key] => destruct (get template key) as [| | | | | |nested];
                                        try by intros [= <-]
  end.
  destruct (_extract_template_hash_rec fuel nested) as [[[|c nested_hash]|] nested']
    eqn:Hnested; try by intros [= <-].
  by apply extract_template_hash_rec_some in Hnested as [? _].
Qed.

(** A hash that [_extract_template_hash] finds is not empty and has no
    surrounding white space; the record carries it under template_hash
    afterwards, so that a second call finds the same hash and changes
    nothing. When it finds none, the record is left as it was. *)
Theorem extract_template_hash_stores_what_it_finds (template : record) :
  match _extract_template_hash template with
  | (Some hash_value, template') =>
    hash_value ≠ [] /\ PyStr.strip hash_value = hash_value /\
    get template' (py "template_hash") = VStr hash_value /\
    _extract_template_hash template' = (Some hash_value, template')
  | (None, template') => template' = template
  end.
Proof.
  unfold _extract_template_hash at 1.
  destruct (_extract_template_hash_rec _ template) as [[h|] template'] eqn:Hextract;
    [|by apply extract_template_hash_rec_none in Hextract].
  apply extract_template_hash_rec_some in Hextract as (Hh & Hstrip & Hget).
  split_and!; [done | done | by unfold get; rewrite Hget |].
  assert (first_hash hash_keys template' = Some h) as Hfirst.
  { unfold hash_keys. cbn [first_hash]. unfold get at 1 2. rewrite Hget.
    cbn [truthy str]. destruct h as [|c h]; [done|]. by rewrite Hstrip. }
  unfold _extract_template_hash.
  destruct (depth (VDict template')); cbn [_extract_template_hash_rec];
    rewrite Hfirst; by rewrite (dict_set_same _ _ _ Hget).
Qed.

End ClassificationFacts.

(** C3: the code departs from the claim. A lookup that failed stores
    nothing that tells it from a lookup not made, so the next call repeats
    it and invokes the tool a second time. *)
Lemma ensure_user_id_retries_after_failure :
  fst (VastAIDeepFaceLabCLI._ensure_user_id no_tool fresh_state) = inr None /\
  VastAIDeepFaceLabCLI._user_id after_failed_lookup = None /\
  VastAIDeepFaceLabCLI.calls after_failed_lookup
  = [[py "vastai"; py "show"; py "user"; py "--raw"; py "--raw"]] /\
  fst (VastAIDeepFaceLabCLI._ensure_user_id no_tool after_failed_lookup) = inr None /\
  VastAIDeepFaceLabCLI.calls
    (snd (VastAIDeepFaceLabCLI._ensure_user_id no_tool after_failed_lookup))
  = [[py "vastai"; py "show"; py "user"; py "--raw"; py "--raw"];
     [py "vastai"; py "show"; py "user"; py "--raw"; py "--raw"]].
Proof. vm_compute. done. Qed.

(** A tool that may not be executed makes the lookup raise
    [PermissionError]. *)
Lemma ensure_user_id_lets_other_exceptions_through :
  fst (VastAIDeepFaceLabCLI._ensure_user_id forbidden_tool fresh_state)
  = inl (FromSubprocess PermissionError).
Proof. vm_compute. reflexivity. Qed.

Lemma caller_id_match_is_owned_witness :
  fst (VastAIDeepFaceLabCLI._ensure_user_id no_tool caller_42) = inr (Some (py "42")) /\
  py "owner_id" ∈ owner_fields /\
  dict_get (py "owner_id") owned_by_42 = Some (VStr (py "42")) /\
  str (VStr (py "42")) = py "42" /\
  fst (VastAIDeepFaceLabCLI._is_my_template no_tool owned_by_42 caller_42) = inr true.
Proof.
  assert (Hkey : py "owner_id" ∈ owner_fields).
  { unfold owner_fields. apply list_elem_of_In. simpl. tauto. }
  split; [reflexivity|]. split; [exact Hkey|].
  split; [reflexivity|]. split; [reflexivity|].
  exact (caller_id_match_is_owned no_tool caller_42 owned_by_42 (py "42") (py "owner_id")
           (VStr (py "42")) eq_refl Hkey eq_refl eq_refl).
Defined.

Lemma ensure_template_cache_example :
  fst (VastAIDeepFaceLabCLI._ensure_template_cache template_tool fresh_state)
  = inr ([template_1; template_1; template_3], [template_2]).
Proof. vm_compute. reflexivity. Qed.

Lemma ensure_template_cache_example_run :
  VastAIDeepFaceLabCLI._ensure_template_cache template_tool fresh_state
  = (inr ([template_1; template_1; template_3], [template_2]),
     snd (VastAIDeepFaceLabCLI._ensure_template_cache template_tool fresh_state)).
Proof.
  rewrite (surjective_pairing
             (VastAIDeepFaceLabCLI._ensure_template_cache template_tool fresh_state))
    at 1.
  by rewrite ensure_template_cache_example.
Qed.

(** C2, as stated, does not hold. Two records of the listing whose
    identifier is the empty string, which the guards of both loops take for
    no identifier, are listed side by side. And a template that two seeding
    queries return occurs twice in the first list: the loop over the seeded
    records adds each identifier to the set of those seen without asking
    whether it is there, as the loop over the listing does. *)
Lemma identity_occurs_twice_in_valid_cache :
  (VastAIDeepFaceLabCLI._template_cache_valid
     (snd (VastAIDeepFaceLabCLI._ensure_template_cache blank_id_tool fresh_state)) = true /\
   VastAIDeepFaceLabCLI._other_templates_cache
     (snd (VastAIDeepFaceLabCLI._ensure_template_cache blank_id_tool fresh_state))
   = [[(py "id", VStr [])]; [(py "id", VStr [])]] /\
   VastAIDeepFaceLabCLI._template_identifier [(py "id", VStr [])] = Some []) /\
  (VastAIDeepFaceLabCLI._template_cache_valid
     (snd (VastAIDeepFaceLabCLI._ensure_template_cache template_tool fresh_state)) = true /\
   VastAIDeepFaceLabCLI._my_templates_cache
     (snd (VastAIDeepFaceLabCLI._ensure_template_cache template_tool fresh_state))
   = [template_1; template_1; template_3] /\
   VastAIDeepFaceLabCLI._template_identifier template_1 = Some (py "1") /\
   ¬ NoDup (omap VastAIDeepFaceLabCLI._template_identifier
              [template_1; template_1; template_3])).
Proof.
  split; [split_and!; vm_compute; reflexivity|].
  split_and!; try (vm_compute; reflexivity).
  intros Hnodup. apply NoDup_cons in Hnodup as [Hnotin _].
  apply Hnotin. vm_compute. constructor.
Qed.

Lemma ensure_template_cache_partitions_witness :
  fst (VastAIDeepFaceLabCLI._ensure_template_cache template_tool fresh_state)
  = inr ([template_1; template_1; template_3], [template_2]) /\
  (forall i, i ∈ identities [template_1; template_1; template_3] ->
             i ∉ identities [template_2]) /\
  NoDup (identities [template_2]) /\
  exists initial listing,
    fst (VastAIDeepFaceLabCLI.seed_my_templates template_tool fresh_state) = inr initial /\
    partitioned initial listing [template_1; template_1; template_3] [template_2].
Proof.
  split; [exact ensure_template_cache_example|].
  pose proof (ensure_template_cache_partitions template_tool fresh_state _ _ _
                ensure_template_cache_example_run)
    as (_ & _ & _ & Hdisjoint & Hother & initial & before & out & err & listing
        & Hseed & _ & _ & Hpartitioned).
  split; [exact Hdisjoint|]. split; [exact Hother|].
  exists initial, (VastAIDeepFaceLabCLI._coerce_template_list listing).
  split; [exact Hseed | exact Hpartitioned].
Defined.

Lemma empty_identifier_is_not_deduplicated :
  fst (VastAIDeepFaceLabCLI._ensure_template_cache blank_id_tool fresh_state)
  = inr ([], [[(py "id", VStr [])]; [(py "id", VStr [])]]) /\
  VastAIDeepFaceLabCLI._template_identifier [(py "id", VStr [])] = Some [].
Proof. vm_compute. done. Qed.

(** The cache of [stale_state] is valid and lists template 1 as not owned;
    after a template is created from there, the next query lists template
    5 as well. *)
Lemma stale_state_example :
  VastAIDeepFaceLabCLI._template_cache_valid stale_state = true /\
  fst (VastAIDeepFaceLabCLI._ensure_template_cache growing_tool stale_state)
  = inr ([], [template_1]) /\
  fst (VastAIDeepFaceLabCLI._ensure_template_cache growing_tool
         (snd (VastAIDeepFaceLabCLI._create_template growing_tool default_answers
                 stale_state)))
  = inr ([], [template_1; template_5]).
Proof. vm_compute. done. Qed.



Lemma ensure_template_cache_without_tool :
  fst (VastAIDeepFaceLabCLI._ensure_template_cache no_tool fresh_state)
  = inl (CommandFailed listing_not_found).
Proof. vm_compute. reflexivity. Qed.

Lemma ensure_template_cache_fails_only_on_the_listing_witness :
  fst (VastAIDeepFaceLabCLI._ensure_template_cache no_tool fresh_state)
  = inl (CommandFailed listing_not_found) /\
  command listing_not_found = listing_command fresh_state /\
  VastAIDeepFaceLabCLI._attempted_my_template_query
    (snd (VastAIDeepFaceLabCLI._ensure_template_cache no_tool fresh_state)) = true.
Proof.
  assert (VastAIDeepFaceLabCLI._ensure_template_cache no_tool fresh_state
          = (inl (CommandFailed listing_not_found),
             snd (VastAIDeepFaceLabCLI._ensure_template_cache no_tool fresh_state)))
    as Hrun.
  { rewrite (surjective_pairing
               (VastAIDeepFaceLabCLI._ensure_template_cache no_tool fresh_state)) at 1.
    by rewrite ensure_template_cache_without_tool. }
  split; [exact ensure_template_cache_without_tool|].
  pose proof (ensure_template_cache_fails_only_on_the_listing no_tool _ _ _ Hrun)
    as (Hcommand & _ & _ & Hattempted & _).
  split; [exact Hcommand | exact Hattempted].
Defined.

(** A tool that may not be executed makes the seeding pass, and with it
    [_ensure_template_cache], raise [PermissionError] at the first search. *)
Lemma ensure_template_cache_lets_other_exceptions_through :
  VastAIDeepFaceLabCLI._ensure_template_cache forbidden_tool fresh_state
  = (inl (FromSubprocess PermissionError),
     VastAIDeepFaceLabCLI.set_calls [seeding_command fresh_state]
       (VastAIDeepFaceLabCLI.set_attempted_my_template_query true fresh_state)).
Proof. vm_compute. reflexivity. Qed.

Lemma ensure_template_cache_answers_from_cache_witness :
  fst (VastAIDeepFaceLabCLI._ensure_template_cache template_tool fresh_state)
  = inr ([template_1; template_1; template_3], [template_2]) /\
  fst (VastAIDeepFaceLabCLI._ensure_template_cache template_tool
         (snd (VastAIDeepFaceLabCLI._ensure_template_cache template_tool fresh_state)))
  = inr ([template_1; template_1; template_3], [template_2]).
Proof.
  split; [exact ensure_template_cache_example|].
  exact (f_equal fst (ensure_template_cache_answers_from_cache template_tool _ _ _ _
                        ensure_template_cache_example_run)).
Defined.

Lemma ownership_flag_is_decisive_witness :
  py "is_owner" ∈ flag_keys /\
  lower (PyStr.strip (py " Yes ")) ∈ VastAIDeepFaceLabCLI.flag_words /\
  VastAIDeepFaceLabCLI._is_my_template no_tool flagged_record fresh_state
  = (inr true, fresh_state).
Proof.
  assert (py "is_owner" ∈ flag_keys) as Hkey.
  { apply list_elem_of_In. vm_compute. tauto. }
  assert (lower (PyStr.strip (py " Yes ")) ∈ VastAIDeepFaceLabCLI.flag_words) as Hword.
  { apply list_elem_of_In. vm_compute. tauto. }
  split; [exact Hkey|]. split; [exact Hword|].
  exact (ownership_flag_is_decisive no_tool flagged_record (py "is_owner") fresh_state
           Hkey Hword).
Defined.

Lemma owner_override_match_is_owned_witness :
  VastAIDeepFaceLabCLI.owner_id_override override_state = Some (py "7") /\
  py "creator_id" ∈ override_fields /\
  str (get created_by_7 (py "creator_id")) = py "7" /\
  fst (VastAIDeepFaceLabCLI._ensure_user_id no_tool override_state) = inr None /\
  fst (VastAIDeepFaceLabCLI._is_my_template no_tool created_by_7 override_state) = inr true.
Proof.
  assert (py "creator_id" ∈ override_fields) as Hkey.
  { apply list_elem_of_In. vm_compute. tauto. }
  split; [reflexivity|]. split; [exact Hkey|]. split; [reflexivity|].
  split; [reflexivity|].
  exact (owner_override_match_is_owned no_tool created_by_7 (py "creator_id") override_state
           (ch "7") [] None eq_refl Hkey eq_refl eq_refl).
Defined.

(** With a tool that may not be executed the lookup raises, and a record
    that matches the override is not classified. *)
Lemma owner_override_needs_the_lookup :
  fst (VastAIDeepFaceLabCLI._is_my_template forbidden_tool created_by_7 override_state)
  = inl (FromSubprocess PermissionError).
Proof. vm_compute. reflexivity. Qed.

Lemma remembered_template_is_mine_witness :
  identity template_1 = Some (py "1") /\
  fst (VastAIDeepFaceLabCLI._is_my_template no_tool template_1
         (snd (VastAIDeepFaceLabCLI._remember_template template_1 fresh_state)))
  = inr true.
Proof.
  split; [reflexivity|].
  apply remembered_template_is_mine. left. split; [discriminate | reflexivity].
Defined.

(** The second search returns template 2 again: it is skipped. *)
Lemma collect_owner_templates_example :
  fst (VastAIDeepFaceLabCLI._collect_owner_templates owner_tool (py "42") fresh_state)
  = inr [template_1; template_2; template_3].
Proof. vm_compute. reflexivity. Qed.

Lemma collect_owner_templates_returns_distinct_records_witness :
  fst (VastAIDeepFaceLabCLI._attempt_template_query owner_tool (py "owner_id=42")
         fresh_state)
  = inr [template_1; template_2] /\
  fst (VastAIDeepFaceLabCLI._attempt_template_query owner_tool (py "creator_id=42")
         fresh_state)
  = inr [template_2; template_3] /\
  NoDup (map dedup_key [template_1; template_2; template_3]).
Proof.
  split; [vm_compute; reflexivity|]. split; [vm_compute; reflexivity|].
  assert (VastAIDeepFaceLabCLI._collect_owner_templates owner_tool (py "42") fresh_state
          = (inr [template_1; template_2; template_3],
             snd (VastAIDeepFaceLabCLI._collect_owner_templates owner_tool (py "42")
                    fresh_state)))
    as Hrun.
  { rewrite (surjective_pairing
               (VastAIDeepFaceLabCLI._collect_owner_templates owner_tool (py "42")
                  fresh_state)) at 1.
    by rewrite collect_owner_templates_example. }
  exact (collect_owner_templates_returns_distinct_records owner_tool _ _ _ _ Hrun).
Defined.

Lemma ensure_template_cache_covers_the_listing_witness :
  VastAIDeepFaceLabCLI._template_cache_valid fresh_state = false /\
  exists before stdout stderr listing,
    template_tool before (listing_command fresh_state) = CompletedProcess 0 stdout stderr /\
    VastAIClient.decode_output stdout = inr listing /\
    (forall template i,
        template ∈ VastAIDeepFaceLabCLI._coerce_template_list listing ->
        identity template = Some i ->
        i ∈ identities [template_1; template_1; template_3] \/ i ∈ identities [template_2]) /\
    (forall template,
        template ∈ [template_2] ->
        template ∈ VastAIDeepFaceLabCLI._coerce_template_list listing).
Proof.
  split; [reflexivity|].
  exact (ensure_template_cache_covers_the_listing template_tool fresh_state _ _ _
           eq_refl ensure_template_cache_example_run).
Defined.

(** * Further properties of the code *)

(** ** The bracket scan and the start index *)

Section ExtractionShape.
Import VastAIClient JsonText Brackets ExtractFacts.

Lemma lstrip_length s : (length (PyStr.lstrip s) <= length s)%nat.
Proof.
  unfold PyStr.lstrip. induction s as [|c s IH]; cbn [PyStr.drop_while length]; [done|].
  destruct (PyStr.isspace c); cbn [length]; lia.
Qed.

Lemma is_open_not_space c : is_open c = true -> PyStr.isspace c = false.
Proof. intros [-> | ->]%is_open_cases; reflexivity. Qed.

(** [_find_json_start] skips leading white space: it is the index of the
    first character that is not white space when that is an opening
    bracket, and 0 in every other case. *)
Theorem find_json_start_spec (output : pystr) :
  _find_json_start output
  = match PyStr.lstrip output with
    | c :: _ =>
      if is_open c then (length output - length (PyStr.lstrip output))%nat else O
    | [] => O
    end.
Proof.
  unfold _find_json_start.
  assert (forall idx s,
             _find_json_start_from idx s
             = match PyStr.lstrip s with
               | c :: _ =>
                 if is_open c
                 then (idx + (length s - length (PyStr.lstrip s)))%nat else O
               | [] => O
               end) as Hfrom; [|by rewrite Hfrom].
  intros idx s. revert idx. unfold PyStr.lstrip.
  induction s as [|c s IH]; intros idx; cbn [_find_json_start_from PyStr.drop_while];
    [done|].
  fold (is_open c). destruct (is_open c) eqn:Hopen.
  - rewrite (is_open_not_space c Hopen), Hopen. cbn [length]. lia.
  - destruct (PyStr.isspace c) eqn:Hspace; cbn [negb].
    + rewrite IH. pose proof (lstrip_length s) as Hlen. unfold PyStr.lstrip in Hlen.
      destruct (PyStr.drop_while PyStr.isspace s) as [|c' s']; [done|].
      destruct (is_open c'); [|done]. cbn [length] in *. lia.
    + by rewrite Hopen.
Qed.

(** On the stripped output [run] works with, the start index is 0: the
    slice [data[start:]] is never taken. *)
Theorem find_json_start_of_stripped_output (stdout : pystr) :
  _find_json_start (PyStr.strip stdout) = O.
Proof.
  destruct (PyStr.strip stdout) as [|c data] eqn:Hstrip; [done|].
  unfold _find_json_start. cbn [_find_json_start_from].
  destruct (PyStr.char_in c (py "{[")); [done|].
  by rewrite (PyStrFacts.strip_head _ _ _ Hstrip).
Qed.

(** Where the scan ends: at a closing bracket, and the text up to it gives
    the same scan. *)
Lemma scan_balanced_end chars idx stack j :
  scan_balanced chars idx stack = Some j ->
  exists p c rest,
    chars = p ++ c :: rest /\ j = (idx + length p)%nat /\
    (c = ch "}" \/ c = ch "]") /\
    scan_balanced (p ++ [c]) idx stack = Some j.
Proof.
  revert idx stack. induction chars as [|char chars IH]; intros idx stack;
    cbn [scan_balanced]; [discriminate|].
  assert (forall stack',
             scan_balanced chars (S idx) stack' = Some j ->
             exists p c rest,
               char :: chars = (char :: p) ++ c :: rest /\
               j = (idx + length (char :: p))%nat /\
               (c = ch "}" \/ c = ch "]") /\
               scan_balanced (p ++ [c]) (S idx) stack' = Some j) as Hnext.
  { intros stack' (p & c & rest & -> & -> & Hc & Hscan)%IH.
    exists p, c, rest. cbn [length]. split_and!; [done | lia | done | done]. }
  destruct (PyStr.char_in char (py "{[")) eqn:Hopen.
  { intros (p & c & rest & Hsplit & Hj & Hc & Hscan)%Hnext.
    exists (char :: p), c, rest. split_and!; try done.
    cbn [app scan_balanced]. by rewrite Hopen. }
  destruct (PyStr.char_in char (py "}]")) eqn:Hclose.
  - destruct stack as [|top stack]; [done|].
    destruct (negb (top =? char)) eqn:Htop; [done|].
    destruct stack as [|next stack].
    + intros [= <-]. exists [], char, chars. split_and!; [done | simpl; lia | | ].
      * unfold PyStr.char_in in Hclose. revert Hclose. literals. simpl.
        rewrite !orb_true_iff, !N.eqb_eq. intuition discriminate.
      * cbn [app scan_balanced]. by rewrite Hopen, Hclose, Htop.
    + intros (p & c & rest & Hsplit & Hj & Hc & Hscan)%Hnext.
      exists (char :: p), c, rest. split_and!; try done.
      cbn [app scan_balanced]. by rewrite Hopen, Hclose, Htop.
  - intros (p & c & rest & Hsplit & Hj & Hc & Hscan)%Hnext.
    exists (char :: p), c, rest. split_and!; try done.
    cbn [app scan_balanced]. by rewrite Hopen, Hclose.
Qed.

Lemma no_open_split s :
  no_open s \/ exists a o r, s = a ++ o :: r /\ no_open a /\ is_open o = true.
Proof.
  unfold no_open. induction s as [|c s IH]; [by left|].
  destruct (is_open c) eqn:Hc.
  - right. by exists [], c, s.
  - destruct IH as [Hs | (a & o & r & -> & Ha & Ho)].
    + left. cbn [forallb]. by rewrite Hc, Hs.
    + right. exists (c :: a), o, r. split_and!; [done | | done].
      cbn [forallb]. by rewrite Hc, Ha.
Qed.

(** What [_extract_json_payload] finds, seen from the first opening bracket *)
Lemma extract_from_open o r cleaned :
  is_open o = true ->
  _extract_json_payload (o :: r) = Some cleaned ->
  exists p c rest,
    o :: r = p ++ c :: rest /\ cleaned = p ++ [c] /\ (c = ch "}" \/ c = ch "]") /\
    scan_balanced (p ++ [c]) 0 [] = Some (length p).
Proof.
  intros Ho. unfold _extract_json_payload.
  destruct (start_after_noise [] o r eq_refl Ho) as (i & others & Hstart & Hmin).
  simpl app in Hstart. rewrite Hstart, Hmin. simpl length.
  change (drop 0 (o :: r)) with (o :: r).
  destruct (scan_balanced (o :: r) 0 []) as [idx|] eqn:Hscan; [|discriminate].
  apply scan_balanced_end in Hscan as (p & c & rest & Hsplit & -> & Hc & Hscan).
  intros [= <-]. exists p, c, rest. split_and!; try done.
  rewrite Hsplit.
  replace (p ++ c :: rest) with ((p ++ [c]) ++ rest) by (by rewrite <- app_assoc).
  apply take_app_length'. rewrite length_app. simpl. lia.
Qed.

(** What [_extract_json_payload] returns is a region of the text: it starts
    at the first opening bracket of the text and ends with a closing
    bracket. *)
Theorem extract_json_payload_is_a_bracketed_region (output cleaned : pystr) :
  _extract_json_payload output = Some cleaned ->
  exists lead trail,
    output = lead ++ cleaned ++ trail /\ no_open lead /\
    bracketed cleaned = true /\ closed cleaned.
Proof.
  intros Hextract.
  destruct (no_open_split output) as [Hnone | (a & o & r & -> & Ha & Ho)].
  { by rewrite extract_no_open in Hextract. }
  rewrite extract_skips_noise in Hextract by done.
  destruct (extract_from_open o r cleaned Ho Hextract)
    as (p & c & rest & Hsplit & -> & Hc & _).
  exists a, rest. split_and!.
  - rewrite Hsplit. by rewrite <- app_assoc.
  - done.
  - destruct p as [|o' p]; cbn [app] in Hsplit; injection Hsplit as <- _.
    + apply is_open_cases in Ho. destruct Ho as [-> | ->], Hc as [Hc | Hc];
        by vm_compute in Hc.
    + apply is_open_cases in Ho as [-> | ->]; reflexivity.
  - by exists p, c.
Qed.

(** Extraction is idempotent: the region extracted is what the extraction
    finds in it. *)
Theorem extract_json_payload_idempotent (output cleaned : pystr) :
  _extract_json_payload output = Some cleaned ->
  _extract_json_payload cleaned = Some cleaned.
Proof.
  intros Hextract.
  destruct (no_open_split output) as [Hnone | (a & o & r & -> & Ha & Ho)].
  { by rewrite extract_no_open in Hextract. }
  rewrite extract_skips_noise in Hextract by done.
  destruct (extract_from_open o r cleaned Ho Hextract)
    as (p & c & rest & Hsplit & -> & Hc & Hscan).
  destruct p as [|o' p]; cbn [app] in Hsplit; injection Hsplit as <- _.
  { apply is_open_cases in Ho. destruct Ho as [-> | ->], Hc as [Hc | Hc];
      by vm_compute in Hc. }
  unfold _extract_json_payload.
  destruct (start_after_noise [] o (p ++ [c]) eq_refl Ho) as (i & others & Hstart & Hmin).
  cbn [app] in Hstart, Hscan |- *. rewrite Hstart, Hmin. cbn [length].
  change (drop 0 (o :: p ++ [c])) with (o :: p ++ [c]).
  rewrite Hscan. f_equal. apply firstn_all2. cbn [length]. rewrite length_app. simpl. lia.
Qed.

(** Without an opening bracket, or without a closing one, nothing is
    extracted. *)
Theorem extract_json_payload_needs_both_brackets (output : pystr) :
  no_open output \/ ((ch "}" ∉ output) /\ (ch "]" ∉ output)) ->
  _extract_json_payload output = None.
Proof.
  intros [Hnone | [Hbrace Hbracket]]; [by apply extract_no_open|].
  destruct (_extract_json_payload output) as [cleaned|] eqn:Hextract; [|done].
  exfalso.
  destruct (no_open_split output) as [Hnone | (a & o & r & -> & Ha & Ho)].
  { by rewrite extract_no_open in Hextract. }
  rewrite extract_skips_noise in Hextract by done.
  destruct (extract_from_open o r cleaned Ho Hextract)
    as (p & c & rest & Hsplit & _ & Hc & _).
  assert (c ∈ a ++ o :: r) as Hin.
  { rewrite Hsplit. set_solver. }
  destruct Hc as [-> | ->]; done.
Qed.

End ExtractionShape.

Lemma extract_json_payload_is_a_bracketed_region_witness :
  VastAIClient._extract_json_payload (py "note " ++ pyq "{'a': [1]}" ++ py " end")
  = Some (pyq "{'a': [1]}") /\
  exists lead trail,
    py "note " ++ pyq "{'a': [1]}" ++ py " end" = lead ++ pyq "{'a': [1]}" ++ trail /\
    Brackets.no_open lead /\
    JsonText.bracketed (pyq "{'a': [1]}") = true /\ JsonText.closed (pyq "{'a': [1]}").
Proof.
  assert (VastAIClient._extract_json_payload (py "note " ++ pyq "{'a': [1]}" ++ py " end")
          = Some (pyq "{'a': [1]}")) as Hextract by (vm_compute; reflexivity).
  split; [exact Hextract|].
  exact (extract_json_payload_is_a_bracketed_region _ _ Hextract).
Defined.

Lemma extract_json_payload_idempotent_witness :
  VastAIClient._extract_json_payload (py "note " ++ pyq "{'a': [1]}" ++ py " end")
  = Some (pyq "{'a': [1]}") /\
  VastAIClient._extract_json_payload (pyq "{'a': [1]}") = Some (pyq "{'a': [1]}").
Proof.
  assert (VastAIClient._extract_json_payload (py "note " ++ pyq "{'a': [1]}" ++ py " end")
          = Some (pyq "{'a': [1]}")) as Hextract by (vm_compute; reflexivity).
  split; [exact Hextract|].
  exact (extract_json_payload_idempotent _ _ Hextract).
Defined.

Lemma extract_json_payload_needs_both_brackets_witness :
  ((ch "}" ∉ py "{'a': [1") /\ (ch "]" ∉ py "{'a': [1")) /\
  VastAIClient._extract_json_payload (py "{'a': [1") = None.
Proof.
  assert ((ch "}" ∉ py "{'a': [1") /\ (ch "]" ∉ py "{'a': [1")) as Hnone.
  { split; intros Hin; apply list_elem_of_In in Hin; vm_compute in Hin; intuition discriminate. }
  split; [exact Hnone|].
  apply extract_json_payload_needs_both_brackets. right. exact Hnone.
Defined.

(** ** The two monitors of the log stream *)

Section MonitorFacts.
Import Stream StreamFacts InstanceLogs.
Variable self : VastAIClient.t.
Variable spawn : list pystr -> option child.

Section Loop.
Variable instance_id : pystr.

Local Abbreviation log_command := (command self (log_args instance_id) false).
Local Abbreviation iterate := (Stream.iterate self spawn instance_id).

Lemma drop_nth_error {A} (l : list A) (n : nat) (x : A) :
  nth_error l n = Some x -> drop n l = x :: drop (S n) l /\ (n < length l)%nat.
Proof.
  revert n. induction l as [|y l IH]; intros [|n]; simpl; try done.
  - intros [= ->]. split; [done | lia].
  - intros [Hdrop Hlen]%IH. split; [done | lia].
Qed.

Lemma drop_nth_error_none {A} (l : list A) (n : nat) :
  nth_error l n = None -> drop n l = [].
Proof.
  revert n. induction l as [|y l IH]; intros [|n]; simpl; try done. apply IH.
Qed.

Lemma finish_finished (c : child) (n : nat) (r : option exception * Popen) :
  exists out p, finish c n r = (out, Finished (Some (c, n, p))) /\ forall line, out ≠ Yield line.
Proof. destruct r as [[e|] p]; simpl; eauto. Qed.

(** The loop over the stream, from a generator suspended after [n] reads:
    what it prints and detects, and where it leaves the generator. *)
Lemma iterate_suspended (b : bool) (c : child) (p : Popen) (fuel n : nat)
    (printed : list pystr) (detected : bool) :
  (length (reads c) - n < fuel)%nat ->
  exists g raised,
    iterate b fuel (Suspended c n p) printed detected
    = (printed ++ (if b then until_marker (yielded (drop n (reads c)))
                   else yielded (drop n (reads c))),
       detected || existsb has_marker (yielded (drop n (reads c))), g, raised) /\
    if b && existsb has_marker (yielded (drop n (reads c)))
    then g = Suspended c (n + length (until_marker (yielded (drop n (reads c))))) p
         /\ raised = None
    else exists n' q, g = Finished (Some (c, n', q)).
Proof.
  revert n printed detected.
  induction fuel as [|fuel IH]; intros n printed detected Hfuel; [lia|].
  cbn [Stream.iterate next]. unfold resume.
  destruct (nth_error (reads c) n) as [[line|]|] eqn:Hn.
  - apply drop_nth_error in Hn as [-> Hlen]. unfold yielded at 1 2 3 4 5.
    cbn [lines_read map until_marker existsb].
    fold (yielded (drop (S n) (reads c))).
    fold (has_marker (PyStr.rstrip_char 10 line)).
    destruct (has_marker (PyStr.rstrip_char 10 line)) eqn:Hmarker.
    + rewrite orb_true_r. cbn [orb]. destruct b.
      * eexists _, _. split; [reflexivity|]. cbn [andb length].
        split; [f_equal; lia | done].
      * destruct (IH (S n) (printed ++ [PyStr.rstrip_char 10 line]) true)
          as (g & raised & -> & Hg); [lia|].
        exists g, raised. cbn [orb andb] in *. by rewrite <- app_assoc.
    + cbn [orb].
      destruct (IH (S n) (printed ++ [PyStr.rstrip_char 10 line]) detected)
        as (g & raised & -> & Hg); [lia|].
      exists g, raised. split.
      * destruct b; by rewrite <- app_assoc.
      * destruct (b && existsb has_marker (yielded (drop (S n) (reads c)))); [|done].
        destruct Hg as [-> ->]. cbn [length]. split; [f_equal; lia | done].
  - apply drop_nth_error in Hn as [-> _].
    destruct (finish_finished c (S n) (interrupted c (S n) log_command p))
      as (out & q & -> & Hout).
    unfold yielded. cbn [lines_read map until_marker existsb].
    rewrite andb_false_r, orb_false_r.
    destruct out as [line| |e]; [by destruct (Hout line)|..];
      eexists _, _; (split; [by destruct b; rewrite app_nil_r | eauto]).
  - apply drop_nth_error_none in Hn as ->.
    destruct (finish_finished c n (finally_clause c n log_command false None p))
      as (out & q & -> & Hout).
    unfold yielded. cbn [lines_read map until_marker existsb].
    rewrite andb_false_r, orb_false_r.
    destruct out as [line| |e]; [by destruct (Hout line)|..];
      eexists _, _; (split; [by destruct b; rewrite app_nil_r | eauto]).
Qed.

(** The loop of a monitor whose stream starts child [c] *)
Lemma iterate_created (b : bool) (c : child) :
  spawn log_command = Some c ->
  exists g raised,
    iterate b (enough self spawn instance_id) Created [] false
    = (if b then until_marker (yielded (reads c)) else yielded (reads c),
       existsb has_marker (yielded (reads c)), g, raised) /\
    if b && existsb has_marker (yielded (reads c))
    then g = Suspended c (length (until_marker (yielded (reads c)))) (Handle None false false)
         /\ raised = None
    else exists n q, g = Finished (Some (c, n, q)).
Proof.
  intros Hspawn.
  destruct (iterate_suspended b c (Handle None false false) (S (length (reads c))) 0 [] false)
    as (g & raised & Hloop & Hg); [lia|].
  rewrite !drop_0 in Hloop, Hg. cbn [app orb Nat.add] in Hloop, Hg.
  exists g, raised. split; [|exact Hg].
  rewrite <- Hloop. unfold enough. rewrite Hspawn.
  cbn [Stream.iterate next]. by rewrite Hspawn.
Qed.

Lemma iterate_without_binary (b : bool) :
  spawn log_command = None ->
  iterate b (enough self spawn instance_id) Created [] false
  = ([], false, Finished None, Some PopenFileNotFound).
Proof.
  intros Hspawn. unfold enough. rewrite Hspawn. cbn [Stream.iterate next].
  by rewrite Hspawn.
Qed.

(** [_poll_provisioning_logs] prints the lines up to and including the
    first one with the marker and reads no further; it reports the marker
    exactly when a line the child writes before an interrupt contains it. *)
Theorem poll_provisioning_logs_stops_at_marker (c : child) :
  spawn log_command = Some c ->
  printed (_poll_provisioning_logs self spawn instance_id)
  = until_marker (yielded (reads c)) /\
  provisioning_detected (_poll_provisioning_logs self spawn instance_id)
  = existsb has_marker (yielded (reads c)) /\
  forall n p,
    stream_iter (_poll_provisioning_logs self spawn instance_id) ≠ Suspended c n p.
Proof.
  intros Hspawn. unfold _poll_provisioning_logs.
  destruct (iterate_created true c Hspawn) as (g & raised & -> & _).
  destruct g as [|c' n' p'|p']; simpl;
    repeat match goal with
           | |- context [finally_clause ?c ?n ?cmd ?t ?pe ?p] =>
             destruct (finally_clause c n cmd t pe p) as [[e|] q]
           end; done.
Qed.

Lemma finally_clause_running_child (c : child) (n : nat) (rc : Z) (cmd : list pystr) :
  exited c n = None -> on_terminate c = Some rc -> benign rc ->
  finally_clause c n cmd false None (Handle None false false)
  = (None, Handle (Some rc) true false).
Proof.
  intros Hexited Hterm Hrc.
  assert (poll c n (Handle None false false) = (None, Handle None false false)) as Hpoll.
  { unfold poll, os_status. cbn [returncode kill_sent terminate_sent]. by rewrite Hexited. }
  assert (terminate_then_kill c n (Handle None false false)
          = (None, Handle (Some rc) true false)) as Hstop.
  { unfold terminate_then_kill, terminate. rewrite Hpoll.
    cbn [returncode kill_sent terminate_sent].
    unfold wait, poll, os_status. cbn [returncode kill_sent terminate_sent].
    by rewrite Hexited, Hterm. }
  unfold finally_clause. rewrite Hpoll, Hstop. cbn [returncode andb].
  unfold signal.SIGTERM. change (Z.opp 15) with (-15)%Z.
  destruct Hrc as [-> | [-> | ->]]; reflexivity.
Qed.


Lemma iterate_drives (b : bool) (fuel : nat) (g : generator) (printed : list pystr)
    (detected : bool) (k : nat) :
  exists actions k',
    drive self (log_args instance_id) false spawn actions g k
    = (snd (fst (iterate b fuel g printed detected)), k').
Proof.
  revert g printed detected k.
  induction fuel as [|fuel IH]; intros g printed detected k; cbn [Stream.iterate].
  - by exists [], k.
  - assert (forall printed' detected',
               exists actions k',
                 drive self (log_args instance_id) false spawn actions g k
                 = (snd (fst (iterate b fuel
                                (snd (next self (log_args instance_id) false spawn g))
                                printed' detected')), k')) as Hnext.
    { intros printed' detected'.
      destruct (IH (snd (next self (log_args instance_id) false spawn g))
                  printed' detected' (k + popen_calls_of Next g)%nat)
        as (actions & k' & Hdrive).
      by exists (Next :: actions), k'. }
    assert (exists actions k',
               drive self (log_args instance_id) false spawn actions g k
               = (snd (next self (log_args instance_id) false spawn g), k')) as Hone.
    { by exists [Next], (k + popen_calls_of Next g)%nat. }
    destruct (next self (log_args instance_id) false spawn g) as [[line| |e] g'];
      cbn [fst snd] in *; try done.
    destruct (PyStr.contains MARKER line); [destruct b|]; cbn [fst snd]; auto.
Qed.

Lemma drive_app (actions more : list action) (g : generator) (k : nat) :
  drive self (log_args instance_id) false spawn (actions ++ more) g k
  = drive self (log_args instance_id) false spawn more
      (fst (drive self (log_args instance_id) false spawn actions g k))
      (snd (drive self (log_args instance_id) false spawn actions g k)).
Proof.
  revert g k. induction actions as [|a actions IH]; intros g k; cbn [app drive]; [done|].
  apply IH.
Qed.

(** Closing the stream after the loop leaves it torn down. *)
Lemma close_after_loop (b : bool) :
  torn_down self (log_args instance_id) false spawn
    (snd (close self (log_args instance_id) false
            (snd (fst (iterate b (enough self spawn instance_id) Created [] false))))).
Proof.
  destruct (iterate_drives b (enough self spawn instance_id) Created [] false 0)
    as (actions & k & Hdrive).
  set (g := snd (fst (iterate b (enough self spawn instance_id) Created [] false))) in *.
  assert (tidy self (log_args instance_id) false spawn
            (snd (close self (log_args instance_id) false g))
            (k + popen_calls_of Close g)) as Htidy.
  { apply (drive_tidy self (log_args instance_id) false spawn (actions ++ [Close])
             Created 0); [done|].
    rewrite drive_app, Hdrive. done. }
  assert (finished (snd (close self (log_args instance_id) false g)) = true) as Hfinished.
  { destruct g as [|c n p|p]; cbn [close]; [done | | done].
    by destruct (finally_clause _ _ _ _ _ _). }
  split; [done|]. intros c n p Hg. rewrite Hg in Htidy. cbn [tidy] in Htidy.
  destruct Htidy as (_ & Hc & Hsettled). split_and!; [done | done |].
  rewrite Hg. cbn [alive].
  destruct Hsettled as (Hstatus & [_ Horder] & Hkill). rewrite <- Hstatus.
  destruct (returncode p) as [rc|] eqn:Hrc; [done|]. intros _.
  specialize (Hkill eq_refl). destruct (Horder Hkill) as [_ Hterminate].
  split; [done|]. symmetry in Hstatus. unfold os_status in Hstatus.
  rewrite Hkill in Hstatus. by destruct (exited c n).
Qed.

End Loop.

(** With the binary missing, the stream raises [FileNotFoundError] at the
    first [next]: unlike [run], it does not turn it into
    [VastAICommandError], and neither monitor catches it. What
    [_monitor_instance_logs] lets through is this exception, or the
    [EOFError] of [wait_for_enter] when no line of input is left. *)
Theorem monitors_let_a_missing_binary_escape (instance_id : pystr) :
  spawn (command self (log_args instance_id) false) = None ->
  next self (log_args instance_id) false spawn Created
  = (Raise PopenFileNotFound, Finished None) /\
  _poll_provisioning_logs self spawn instance_id
  = Monitored [] false (Finished None) (Some PopenFileNotFound) /\
  forall line rest,
    PyStr.strip line = instance_id -> instance_id ≠ [] ->
    _monitor_instance_logs self spawn (line :: rest)
    = Streamed
        (Monitored [] false (Finished None)
           (Some match rest with [] => EOFError | _ => PopenFileNotFound end))
        (tail rest).
Proof.
  intros Hspawn. split_and!.
  - cbn [next]. by rewrite Hspawn.
  - unfold _poll_provisioning_logs. by rewrite iterate_without_binary.
  - intros line rest Hline Hid. unfold _monitor_instance_logs, Prompts.prompt_text.
    rewrite Hline. destruct instance_id as [|ch0 id]; [done|].
    rewrite iterate_without_binary by done. cbn [close].
    by destruct rest.
Qed.

(** [_monitor_instance_logs] asks for the instance id first: without a
    line of input it raises [EOFError], and for a blank answer it returns
    without a stream. Otherwise it prints every line the child writes before
    an interrupt, in order and without trailing newlines, and reports the
    marker exactly when one of these lines contains it. *)
Theorem monitor_instance_logs_prints_every_line (line : pystr) (rest : list pystr) :
  _monitor_instance_logs self spawn [] = PromptEOF /\
  match PyStr.strip line with
  | [] => _monitor_instance_logs self spawn (line :: rest) = NoInstance rest
  | instance_id =>
    forall c,
      spawn (command self (log_args instance_id) false) = Some c ->
      exists m unread,
        _monitor_instance_logs self spawn (line :: rest) = Streamed m unread /\
        printed m = yielded (reads c) /\
        provisioning_detected m = existsb has_marker (yielded (reads c))
  end.
Proof.
  split; [done|]. unfold _monitor_instance_logs, Prompts.prompt_text.
  destruct (PyStr.strip line) as [|ch0 id]; [done|].
  intros c Hspawn.
  destruct (iterate_created (ch0 :: id) false c Hspawn) as (g & raised & -> & _).
  destruct (close _ _ _ g) as [[e|] g']; [by eexists _, _|].
  destruct (wait_for_enter rest) as [[e|] rest']; by eexists _, _.
Qed.


End MonitorFacts.

(** ** The lines a stream yields *)

Section YieldedLines.
Import Stream.

Lemma all_equal_repeat (c : N) (w : pystr) :
  forallb (N.eqb c) w = true -> w = repeat c (length w).
Proof.
  induction w as [|x w IH]; cbn [forallb length repeat]; [done|].
  intros [Hx Hw]%andb_true_iff. apply N.eqb_eq in Hx as <-. by rewrite <- IH.
Qed.

Lemma rstrip_char_spec (c : N) (s : pystr) :
  (exists k, s = PyStr.rstrip_char c s ++ repeat c k) /\
  forall l, PyStr.rstrip_char c s ≠ l ++ [c].
Proof.
  unfold PyStr.rstrip_char. split.
  - destruct (JsonFacts.drop_while_split (N.eqb c) (rev s)) as (w & Hsplit & Hw).
    exists (length w). apply all_equal_repeat in Hw.
    transitivity (rev (rev s)); [by rewrite rev_involutive|].
    rewrite Hsplit at 1. rewrite rev_app_distr. f_equal. rewrite Hw at 1.
    generalize (length w). intros k. induction k as [|k IH]; [done|].
    cbn [repeat rev]. rewrite IH. symmetry. apply repeat_cons.
  - intros l Hl. apply (f_equal (@rev N)) in Hl.
    rewrite rev_involutive, rev_app_distr in Hl. cbn [rev app] in Hl.
    apply PyStrFacts.drop_while_stop in Hl. by rewrite N.eqb_refl in Hl.
Qed.

(** A line the stream yields is a line the child wrote with all its
    trailing newlines removed, not only the last one, and nothing else
    changed. *)
Theorem stream_yields_lines_without_trailing_newlines
    (self : VastAIClient.t) (args : list pystr) (raw : bool)
    (spawn : list pystr -> option child) (g g' : generator) (line : pystr) :
  next self args raw spawn g = (Yield line, g') ->
  exists c n p text k,
    g' = Suspended c (S n) p /\ nth_error (reads c) n = Some (Line text) /\
    text = line ++ repeat 10 k /\ forall l, line ≠ l ++ [10].
Proof.
  assert (forall c n p,
             resume self args raw c n p = (Yield line, g') ->
             exists c n p text k,
               g' = Suspended c (S n) p /\ nth_error (reads c) n = Some (Line text) /\
               text = line ++ repeat 10 k /\ forall l, line ≠ l ++ [10]) as Hresume.
  { intros c n p. unfold resume.
    destruct (nth_error (reads c) n) as [[text|]|] eqn:Hn.
    - intros [= <- <-]. destruct (rstrip_char_spec 10 text) as [[k Hk] Hend].
      exists c, n, p, text, k. done.
    - by destruct (interrupted _ _ _ _) as [[e|] q].
    - by destruct (finally_clause _ _ _ _ _ _) as [[e|] q]. }
  destruct g as [|c n p|p]; cbn [next]; [|apply Hresume|done].
  destruct (spawn _) as [c|]; [apply Hresume | done].
Qed.

End YieldedLines.

(** A child that writes the marker and then exits with code 1 on its own. *)
Lemma poll_provisioning_logs_example_failure :
  Stream._poll_provisioning_logs example_client (fun _ => Some marker_then_fail) (py "7")
  = Stream.Monitored
      [py "=== Provisioning Complete ==="] true
      (Stream.Finished (Some (marker_then_fail, 1%nat, Handle (Some 1%Z) false false)))
      (Some (CommandFailed
               (CommandError [py "vastai"; py "logs"; py "7"; py "--follow"] 1 (py "lost")))).
Proof. vm_compute. reflexivity. Qed.

(** The instance id is the first line of input, stripped; the line after
    it answers [wait_for_enter]. *)
Lemma monitor_instance_logs_example :
  InstanceLogs._monitor_instance_logs example_client (fun _ => Some provisioning_child)
    [py " 7 " ++ nl; nl; py "left"]
  = InstanceLogs.Streamed
      (Stream.Monitored
         [py "booting"; py "installing"; py "=== Provisioning Complete ==="; py "cleanup"]
         true
         (Stream.Finished
            (Some (provisioning_child, 4%nat, Handle (Some (-15)%Z) true false)))
         None)
      [py "left"].
Proof. vm_compute. reflexivity. Qed.

Lemma monitor_instance_logs_prints_every_line_witness :
  exists m unread,
    InstanceLogs._monitor_instance_logs example_client (fun _ => Some provisioning_child)
      [py " 7 " ++ nl; nl]
    = InstanceLogs.Streamed m unread /\
    Stream.printed m
    = [py "booting"; py "installing"; py "=== Provisioning Complete ==="; py "cleanup"].
Proof.
  destruct (proj2 (monitor_instance_logs_prints_every_line
                     example_client (fun _ => Some provisioning_child) (py " 7 " ++ nl) [nl])
              provisioning_child eq_refl)
    as (m & unread & Hrun & Hprinted & _).
  exists m, unread. split; [exact Hrun | exact Hprinted].
Defined.

Lemma poll_provisioning_logs_stops_at_marker_witness :
  Stream.printed
    (Stream._poll_provisioning_logs example_client (fun _ => Some provisioning_child) (py "7"))
  = [py "booting"; py "installing"; py "=== Provisioning Complete ==="].
Proof.
  exact (proj1 (poll_provisioning_logs_stops_at_marker
                  example_client (fun _ => Some provisioning_child) (py "7")
                  provisioning_child eq_refl)).
Defined.

Lemma monitors_let_a_missing_binary_escape_witness :
  Stream.propagated (Stream._poll_provisioning_logs example_client (fun _ => None) (py "7"))
  = Some PopenFileNotFound /\
  InstanceLogs._monitor_instance_logs example_client (fun _ => None) [py "7" ++ nl; nl]
  = InstanceLogs.Streamed
      (Stream.Monitored [] false (Stream.Finished None) (Some PopenFileNotFound)) [] /\
  InstanceLogs._monitor_instance_logs example_client (fun _ => None) [py "7" ++ nl]
  = InstanceLogs.Streamed
      (Stream.Monitored [] false (Stream.Finished None) (Some EOFError)) [].
Proof.
  pose proof (monitors_let_a_missing_binary_escape
                example_client (fun _ => None) (py "7") eq_refl) as (_ & Hpoll & Hmonitor).
  split; [exact (f_equal Stream.propagated Hpoll)|]. split.
  - apply (Hmonitor (py "7" ++ nl) [nl]); [reflexivity | discriminate].
  - apply (Hmonitor (py "7" ++ nl) []); [reflexivity | discriminate].
Defined.



Lemma stream_yields_lines_without_trailing_newlines_witness :
  exists c n p text k,
    Stream.Suspended provisioning_child 1 (Handle None false false) = Stream.Suspended c (S n) p /\
    nth_error (reads c) n = Some (Line text) /\
    text = py "booting" ++ repeat 10 k /\ forall l, py "booting" ≠ l ++ [10].
Proof.
  exact (stream_yields_lines_without_trailing_newlines
           example_client [py "logs"] false (fun _ => Some provisioning_child)
           Stream.Created _ _ eq_refl).
Defined.

(** ** The prompts *)

Section PromptFacts.
Import Prompts.
Context `{PyRuntime}.
Variable int : pystr -> option Z.

(** [prompt_int] returns no value below the minimum: an answer below it,
    the default included, is asked for again. What it returns is what the
    last line read gives: the default for a blank line, its integer
    otherwise. *)
Theorem prompt_int_respects_the_minimum (default : option Z) (minimum value : Z)
    (inputs rest : list pystr) :
  prompt_int int default (Some minimum) inputs = Some (value, rest) ->
  (minimum <= value)%Z /\
  exists skipped line,
    inputs = skipped ++ line :: rest /\
    match PyStr.strip line, default with
    | [], Some default => value = default
    | raw, _ => int raw = Some value
    end.
Proof.
  revert value rest. induction inputs as [|line inputs IH]; intros value rest;
    cbn [prompt_int]; [done|].
  assert (prompt_int int default (Some minimum) inputs = Some (value, rest) ->
          (minimum <= value)%Z /\
          exists skipped line',
            line :: inputs = skipped ++ line' :: rest /\
            match PyStr.strip line', default with
            | [], Some default => value = default
            | raw, _ => int raw = Some value
            end) as Hnext.
  { intros (Hmin & skipped & line' & -> & Hline)%IH. split; [done|].
    by exists (line :: skipped), line'. }
  destruct (match PyStr.strip line, default with
            | [], Some default0 => Some default0
            | _, _ => int (PyStr.strip line)
            end) as [parsed|] eqn:Hparsed; [|done].
  destruct (Z.ltb_spec parsed minimum); [done|].
  intros [= <- <-]. split; [done|]. exists [], line. split; [done|].
  destruct (PyStr.strip line), default; by simplify_eq.
Qed.

(** [prompt_yes_no] is decided by the first line that is blank or one of
    y, yes, n and no, in any case and with surrounding white space: a blank
    line gives the default; the lines before it are read and dropped. *)
Theorem prompt_yes_no_takes_the_first_answer (default answer : bool)
    (inputs rest : list pystr) :
  prompt_yes_no default inputs = Some (answer, rest) ->
  exists skipped line,
    inputs = skipped ++ line :: rest /\
    Forall (fun l => yes_no_answer default l = None) skipped /\
    yes_no_answer default line = Some answer.
Proof.
  revert answer rest. induction inputs as [|line inputs IH]; intros answer rest;
    cbn [prompt_yes_no]; [done|].
  assert (forall l, yes_no_answer default l
                    = match lower (PyStr.strip l) with
                      | [] => Some default
                      | c :: r =>
                        if bool_decide (c :: r ∈ [py "y"; py "yes"]) then Some true
                        else if bool_decide (c :: r ∈ [py "n"; py "no"]) then Some false
                        else None
                      end) as Hanswer by done.
  destruct (lower (PyStr.strip line)) as [|c r] eqn:Hline.
  { intros [= <- <-]. exists [], line. split_and!; [done | constructor |].
    by rewrite Hanswer, Hline. }
  destruct (bool_decide (c :: r ∈ [py "y"; py "yes"])) eqn:Hyes.
  { intros [= <- <-]. exists [], line. split_and!; [done | constructor |].
    by rewrite Hanswer, Hline, Hyes. }
  destruct (bool_decide (c :: r ∈ [py "n"; py "no"])) eqn:Hno.
  { intros [= <- <-]. exists [], line. split_and!; [done | constructor |].
    by rewrite Hanswer, Hline, Hyes, Hno. }
  intros (skipped & line' & -> & Hskipped & Hline')%IH.
  exists (line :: skipped), line'. split_and!; [done | | done].
  constructor; [|done]. by rewrite Hanswer, Hline, Hyes, Hno.
Qed.

Lemma select_loop_valid (len_items : nat) (extra_options : option (list (pystr * pystr)))
    (inputs rest : list pystr) (chosen : selection) :
  select_loop int len_items extra_options inputs = Some (Some chosen, rest) ->
  match chosen with
  | Index position => (position < len_items)%nat
  | Extra key =>
    ¬ cancels key /\ exists options label, extra_options = Some options /\ (key, label) ∈ options
  end.
Proof.
  induction inputs as [|line inputs IH]; cbn [select_loop]; [done|].
  set (choice := match PyStr.strip line with [] => py "1" | c :: r => c :: r end).
  destruct (bool_decide (lower choice ∈ [py "q"; py "quit"; py "exit"])) eqn:Hcancel;
    [done|].
  apply bool_decide_eq_false in Hcancel.
  destruct (is_extra_option extra_options choice) eqn:Hextra.
  { intros [= <- <-]. split; [done|].
    unfold is_extra_option in Hextra.
    destruct extra_options as [[|option options]|]; try done.
    apply existsb_exists in Hextra as ([key label] & Hin & Hkey).
    apply PyStrFacts.eqb_eq in Hkey. cbn [fst] in Hkey. subst key.
    exists (option :: options), label. split; [done|]. by apply list_elem_of_In. }
  destruct (int choice) as [position|]; [|done].
  destruct (Z.leb_spec 1 position); cbn [andb]; [|done].
  destruct (Z.leb_spec position (Z.of_nat len_items)); [|done].
  intros [= <- <-]. lia.
Qed.

Lemma select_loop_cancelled (len_items : nat) (extra_options : option (list (pystr * pystr)))
    (inputs rest : list pystr) :
  select_loop int len_items extra_options inputs = Some (None, rest) ->
  exists skipped line, inputs = skipped ++ line :: rest /\ cancels (choice_of line).
Proof.
  induction inputs as [|line inputs IH]; cbn [select_loop]; [done|].
  fold (choice_of line).
  assert (select_loop int len_items extra_options inputs = Some (None, rest) ->
          exists skipped line', line :: inputs = skipped ++ line' :: rest /\
                                cancels (choice_of line')) as Hnext.
  { intros (skipped & line' & -> & Hcancel)%IH. by exists (line :: skipped), line'. }
  destruct (bool_decide (lower (choice_of line) ∈ [py "q"; py "quit"; py "exit"]))
    eqn:Hcancel.
  { apply bool_decide_eq_true in Hcancel. intros [= <-]. by exists [], line. }
  destruct (is_extra_option extra_options (choice_of line)); [done|].
  destruct (int (choice_of line)) as [position|]; [|done].
  by destruct ((1 <=? position)%Z && (position <=? Z.of_nat len_items)%Z).
Qed.

(** With no items [prompt_select_from_list] returns [None] without reading
    a line. Otherwise what it returns can be used as it is: an index is a
    position in the list of items, so that indexing the list with it cannot
    fail; a key is one of the extra options and none of the words that
    cancel; and [None] means that the last line read was one of these
    words. *)
Theorem prompt_select_from_list_returns_a_valid_choice {A} (items : list A)
    (extra_options : option (list (pystr * pystr))) (inputs rest : list pystr)
    (chosen : option selection) :
  prompt_select_from_list int items extra_options inputs = Some (chosen, rest) ->
  match items with
  | [] => chosen = None /\ rest = inputs
  | _ =>
    match chosen with
    | Some (Index position) => exists item, items !! position = Some item
    | Some (Extra key) =>
      ¬ cancels key /\
      exists options label, extra_options = Some options /\ (key, label) ∈ options
    | None =>
      exists skipped line, inputs = skipped ++ line :: rest /\ cancels (choice_of line)
    end
  end.
Proof.
  unfold prompt_select_from_list. destruct items as [|item items].
  { by intros [= <- <-]. }
  destruct chosen as [[position|key]|].
  - intros Hvalid%select_loop_valid. by apply lookup_lt_is_Some_2.
  - by intros Hvalid%select_loop_valid.
  - apply select_loop_cancelled.
Qed.

End PromptFacts.

Lemma prompt_int_respects_the_minimum_witness :
  Prompts.prompt_int ascii_int (Some 50%Z) (Some 10%Z) [py "5"; py " "; py "12"]
  = Some (50%Z, [py "12"]) /\ (10 <= 50)%Z.
Proof.
  split; [reflexivity|].
  exact (proj1 (prompt_int_respects_the_minimum ascii_int (Some 50%Z) 10 50
                  [py "5"; py " "; py "12"] [py "12"] eq_refl)).
Defined.

Lemma prompt_yes_no_takes_the_first_answer_witness :
  Prompts.prompt_yes_no false [py "maybe"; py " YES "; py "n"] = Some (true, [py "n"]) /\
  exists skipped line,
    [py "maybe"; py " YES "; py "n"] = skipped ++ line :: [py "n"] /\
    Forall (fun l => yes_no_answer false l = None) skipped /\
    yes_no_answer false line = Some true.
Proof.
  split; [reflexivity|].
  exact (prompt_yes_no_takes_the_first_answer false true
           [py "maybe"; py " YES "; py "n"] [py "n"] eq_refl).
Defined.

Lemma prompt_select_from_list_returns_a_valid_choice_witness :
  Prompts.prompt_select_from_list ascii_int [template_1; template_2; template_3]
    (Some [(py "A", py "Browse community templates")]) [py "7"; py "a"; py "2"]
  = Some (Some (Prompts.Index 1), []) /\
  (exists item, [template_1; template_2; template_3] !! 1%nat = Some item) /\
  Prompts.prompt_select_from_list ascii_int [template_1]
    (Some [(py "A", py "Browse community templates")]) [py "7"; py " Quit "; py "1"]
  = Some (None, [py "1"]) /\
  exists skipped line,
    [py "7"; py " Quit "; py "1"] = skipped ++ line :: [py "1"] /\ cancels (choice_of line).
Proof.
  split; [reflexivity|]. split.
  - exact (prompt_select_from_list_returns_a_valid_choice ascii_int
             [template_1; template_2; template_3]
             (Some [(py "A", py "Browse community templates")]) [py "7"; py "a"; py "2"] []
             (Some (Prompts.Index 1)) eq_refl).
  - split; [reflexivity|].
    exact (prompt_select_from_list_returns_a_valid_choice ascii_int [template_1]
             (Some [(py "A", py "Browse community templates")])
             [py "7"; py " Quit "; py "1"] [py "1"] None eq_refl).
Defined.

(** With no items nothing is read, whatever the extra options. *)
Lemma prompt_select_from_empty_list :
  Prompts.prompt_select_from_list (A:=record) ascii_int []
    (Some [(py "A", py "Browse community templates")]) [py "A"]
  = Some (None, [py "A"]).
Proof. reflexivity. Qed.

(** ** The listings of instances and volumes *)

Section ListingFacts.
Import VastAIDeepFaceLabCLI Listings JsonText Brackets.
Context `{PyRuntime}.
Variable system : list (list pystr) -> list pystr -> subprocess_result.

Lemma decode_output_plain_text (stdout : pystr) (c : N) (data : pystr) :
  PyStr.strip stdout = c :: data -> value_start c = false -> no_open (c :: data) ->
  VastAIClient.decode_output stdout = inr (VStr (c :: data)).
Proof.
  intros Hstrip Hstart Hopen.
  rewrite (decode_output_stripped _ _ _ Hstrip).
  rewrite JsonFacts.raw_decode_not_a_value by done.
  by rewrite ExtractFacts.extract_no_open.
Qed.

(** Output that is not JSON does not make [_fetch_instances] fail: when
    the command exits 0 and its stripped output has no bracket and does not
    start like a JSON value, the method returns the characters of that text
    one by one, each as a string, in place of instance records. *)
Theorem fetch_instances_splits_plain_text (s : t) (stdout stderr : pystr)
    (c : N) (data : pystr) :
  system (calls s) (instances_command s) = CompletedProcess 0 stdout stderr ->
  PyStr.strip stdout = c :: data -> value_start c = false -> no_open (c :: data) ->
  _fetch_instances system s
  = (inr (map (fun char => VStr [char]) (c :: data)),
     set_calls (calls s ++ [instances_command s]) s).
Proof.
  intros Hrun Hstrip Hstart Hopen.
  unfold _fetch_instances, fetch_entries, bind, client_run, VastAIClient.run_with.
  unfold instances_command, ran in Hrun |- *. cbn [orb]. rewrite Hrun. cbn [Z.eqb negb].
  by rewrite (decode_output_plain_text _ _ _ Hstrip Hstart Hopen).
Qed.

End ListingFacts.

Lemma fetch_instances_splits_plain_text_witness :
  fst (Listings._fetch_instances message_tool fresh_state)
  = inr (map (fun char => VStr [char]) (py "empty account")).
Proof.
  exact (f_equal fst
           (fetch_instances_splits_plain_text message_tool fresh_state
              (py "empty account" ++ nl) [] (ch "e") (py "mpty account")
              eq_refl eq_refl eq_refl eq_refl)).
Defined.

(** ** The identifier of an instance *)

Section InstanceIdFacts.
Context `{PyRuntime} `{PyUnicode}.
Import InstanceId.

Lemma take_decimals_spec (s : pystr) :
  exists after,
    s = take_decimals s ++ after /\
    Forall (fun c => char_isdecimal c = true) (take_decimals s) /\
    match after with
    | c :: _ => char_isdecimal c = false
    | [] => True
    end.
Proof.
  induction s as [|c s (after & Hs & Hall & Hafter)]; cbn [take_decimals].
  - by exists [].
  - destruct (char_isdecimal c) eqn:Hc.
    + exists after. split_and!; [by rewrite <- app_comm_cons, <- Hs | by constructor | done].
    + by exists (c :: s).
Qed.

Lemma digits_after_nondigits_spec (s group : pystr) :
  digits_after_nondigits s = Some group ->
  exists gap after,
    s = gap ++ group ++ after /\
    no_decimal gap /\
    decimals group /\
    match after with
    | c :: _ => char_isdecimal c = false
    | [] => True
    end.
Proof.
  induction s as [|c s IH]; cbn [digits_after_nondigits]; [discriminate|].
  destruct (char_isdecimal c) eqn:Hc.
  - intros [= <-]. destruct (take_decimals_spec (c :: s)) as (after & Hs & Hall & Hafter).
    exists [], after. split_and!; [done | constructor | | done].
    split; [|done]. cbn [take_decimals]. by rewrite Hc.
  - destruct (digits_after_nondigits s) as [found|]; [|discriminate].
    intros [= ->]. destruct (IH eq_refl) as (gap & after & -> & Hgap & Hgroup & Hafter).
    exists (c :: gap), after. split_and!; [done | by constructor | done | done].
Qed.

Lemma digits_after_nondigits_complete (gap after : pystr) (c : N) :
  no_decimal gap -> char_isdecimal c = true ->
  digits_after_nondigits (gap ++ c :: after) <> None.
Proof.
  intros Hgap Hc. induction Hgap as [|x gap Hx Hgap IH]; cbn [app digits_after_nondigits].
  - by rewrite Hc.
  - rewrite Hx. by destruct (digits_after_nondigits (gap ++ c :: after)).
Qed.

Lemma match_at_spec (alternatives : list pystr) (s group : pystr) :
  match_at alternatives s = Some group ->
  exists keyword tail,
    keyword ∈ alternatives /\ s = keyword ++ tail /\
    digits_after_nondigits tail = Some group.
Proof.
  induction alternatives as [|keyword rest IH]; cbn [match_at]; [discriminate|].
  intros Hmatch.
  assert (match_at rest s = Some group ->
          exists keyword' tail, keyword' ∈ keyword :: rest /\ s = keyword' ++ tail /\
                                digits_after_nondigits tail = Some group) as Hrest.
  { intros (keyword' & tail & Hin & Hs & Htail)%IH. exists keyword', tail.
    split_and!; [by right | done | done]. }
  destruct (json.strip_prefix keyword s) as [tail|] eqn:Hprefix; [|by apply Hrest].
  destruct (digits_after_nondigits tail) as [found|] eqn:Htail; [|by apply Hrest].
  injection Hmatch as ->. exists keyword, tail.
  split_and!; [by left | by apply JsonFacts.strip_prefix_split | done].
Qed.

Lemma strip_prefix_app (keyword tail : pystr) :
  json.strip_prefix keyword (keyword ++ tail) = Some tail.
Proof.
  unfold json.strip_prefix.
  assert (PyStr.startswith keyword (keyword ++ tail) = true) as ->.
  { induction keyword as [|c keyword IH]; cbn [PyStr.startswith app]; [done|].
    by rewrite N.eqb_refl. }
  by rewrite drop_app_length.
Qed.

Lemma match_at_complete (alternatives : list pystr) (keyword gap after : pystr) (c : N) :
  keyword ∈ alternatives -> no_decimal gap -> char_isdecimal c = true ->
  match_at alternatives (keyword ++ gap ++ c :: after) <> None.
Proof.
  intros Hin Hgap Hc.
  induction alternatives as [|first rest IH]; [by apply elem_of_nil in Hin|].
  cbn [match_at]. apply elem_of_cons in Hin as [<-|Hin].
  - rewrite strip_prefix_app.
    by destruct (digits_after_nondigits (gap ++ c :: after)) eqn:Htail;
      [|apply digits_after_nondigits_complete in Htail].
  - destruct (json.strip_prefix first _); [|by apply IH].
    destruct (digits_after_nondigits _); [done | by apply IH].
Qed.

(** A text given to [_extract_instance_id] never raises. A result is a
    whole run of decimal digits of the text that follows one of the
    keywords instance_id, instance, contract_id and id after characters
    that are no decimal digits, and no match of the pattern starts before
    that keyword; there is no result exactly when the text has no keyword
    that is followed, after such characters, by a decimal digit. *)
Theorem extract_instance_id_of_text (s : pystr) :
  match _extract_instance_id (VStr s) with
  | inr (Some id) =>
    exists before,
      labelled s before id /\
      forall earlier rest, before = earlier ++ rest -> rest <> [] ->
        forall tail, s = earlier ++ tail -> match_at keywords tail = None
  | inr None =>
    forall before keyword gap c after,
      keyword ∈ keywords -> no_decimal gap -> char_isdecimal c = true ->
      s <> before ++ keyword ++ gap ++ c :: after
  | inl TypeError => False
  end.
Proof.
  cbn [_extract_instance_id].
  induction s as [|x s IH]; cbn [re_search].
  - destruct (match_at keywords []) as [id|] eqn:Hmatch.
    + apply match_at_spec in Hmatch as (keyword & tail & Hin & Hs & Htail).
      apply digits_after_nondigits_spec in Htail as (gap & after & -> & Hgap & Hid & Hafter).
      exists []. split; [by exists keyword, gap, after|].
      intros earlier rest Hsplit Hrest. by destruct earlier, rest.
    + intros before keyword gap c after Hin Hgap Hc Hs.
      destruct before; [|discriminate]. cbn [app] in Hs. rewrite Hs in Hmatch.
      by eapply match_at_complete.
  - destruct (match_at keywords (x :: s)) as [id|] eqn:Hmatch.
    + apply match_at_spec in Hmatch as (keyword & tail & Hin & Hs & Htail).
      apply digits_after_nondigits_spec in Htail as (gap & after & -> & Hgap & Hid & Hafter).
      exists []. split; [by exists keyword, gap, after|].
      intros earlier rest Hsplit Hrest. by destruct earlier, rest.
    + destruct (re_search s) as [id|].
      * destruct IH as (before & (keyword & gap & after & Hs & Hrest) & Hfirst).
        exists (x :: before). split.
        { exists keyword, gap, after. by rewrite Hs. }
        intros [|y earlier] rest Hsplit Hnonempty tail Htail.
        { cbn [app] in Htail. by rewrite <- Htail. }
        cbn [app] in Hsplit, Htail. injection Hsplit as -> ->.
        injection Htail as Htail. by eapply Hfirst.
      * intros [|y before] keyword gap c after Hin Hgap Hc Hs.
        { cbn [app] in Hs. rewrite Hs in Hmatch. by eapply match_at_complete. }
        cbn [app] in Hs. injection Hs as -> Hs. by eapply IH.
Qed.

Local Abbreviation digits := digit_result.

Lemma re_search_decimals (s id : pystr) : re_search s = Some id -> decimals id.
Proof.
  induction s as [|x s IH]; cbn [re_search].
  - destruct (match_at keywords []) as [found|] eqn:Hmatch; [|discriminate].
    intros [= ->]. apply match_at_spec in Hmatch as (keyword & tail & _ & _ & Htail).
    by apply digits_after_nondigits_spec in Htail as (gap & after & _ & _ & Hid & _).
  - destruct (match_at keywords (x :: s)) as [found|] eqn:Hmatch; [|done].
    intros [= ->]. apply match_at_spec in Hmatch as (keyword & tail & _ & _ & Htail).
    by apply digits_after_nondigits_spec in Htail as (gap & after & _ & _ & Hid & _).
Qed.

Lemma try_candidate_digits (payload : record) (key : pystr) (r : result) :
  try_candidate payload key = Return r -> digits r.
Proof.
  unfold try_candidate, digits.
  destruct (get payload key); try discriminate;
    (destruct (isdigit _) eqn:Hdigit; [|discriminate]);
    (destruct (if negb _ then _ else _) as [[]|]; [| |intros [= <-]; discriminate]);
    try (intros [= <-] id [= <-]; by left);
    (destruct (_ && _); [|discriminate]); intros [= <-] id [= <-]; by left.
Qed.

Lemma candidates_loop_digits (payload : record) (keys : list pystr) (r : result) :
  candidates_loop payload keys = Return r -> digits r.
Proof.
  induction keys as [|key keys IH]; cbn [candidates_loop]; [discriminate|].
  destruct (try_candidate payload key) as [found|] eqn:Htry; [|done].
  intros [= <-]. by eapply try_candidate_digits.
Qed.

Lemma return_if_found_digits (extracted continue : result) :
  digits extracted -> digits continue -> digits (return_if_found extracted continue).
Proof.
  unfold return_if_found. intros Hextracted Hcontinue.
  by destruct extracted as [|[[|c text]|]].
Qed.

Lemma nested_at_digits (rec : value -> result) (key : pystr)
    (pairs : list (pystr * value)) (continue : result) :
  Forall (fun pair => digits (rec pair.2)) pairs -> digits continue ->
  digits (nested_at rec key pairs continue).
Proof.
  intros Hpairs Hcontinue.
  induction Hpairs as [|[k v] pairs Hv Hpairs IH]; cbn [nested_at]; [done|].
  destruct (PyStr.eqb k key); [|done].
  destruct v; try done; by apply return_if_found_digits.
Qed.

Lemma values_loop_digits (rec : value -> result) (pairs : list (pystr * value)) :
  Forall (fun pair => digits (rec pair.2)) pairs -> digits (values_loop rec pairs).
Proof.
  intros Hpairs.
  induction Hpairs as [|[k v] pairs Hv Hpairs IH]; cbn [values_loop]; [done|].
  destruct v; try done; by apply return_if_found_digits.
Qed.

Lemma items_loop_digits (rec : value -> result) (items : list value) :
  Forall (fun item => digits (rec item)) items -> digits (items_loop rec items).
Proof.
  intros Hitems.
  induction Hitems as [|item items Hitem Hitems IH]; cbn [items_loop]; [done|].
  by apply return_if_found_digits.
Qed.

(** Whatever the payload, a text that [_extract_instance_id] returns is
    one character or more, all of them digits: digits for [str.isdigit]
    when it is the stripped text of a key of a dict, decimal digits of the
    class [\d] when the pattern found it in a string. *)
Theorem extract_instance_id_returns_digits (payload : value) (id : pystr) :
  _extract_instance_id payload = inr (Some id) ->
  isdigit id = true \/ decimals id.
Proof.
  revert id. change (digits (_extract_instance_id payload)).
  revert payload. fix IH 1. intros payload.
  destruct payload as [| | | |s|items|pairs]; cbn [_extract_instance_id];
    try (intros id; discriminate).
  - intros id [= Hsearch]. right. by eapply re_search_decimals.
  - apply items_loop_digits.
    induction items as [|item items IHitems]; constructor; [apply IH | apply IHitems].
  - assert (Forall (fun pair => digits (_extract_instance_id pair.2)) pairs) as Hpairs.
    { induction pairs as [|[k v] pairs IHpairs]; constructor; [apply IH | apply IHpairs]. }
    destruct (candidates_loop pairs candidate_keys) as [r|] eqn:Hloop.
    + by eapply candidates_loop_digits.
    + repeat apply nested_at_digits; try done. by apply values_loop_digits.
Qed.

Lemma numeric_candidate (payload : record) (key : pystr) :
  numeric payload key -> PyStr.eqb key (py "id") = false ->
  try_candidate payload key = Return (inr (Some (PyStr.strip (str (get payload key))))).
Proof.
  unfold numeric, try_candidate. intros Hnumeric ->.
  by destruct (get payload key); try done; rewrite Hnumeric.
Qed.

Lemma not_numeric_candidate (payload : record) (key : pystr) :
  ¬ numeric payload key -> try_candidate payload key = Continue.
Proof.
  unfold numeric, try_candidate. intros Hnumeric.
  by destruct (get payload key); try done;
    (destruct (isdigit _) eqn:Hdigit; [destruct Hnumeric|]).
Qed.

(** For a dict whose key instance_id holds no number and whose key id holds
    one, [_extract_instance_id] returns the number at id whatever the type
    and the status of the entry say, with one exception: when the type is
    not instance and the status is present but is None, a bool or a number,
    testing the status raises TypeError. *)
Theorem extract_instance_id_falls_back_to_id (payload : record) :
  ¬ numeric payload (py "instance_id") ->
  numeric payload (py "id") ->
  _extract_instance_id (VDict payload)
  = match get payload (py "type"), dict_get (py "status") payload with
    | VStr type, Some (VNone | VBool _ | VInt _ | VFloat _) =>
      if PyStr.eqb type (py "instance")
      then inr (Some (PyStr.strip (str (get payload (py "id")))))
      else inl TypeError
    | _, Some (VNone | VBool _ | VInt _ | VFloat _) => inl TypeError
    | _, _ => inr (Some (PyStr.strip (str (get payload (py "id")))))
    end.
Proof.
  intros Hfirst Hid. cbn [_extract_instance_id candidate_keys candidates_loop].
  rewrite (not_numeric_candidate _ _ Hfirst).
  unfold numeric in Hid. unfold try_candidate.
  assert (isdigit (PyStr.strip (str (get payload (py "id")))) = true) as Hdigit.
  { by destruct (get payload (py "id")). }
  assert (PyStr.strip (str (get payload (py "id"))) <> []) as Hnonempty.
  { intros Hempty. by rewrite Hempty in Hdigit. }
  assert (PyStr.eqb (py "id") (py "id") = true) as Heq by reflexivity.
  destruct (get payload (py "id")) eqn:Hvalue; try done; rewrite Hdigit, Heq;
    cbn [negb andb];
    destruct (PyStr.strip _) as [|c text] eqn:Hstrip; try done;
    destruct (get payload (py "type")) as [| | | |type| |]; try done;
    try destruct (PyStr.eqb type (py "instance")); try done;
    destruct (dict_get (py "status") payload) as [[| | | |status|elements|entries]|];
    cbn [instance_in]; try done;
    by repeat match goal with |- context [if ?b then _ else _] => destruct b end.
Qed.

End InstanceIdFacts.

Lemma extract_instance_id_returns_digits_witness :
  InstanceId._extract_instance_id nested_response = inr (Some (py "42")) /\
  (InstanceId.isdigit (py "42") = true \/ decimals (py "42")).
Proof.
  split; [reflexivity|].
  exact (extract_instance_id_returns_digits nested_response (py "42") eq_refl).
Defined.

Lemma extract_instance_id_falls_back_to_id_witness :
  InstanceId._extract_instance_id (VDict entry_without_status) = inl InstanceId.TypeError.
Proof.
  refine (extract_instance_id_falls_back_to_id entry_without_status _ _).
  - intros [].
  - reflexivity.
Defined.
